(** * Stockify: the forecasting core, embedded and verified

    A shallow embedding of [models/currency_utils.py],
    [models/historical_predictor.py], [models/sentiment_analyzer.py] and
    [models/hybrid_predictor.py], and of the exchange rate and the user
    store of [app.py].

    Numbers.  Python floats are read as exact rationals ([Q]): every
    arithmetic step of the source is kept, its IEEE rounding error is not.
    [nan] appears only where pandas produces it for a missing lookback and is
    written [None]; a division by zero that numpy would answer with [inf] is
    never relied upon by a statement below.  The explicit roundings of the
    source ([round(x, 2)], [round(x, 0)]) are kept as operations.

    Effects.  The module-level exchange-rate cache and the Python list
    objects that [analyze] builds are an explicit [world]; functions that
    touch them live in a small state-and-error monad.  Network answers
    (price history, news, the exchange-rate sources) and the model that
    keras trains are inputs; so are the contents of [users.json] and the
    Flask session for the views of [app.py]. *)

From Stdlib Require Import String Ascii.
From Stdlib Require Import QArith Qabs Qminmax Qround Qfield Lqa.
From Stdlib Require Import ZArith Lia List Bool.
Import ListNotations.

Local Open Scope Q_scope.

(* ================================================================== *)
(** * Part I: the program *)
(* ================================================================== *)

(** ** Python values and builtins shared by the four modules *)
Module Py.

(** [x < y] and [x > y] as Python evaluates them in a condition. *)
Definition Qltb (x y : Q) : bool := negb (Qle_bool y x).
Definition Qgtb (x y : Q) : bool := Qltb y x.

(** [sum(xs)] and [len(xs)] as a number. *)
Definition sum (xs : list Q) : Q := fold_left Qplus xs 0.
Definition len {A : Type} (xs : list A) : Q := inject_Z (Z.of_nat (length xs)).

(** The mean of a non-empty sample ([Series.mean()], [sum(xs) / len(xs)]). *)
Definition mean (xs : list Q) : Q := sum xs / len xs.

(** [round(x)] to the nearest integer, ties to the even neighbour. *)
Definition round_half_even (q : Q) : Z :=
  let f := Qfloor q in
  match Qcompare (q - inject_Z f) (1 # 2) with
  | Lt => f
  | Gt => (f + 1)%Z
  | Eq => if Z.even f then f else (f + 1)%Z
  end.

Definition pow10 (n : nat) : Q := inject_Z (10 ^ Z.of_nat n).

(** [round(x, ndigits)]. *)
Definition round (q : Q) (ndigits : nat) : Q :=
  inject_Z (round_half_even (q * pow10 ndigits)) / pow10 ndigits.

(** [series.tail(k)]: the last [k] entries (all of them when there are
    fewer). *)
Definition tail {A : Type} (k : nat) (xs : list A) : list A :=
  skipn (length xs - k) xs.

(** [series.iloc[-k]] for [1 <= k <= len]. *)
Definition iloc_neg {A : Type} (k : nat) (xs : list A) : option A :=
  if (k <=? length xs)%nat then nth_error xs (length xs - k) else None.

(** [d.get(key, default)]. *)
Definition get {A : Type} (field : option A) (default : A) : A :=
  match field with Some v => v | None => default end.

(** The exceptions the modelled code can meet. *)
Inductive exn : Type :=
| IndexError
| KeyError
| ZeroDivisionError
| ValueError
| TypeError
| ConnectionError.

Inductive res (A : Type) : Type :=
| Ok (a : A)
| Raise (e : exn).
Arguments Ok {A} a.
Arguments Raise {A} e.

(** What a forecasting entry point hands back: Python's [None], a dict with
    ['success': True] and the payload, or the dict
    [{'success': False, 'message': str(e)}]. *)
Inductive message : Type :=
| Str (e : exn)          (* [str(e)] of a caught exception *)
| Text (s : string).

Inductive outcome (A : Type) : Type :=
| PyNone
| Success (payload : A)
| Failure (message : message).
Arguments PyNone {A}.
Arguments Success {A} payload.
Arguments Failure {A} message.

(** Python list objects live in a store and are named by their address, so
    that two names for one list see each other's [append]. *)
Definition ref : Type := nat.
Definition heap : Type := list (list Q).

Definition alloc (xs : list Q) (h : heap) : ref * heap :=
  (length h, h ++ [xs]).

Definition deref (r : ref) (h : heap) : list Q := nth r h [].

Fixpoint append (r : ref) (x : Q) (h : heap) : heap :=
  match h, r with
  | [], _ => []
  | xs :: rest, O => (xs ++ [x]) :: rest
  | xs :: rest, S r' => xs :: append r' x rest
  end.

(** Code that reads and writes a state [S] and may raise: what was written
    before an exception stays written. *)
Definition M (S A : Type) : Type := S -> res A * S.

Definition ret {S A : Type} (a : A) : M S A := fun s => (Ok a, s).

Definition raise {S A : Type} (e : exn) : M S A := fun s => (Raise e, s).

Definition bind {S A B : Type} (m : M S A) (k : A -> M S B) : M S B :=
  fun s =>
    match m s with
    | (Ok a, s') => k a s'
    | (Raise e, s') => (Raise e, s')
    end.

Definition lift {S A : Type} (r : res A) : M S A := fun s => (r, s).

(** [try: ... except Exception as e: handler(e)] around a whole body. *)
Definition try_except {S A : Type} (body : M S A) (handler : exn -> A)
  : S -> A * S :=
  fun s =>
    match body s with
    | (Ok a, s') => (a, s')
    | (Raise e, s') => (handler e, s')
    end.

(** [text.strip()]: the white space of ASCII (codes 9 to 13, 28 to 32) is
    taken off both ends. *)
Definition is_space (ch : ascii) : bool :=
  let n := nat_of_ascii ch in
  ((9 <=? n)%nat && (n <=? 13)%nat) || ((28 <=? n)%nat && (n <=? 32)%nat).

Fixpoint lstrip (text : string) : string :=
  match text with
  | EmptyString => EmptyString
  | String ch rest => if is_space ch then lstrip rest else text
  end.

Fixpoint rstrip (text : string) : string :=
  match text with
  | EmptyString => EmptyString
  | String ch rest =>
      match rstrip rest with
      | EmptyString =>
          if is_space ch then EmptyString else String ch EmptyString
      | kept => String ch kept
      end
  end.

Definition strip (text : string) : string := rstrip (lstrip text).

Declare Scope py_scope.
Delimit Scope py_scope with py.
Notation "x <- m ;; k" := (bind m (fun x => k))
  (at level 61, m at next level, right associativity) : py_scope.
Notation "' pat <- m ;; k" := (bind m (fun x => match x with pat => k end))
  (at level 61, pat pattern, m at next level, right associativity) : py_scope.

End Py.
Import Py.

(** ** models/currency_utils.py *)
Module currency_utils.

(** The two module-level globals. [LAST_RATE_UPDATE] is a clock reading in
    seconds. *)
Record cache : Type := {
  USD_TO_INR_RATE : option Q;
  LAST_RATE_UPDATE : option Q
}.

Definition at_import : cache :=
  {| USD_TO_INR_RATE := None; LAST_RATE_UPDATE := None |}.

(** What one remote source answers when asked. *)
Inductive reply : Type :=
| Unreachable            (* the request raised, or the status was not 200 *)
| NoQuote                (* [hist.empty], or no ['INR'] entry *)
| Quote (value : Q).

Record sources : Type := {
  yahoo_USDINR : reply;        (* Ticker("USDINR=X"), last close *)
  yahoo_INR : reply;           (* Ticker("INR=X"), last close *)
  exchangerate_api : reply;    (* rates['INR'] *)
  frankfurter : reply          (* rates['INR'] *)
}.

(** [rate > 70 and rate < 100]. *)
Definition sanity_check (rate : Q) : bool := Qgtb rate 70 && Qltb rate 100.

(** [if rate and ...]: a number is truthy when it is not zero. *)
Definition truthy (rate : Q) : bool := negb (Qeq_bool rate 0).

Definition fallback_rate : Q := 83.

Definition fetch_live_exchange_rate (net : sources) : res Q :=
  let method4 :=
    match frankfurter net with
    | Quote rate =>
        if truthy rate && sanity_check rate then Ok rate else Ok fallback_rate
    | _ => Ok fallback_rate
    end in
  let method3 :=
    match exchangerate_api net with
    | Quote rate =>
        if truthy rate && sanity_check rate then Ok rate else method4
    | _ => method4
    end in
  let method2 :=
    match yahoo_INR net with
    | Quote close =>
        let rate := 1 / close in
        if sanity_check rate then Ok rate else method3
    | _ => method3
    end in
  match yahoo_USDINR net with
  | Quote rate => if sanity_check rate then Ok rate else method2
  | _ => method2
  end.

Definition should_update (current_time : Q) (c : cache) : bool :=
  match USD_TO_INR_RATE c, LAST_RATE_UPDATE c with
  | None, _ => true
  | _, None => true
  | Some _, Some last => Qgtb (current_time - last) 3600
  end.

(** Returns the global [USD_TO_INR_RATE] as it stands after the refresh
    attempt, together with the new globals. *)
Definition get_usd_to_inr_rate (net : sources) (current_time : Q) (c : cache)
  : option Q * cache :=
  if should_update current_time c then
    match fetch_live_exchange_rate net with
    | Ok rate =>
        let c' := {| USD_TO_INR_RATE := Some rate;
                     LAST_RATE_UPDATE := Some current_time |} in
        (USD_TO_INR_RATE c', c')
    | Raise _ =>
        match USD_TO_INR_RATE c with
        | None =>
            let c' := {| USD_TO_INR_RATE := Some fallback_rate;
                         LAST_RATE_UPDATE := LAST_RATE_UPDATE c |} in
            (USD_TO_INR_RATE c', c')
        | Some _ => (USD_TO_INR_RATE c, c)
        end
    end
  else (USD_TO_INR_RATE c, c).

(** [symbol.upper()] on ASCII. *)
Definition upper_ascii (ch : ascii) : ascii :=
  let n := nat_of_ascii ch in
  if (97 <=? n)%nat && (n <=? 122)%nat then ascii_of_nat (n - 32) else ch.

Fixpoint upper (s : string) : string :=
  match s with
  | EmptyString => EmptyString
  | String ch rest => String (upper_ascii ch) (upper rest)
  end.

Definition endswith (s suffix : string) : bool :=
  let n := String.length s in
  let k := String.length suffix in
  (k <=? n)%nat && String.eqb (substring (n - k) k s) suffix.

Definition indian_suffixes : list string :=
  [".NS"; ".BO"; ".BSE"; ".NSE"]%string.

Definition is_indian_stock (symbol : string) : bool :=
  existsb (fun suffix => endswith (upper symbol) suffix) indian_suffixes.

(** [price * rate]; multiplying by [None] is a [TypeError]. *)
Definition times_rate (price : Q) (rate : option Q) : res Q :=
  match rate with
  | Some r => Ok (price * r)
  | None => Raise TypeError
  end.

(** Everything a forecast call can read and write outside its own locals:
    the list objects and the exchange-rate globals. *)
Record world : Type := {
  lists : heap;
  fx : cache
}.

(** What the outside answers during one forecast call: the four rate
    sources and the clock. *)
Record env : Type := {
  net : sources;
  now : Q
}.

Definition new_list (xs : list Q) : M world ref :=
  fun w =>
    let (r, h) := alloc xs (lists w) in
    (Ok r, {| lists := h; fx := fx w |}).

Definition list_append (r : ref) (x : Q) : M world unit :=
  fun w => (Ok tt, {| lists := append r x (lists w); fx := fx w |}).

Definition read_list (r : ref) : M world (list Q) :=
  fun w => (Ok (deref r (lists w)), w).

(** [get_usd_to_inr_rate()] as a conversion calls it. *)
Definition usd_to_inr (e : env) : M world (option Q) :=
  fun w =>
    let (rate, c') := get_usd_to_inr_rate (net e) (now e) (fx w) in
    (Ok rate, {| lists := lists w; fx := c' |}).

Local Open Scope py_scope.

Definition convert_price_to_inr (e : env) (price : Q) (symbol : string)
  : M world Q :=
  if is_indian_stock symbol then ret price
  else
    rate <- usd_to_inr e ;;
    lift (times_rate price rate).

Fixpoint times_rate_each (prices : list Q) (rate : option Q)
  : res (list Q) :=
  match prices with
  | [] => Ok []
  | price :: rest =>
      match times_rate price rate with
      | Ok p =>
          match times_rate_each rest rate with
          | Ok ps => Ok (p :: ps)
          | Raise x => Raise x
          end
      | Raise x => Raise x
      end
  end.

(** For an Indian symbol the caller gets back the very list it passed in;
    otherwise a new list. *)
Definition convert_prices_array_to_inr (e : env) (prices : ref)
    (symbol : string) : M world ref :=
  if is_indian_stock symbol then ret prices
  else
    rate <- usd_to_inr e ;;
    old <- read_list prices ;;
    converted <- lift (times_rate_each old rate) ;;
    new_list converted.

End currency_utils.

(** ** models/historical_predictor.py *)
Module historical_predictor.
Import currency_utils.
Local Open Scope py_scope.

(** One row of the price history; only the two columns the features read
    are kept. *)
Record bar : Type := {
  Close : Q;
  Volume : Q
}.

(** One row of the frame once every indicator column is defined. *)
Record features : Type := {
  row_Close : Q;
  row_Volume : Q;
  MA_7 : Q;
  MA_21 : Q;
  MA_50 : Q;
  RSI : Q;
  MACD : Q;
  Signal_Line : Q;
  BB_Middle : Q;
  BB_Upper : Q;
  BB_Lower : Q;
  Volume_MA : Q;
  Volume_Ratio : Q;
  Momentum : Q;
  Volatility : Q
}.

(** A pandas column: [None] is [nan]. *)
Definition column : Type := list (option Q).

Definition lift2 (op : Q -> Q -> Q) (a b : option Q) : option Q :=
  match a, b with
  | Some x, Some y => Some (op x y)
  | _, _ => None
  end.

(** [series.rolling(window=w).<stat>()]: position [i] sees the [w] entries
    ending at [i], and is [nan] until there are [w] of them. *)
Definition rolling (w : nat) (stat : list Q -> Q) (xs : list Q) : column :=
  map (fun i =>
         if (w <=? i + 1)%nat
         then Some (stat (firstn w (skipn (i + 1 - w) xs)))
         else None)
      (seq 0 (length xs)).

(** [series.diff()]. *)
Definition diff (xs : list Q) : column :=
  map (fun i =>
         match i with
         | O => None
         | S j => Some (nth i xs 0 - nth j xs 0)
         end)
      (seq 0 (length xs)).

(** [series.shift(k)]. *)
Definition shift (k : nat) (xs : list Q) : column :=
  map (fun i => if (k <=? i)%nat then Some (nth (i - k) xs 0) else None)
      (seq 0 (length xs)).

(** [delta.where(delta > 0, 0)]: a [nan] fails the test and becomes 0. *)
Definition where_positive (delta : option Q) : Q :=
  match delta with
  | Some d => if Qgtb d 0 then d else 0
  | None => 0
  end.

(** [-delta.where(delta < 0, 0)]. *)
Definition minus_where_negative (delta : option Q) : Q :=
  match delta with
  | Some d => - (if Qltb d 0 then d else 0)
  | None => - 0
  end.

(** [series.replace(old, new)]. *)
Definition replace (old new : Q) (v : option Q) : option Q :=
  option_map (fun x => if Qeq_bool x old then new else x) v.

(** [series.ewm(span=span, adjust=False).mean()]. *)
Fixpoint ewm_from (alpha prev : Q) (xs : list Q) : list Q :=
  match xs with
  | [] => []
  | x :: rest =>
      let y := (1 - alpha) * prev + alpha * x in
      y :: ewm_from alpha y rest
  end.

Definition ewm (span : Q) (xs : list Q) : list Q :=
  match xs with
  | [] => []
  | x0 :: rest => x0 :: ewm_from (2 / (span + 1)) x0 rest
  end.

Fixpoint zip_with (op : Q -> Q -> Q) (xs ys : list Q) : list Q :=
  match xs, ys with
  | x :: xs', y :: ys' => op x y :: zip_with op xs' ys'
  | _, _ => []
  end.

(** Arithmetic between two columns, position by position. *)
Definition col_zip (op : Q -> Q -> Q) (a b : column) : column :=
  map (fun i => lift2 op (nth i a None) (nth i b None)) (seq 0 (length a)).

(** The frame with its indicator columns ([Open], [High], [Low] and the
    other columns yfinance delivers are never read and never [nan]). *)
Record frame : Type := {
  col_Close : column;
  col_Volume : column;
  col_MA_7 : column;
  col_MA_21 : column;
  col_MA_50 : column;
  col_RSI : column;
  col_MACD : column;
  col_Signal_Line : column;
  col_BB_Middle : column;
  col_BB_Upper : column;
  col_BB_Lower : column;
  col_Volume_MA : column;
  col_Volume_Ratio : column;
  col_Momentum : column;
  col_Volatility : column
}.

(** Row [i] when none of its entries is [nan]. *)
Definition row_of (f : frame) (i : nat) : option features :=
  match nth i (col_Close f) None, nth i (col_Volume f) None,
        nth i (col_MA_7 f) None, nth i (col_MA_21 f) None,
        nth i (col_MA_50 f) None, nth i (col_RSI f) None,
        nth i (col_MACD f) None, nth i (col_Signal_Line f) None,
        nth i (col_BB_Middle f) None, nth i (col_BB_Upper f) None,
        nth i (col_BB_Lower f) None, nth i (col_Volume_MA f) None,
        nth i (col_Volume_Ratio f) None, nth i (col_Momentum f) None,
        nth i (col_Volatility f) None
  with
  | Some c, Some v, Some m7, Some m21, Some m50, Some rsi, Some macd,
    Some sig, Some bbm, Some bbu, Some bbl, Some vma, Some vr, Some mom,
    Some vol =>
      Some {| row_Close := c;
              row_Volume := v;
              MA_7 := m7;
              MA_21 := m21;
              MA_50 := m50;
              RSI := rsi;
              MACD := macd;
              Signal_Line := sig;
              BB_Middle := bbm;
              BB_Upper := bbu;
              BB_Lower := bbl;
              Volume_MA := vma;
              Volume_Ratio := vr;
              Momentum := mom;
              Volatility := vol |}
  | _, _, _, _, _, _, _, _, _, _, _, _, _, _, _ => None
  end.

(** [df.dropna()]: the rows without a [nan], in order. *)
Definition dropna (f : frame) : list features :=
  flat_map (fun i => match row_of f i with Some r => [r] | None => [] end)
           (seq 0 (length (col_Close f))).

Section Features.

(** The square root ([Series.std], [np.sqrt]) is the one operation that
    leaves the rationals; every statement holds whatever it computes. *)
Variable sqrt : Q -> Q.

(** The sample standard deviation (pandas divides by [n - 1]). *)
Definition std (xs : list Q) : Q :=
  let m := mean xs in
  sqrt (sum (map (fun x => (x - m) * (x - m)) xs) / (len xs - 1)).

(** The frame once lines 26-55 have added their columns. *)
Definition add_columns (df : list bar) : frame :=
  let close := map Close df in
  let volume := map Volume df in
  let ma_50 := rolling 50 mean close in
  let delta := diff close in
  let gain := rolling 14 mean (map where_positive delta) in
  let loss := rolling 14 mean (map minus_where_negative delta) in
  let rs := col_zip Qdiv gain (map (replace 0 0.001) loss) in
  let exp1 := ewm 12 close in
  let exp2 := ewm 26 close in
  let macd := zip_with Qminus exp1 exp2 in
  let bb_middle := rolling 20 mean close in
  let bb_std := rolling 20 std close in
  let volume_ma := rolling 20 mean volume in
  {| col_Close := map Some close;
     col_Volume := map Some volume;
     col_MA_7 := rolling 7 mean close;
     col_MA_21 := rolling 21 mean close;
     col_MA_50 := ma_50;
     col_RSI := map (option_map (fun rs => 100 - 100 / (1 + rs))) rs;
     col_MACD := map Some macd;
     col_Signal_Line := map Some (ewm 9 macd);
     col_BB_Middle := bb_middle;
     col_BB_Upper :=
       col_zip Qplus bb_middle (map (option_map (fun x => x * 2)) bb_std);
     col_BB_Lower :=
       col_zip Qminus bb_middle (map (option_map (fun x => x * 2)) bb_std);
     col_Volume_MA := volume_ma;
     col_Volume_Ratio :=
       col_zip Qdiv (map Some volume) (map (replace 0 1) volume_ma);
     col_Momentum := col_zip Qminus (map Some close) (shift 10 close);
     col_Volatility := rolling 10 std close |}.

(** [prepare_features(df)]: add the columns, then [dropna]. *)
Definition prepare_features (df : list bar) : list features :=
  dropna (add_columns df).

End Features.

(** [df[feature_columns].values]: the eleven columns the network sees,
    ['Close'] first. *)
Definition values (r : features) : list Q :=
  [row_Close r; row_Volume r; MA_7 r; MA_21 r; MA_50 r; RSI r; MACD r;
   Signal_Line r; Volume_Ratio r; Momentum r; Volatility r].

(** [create_sequences(data, sequence_length)]. *)
Definition create_sequences (data : list (list Q)) (sequence_length : nat)
  : list (list (list Q)) * list Q :=
  let idx := seq sequence_length (length data - sequence_length) in
  (map (fun i => firstn sequence_length (skipn (i - sequence_length) data)) idx,
   map (fun i => nth 0 (nth i data []) 0) idx).

(** sklearn's [MinMaxScaler] as [predict] uses it: per column
    [(x - min) / (max - min)], a zero range counting as 1; fitting on an
    array without rows raises [ValueError]. *)
Record scaler : Type := {
  data_min : list Q;
  data_max : list Q
}.

Definition column_of (j : nat) (data : list (list Q)) : list Q :=
  map (fun row => nth j row 0) data.

Definition minimum (xs : list Q) : Q := fold_right Qmin (hd 0 xs) xs.
Definition maximum (xs : list Q) : Q := fold_right Qmax (hd 0 xs) xs.

Definition data_range (lo hi : Q) : Q :=
  if Qeq_bool (hi - lo) 0 then 1 else hi - lo.

Definition fit (data : list (list Q)) : res scaler :=
  match data with
  | [] => Raise ValueError
  | first :: _ =>
      let js := seq 0 (length first) in
      Ok {| data_min := map (fun j => minimum (column_of j data)) js;
            data_max := map (fun j => maximum (column_of j data)) js |}
  end.

Definition transform_row (sc : scaler) (row : list Q) : list Q :=
  map (fun j =>
         let lo := nth j (data_min sc) 0 in
         let hi := nth j (data_max sc) 0 in
         (nth j row 0 - lo) / data_range lo hi)
      (seq 0 (length row)).

Definition fit_transform (data : list (list Q))
  : res (scaler * list (list Q)) :=
  match fit data with
  | Ok sc => Ok (sc, map (transform_row sc) data)
  | Raise x => Raise x
  end.

(** Column 0 of [scaler.inverse_transform(dummy)]. *)
Definition inverse_transform_close (sc : scaler) (p : Q) : Q :=
  let lo := nth 0 (data_min sc) 0 in
  let hi := nth 0 (data_max sc) 0 in
  p * data_range lo hi + lo.

(** sklearn's error metrics. *)
Definition mean_absolute_error (y_true y_pred : list Q) : Q :=
  mean (zip_with (fun a b => Qabs (a - b)) y_true y_pred).

Definition mean_squared_error (y_true y_pred : list Q) : Q :=
  mean (zip_with (fun a b => (a - b) * (a - b)) y_true y_pred).

Definition r2_score_of (y_true y_pred : list Q) : Q :=
  let m := mean y_true in
  let ss_res := sum (zip_with (fun a b => (a - b) * (a - b)) y_true y_pred) in
  let ss_tot := sum (map (fun a => (a - m) * (a - m)) y_true) in
  if Qeq_bool ss_tot 0 then (if Qeq_bool ss_res 0 then 1 else 0)
  else 1 - ss_res / ss_tot.

(** The successful return value of [predict] (dates, the feature names and
    the layer counts are left out). *)
Record forecast : Type := {
  historical_prices : list Q;
  predictions : list Q;
  mae : Q;
  rmse : Q;
  r2_score : Q;
  confidence : Q;
  current_price : Q;
  model_type : string
}.

Definition window : Type := list (list Q).

(** [new_row = copy(last_sequence[-1]); new_row[0] = next_pred]. *)
Definition with_close (next_pred : Q) (row : list Q) : list Q :=
  match row with
  | [] => []
  | _ :: rest => next_pred :: rest
  end.

(** The autoregressive loop over [days]. *)
Fixpoint forecast_loop (model : window -> Q) (days : nat)
    (last_sequence : window) : list Q :=
  match days with
  | O => []
  | S d =>
      let next_pred := model last_sequence in
      let new_row := with_close next_pred (last last_sequence []) in
      next_pred :: forecast_loop model d (List.tl last_sequence ++ [new_row])
  end.

(** [int(0.8 * len(X))]. *)
Definition split_point {A : Type} (X : list A) : nat :=
  Z.to_nat (Qfloor (0.8 * len X)).

Section Predict.

Variable sqrt : Q -> Q.

(** Building a network and running [model.fit] on the training windows:
    the trained network as a function from a window to the next scaled
    close, or the exception keras raised.  The flag says whether the
    ['advanced'] architecture was asked for. *)
Variable keras_fit : bool -> list window -> list Q -> res (window -> Q).

Definition sequence_length : nat := 30.

(** The body of the [try] in [predict]; [PyNone] is [return None]. *)
Definition predict_body (e : env) (symbol : string)
    (history : res (list bar)) (days : nat) (model_type : string)
  : M world (outcome forecast) :=
  df <- lift history ;;
  match df with
  | [] => ret PyNone
  | _ :: _ =>
      let df := prepare_features sqrt df in
      let data := map values df in
      '(sc, scaled_data) <- lift (fit_transform data) ;;
      let (X, y) := create_sequences scaled_data sequence_length in
      if (length X =? 0)%nat then ret PyNone
      else
        let split := split_point X in
        let X_train := firstn split X in
        let X_test := skipn split X in
        let y_train := firstn split y in
        let y_test := skipn split y in
        model <- lift (keras_fit (String.eqb model_type "advanced")
                                 X_train y_train) ;;
        let y_pred := map model X_test in
        let mae := mean_absolute_error y_test y_pred in
        let mse := mean_squared_error y_test y_pred in
        let rmse := sqrt mse in
        let r2 := r2_score_of y_test y_pred in
        let future_predictions := forecast_loop model days (last X []) in
        let predictions_denorm :=
          map (inverse_transform_close sc) future_predictions in
        let historical_prices_raw := tail 90 (map row_Close df) in
        let current_price := last (map row_Close df) 0 in
        raw <- new_list historical_prices_raw ;;
        historical_prices <- convert_prices_array_to_inr e raw symbol ;;
        denorm <- new_list predictions_denorm ;;
        predictions_inr <- convert_prices_array_to_inr e denorm symbol ;;
        current_price_inr <- convert_price_to_inr e current_price symbol ;;
        mae_inr <- convert_price_to_inr e mae symbol ;;
        rmse_inr <- convert_price_to_inr e rmse symbol ;;
        let confidence :=
          if Qgtb current_price 0
          then Qmax 0 (Qmin 100 ((1 - mae / current_price) * 100))
          else 50 in
        hp <- read_list historical_prices ;;
        ps <- read_list predictions_inr ;;
        ret (Success {| historical_prices := hp;
                        predictions := ps;
                        mae := mae_inr;
                        rmse := rmse_inr;
                        r2_score := r2;
                        confidence := confidence;
                        current_price := current_price_inr;
                        model_type := model_type |})
  end.

(** [predict(days, model_type)]: whatever the body raises is printed and
    answered with [None]. *)
Definition predict (e : env) (symbol : string) (history : res (list bar))
    (days : nat) (model_type : string) : world -> outcome forecast * world :=
  try_except (predict_body e symbol history days model_type)
             (fun _ => PyNone).

End Predict.

End historical_predictor.

(** ** models/sentiment_analyzer.py *)
Module sentiment_analyzer.
Import currency_utils.
Import historical_predictor.
Local Open Scope py_scope.

(** A news item as [get_stock_news] returns it; the other keys
    (publisher, link, summary, time) are only copied into the output. *)
Record article : Type := {
  title : string
}.

(** The two keys of [stock.info] that [analyze] reads. *)
Record info_dict : Type := {
  regularMarketPrice : option Q;
  currentPrice : option Q
}.

(** An entry of [sentiment_indicators]. *)
Inductive vote : Type :=
| positive
| negative
| neutral.

Definition vote_eqb (a b : vote) : bool :=
  match a, b with
  | positive, positive | negative, negative | neutral, neutral => true
  | _, _ => false
  end.

(** What the first block of [analyze] derives from the history.
    [numpy_price] records whether [current_price] came from the frame (a
    numpy float) or from [info] (a plain Python number): dividing by a plain
    zero raises. *)
Record stats : Type := {
  current_price : Q;
  price_change_1w : Q;
  price_change_1m : Q;
  price_change_3m : Q;
  volatility : Q;
  recent_returns : Q;
  volume_trend : Q;
  numpy_price : bool
}.

(** The dict [analyze] returns with ['success': True] (the per-article
    breakdown is left out). *)
Record sentiment : Type := {
  overall_sentiment : string;
  sentiment_score : Q;
  polarity : Q;
  positive_count : nat;
  negative_count : nat;
  neutral_count : nat;
  total_indicators : nat;
  total_articles : option nat;
  confidence : Q;
  result_current_price : Q;
  predicted_change_percent : Q;
  predictions : list Q;
  performance_1w : Q;
  performance_1m : Q;
  performance_3m : Q;
  result_volatility : Q;
  sentiment_indicators : list vote
}.

Definition categorize_sentiment (polarity : Q) : string :=
  if Qgtb polarity 0.4 then "Very Positive"
  else if Qgtb polarity 0.15 then "Positive"
  else if Qgtb polarity (- 0.15) then "Neutral"
  else if Qgtb polarity (- 0.4) then "Negative"
  else "Very Negative".

Definition get_sentiment_score (polarity : Q) : Q :=
  round ((polarity + 1) * 50) 2.

(** [((current - past) / past) * 100 if past > 0 else 0]. *)
Definition percent_change (current past : Q) : Q :=
  if Qgtb past 0 then ((current - past) / past) * 100 else 0.

(** [series.pct_change().dropna()]. *)
Definition pct_change (xs : list Q) : list Q :=
  map (fun i => (nth (S i) xs 0 - nth i xs 0) / nth i xs 0)
      (seq 0 (length xs - 1)).

(** [for x in xs: body(x)]. *)
Fixpoint for_each {A : Type} (xs : list A) (body : A -> M world unit)
  : M world unit :=
  match xs with
  | [] => ret tt
  | x :: rest => _ <- body x ;; for_each rest body
  end.

(** [range(1, 15)]. *)
Definition days : list nat := seq 1 14.

Definition day_number (day : nat) : Q := inject_Z (Z.of_nat day).

(** One pass of a forecast loop:
    [daily_impact = total_impact * (1 - (day * decay))], then
    [round(current_price * (1 + daily_impact), 2)]. *)
Definition predicted_price (current_price total_impact decay : Q) (day : nat)
  : Q :=
  let daily_impact := total_impact * (1 - day_number day * decay) in
  round (current_price * (1 + daily_impact)) 2.

Definition forecast_into (predictions : ref)
    (current_price total_impact decay : Q) : M world unit :=
  for_each days (fun day =>
    list_append predictions
                (predicted_price current_price total_impact decay day)).

(** The weighted tally over the two parallel lists. *)
Definition tally (sentiment_indicators : list vote)
    (indicator_weights : list Q) : Q * Q * Q :=
  fold_left
    (fun (acc : Q * Q * Q) (iw : vote * Q) =>
       let '(pos, neg, neu) := acc in
       let (indicator, weight) := iw in
       match indicator with
       | positive => (pos + weight, neg, neu)
       | negative => (pos, neg + weight, neu)
       | neutral => (pos, neg, neu + weight)
       end)
    (combine sentiment_indicators indicator_weights)
    (0, 0, 0).

Definition overall_label (positive_score negative_score neutral_score : Q)
  : string :=
  if Qgtb positive_score negative_score && Qgtb positive_score neutral_score
  then "Positive"
  else if Qgtb negative_score positive_score
          && Qgtb negative_score neutral_score
  then "Negative"
  else "Neutral".

(** [max(0, min(100, (positive_score - negative_score) * 100 + 50))]. *)
Definition score_of (positive_score negative_score : Q) : Q :=
  Qmax 0 (Qmin 100 ((positive_score - negative_score) * 100 + 50)).

(** The impact the score-driven forecast applies on day 0. *)
Definition total_impact_of (sentiment_score weighted_performance : Q) : Q :=
  let sentiment_impact_factor := (sentiment_score - 50) / 50 in
  let sentiment_impact := sentiment_impact_factor * 0.08 in
  let momentum_impact := (weighted_performance / 100) * 0.02 in
  sentiment_impact + momentum_impact.

Definition count_votes (v : vote) (votes : list vote) : nat :=
  length (filter (vote_eqb v) votes).

Definition weighted_performance_of (s : stats) : Q :=
  price_change_1w s * 0.5 + price_change_1m s * 0.3
  + price_change_3m s * 0.2.

(** Indicators 1 to 3, shared by both paths up to their weights. *)
Definition week_vote (s : stats) : vote :=
  if Qgtb (price_change_1w s) 2 then positive
  else if Qltb (price_change_1w s) (- 2) then negative
  else neutral.

Definition month_vote (s : stats) : vote :=
  if Qgtb (price_change_1m s) 5 then positive
  else if Qltb (price_change_1m s) (- 5) then negative
  else neutral.

Definition volatility_vote (s : stats) : vote :=
  if Qltb (volatility s) 0.02 then neutral
  else if Qgtb (volatility s) 0.05 then
    (if Qgtb (weighted_performance_of s) 0 then positive else negative)
  else neutral.

(** Indicator 4: [recent_prices = hist['Close'].tail(10)], then
    [recent_prices.iloc[0]], which raises on an empty frame. *)
Definition momentum_10d (hist : list bar) : res Q :=
  let recent_prices := tail 10 (map Close hist) in
  match recent_prices with
  | [] => Raise IndexError
  | start_price :: _ =>
      Ok (if Qgtb start_price 0
          then (last recent_prices 0 - start_price) / start_price * 100
          else 0)
  end.

Definition momentum_vote (momentum : Q) : vote :=
  if Qgtb momentum 1 then positive
  else if Qltb momentum (- 1) then negative
  else neutral.

(** Indicator 5 (Path B only). *)
Definition volume_vote (s : stats) (hist : list bar) : vote :=
  let avg_volume := mean (map Volume hist) in
  let recent_volume := mean (tail 5 (map Volume hist)) in
  let volume_ratio :=
    if Qgtb avg_volume 0 then recent_volume / avg_volume else 1 in
  if Qgtb volume_ratio 1.2 then
    (if Qgtb (weighted_performance_of s) 0 then positive else negative)
  else neutral.

(** *** [get_stock_news] *)

(** An entry of [stock.news]: the two keys that decide whether it is kept,
    each read with [.get(key, '')]. *)
Record news_item : Type := {
  item_title : string;
  item_publisher : string
}.

(** What the three news sources answer.  An entry of a list is [Raise] when
    reading it raises.  For the two scraped pages [None] is a status other
    than 200, and an element is the text of its title ([<title>] of an RSS
    [<item>], [<a>] of a headline), if it has one. *)
Record news_feeds : Type := {
  yfinance_news : res (list (res news_item));
  google_rss : res (option (list (res (option string))));
  yahoo_page : res (option (list (res (option string))))
}.

(** Lines 31-44: the entries with a title and a publisher; any exception
    discards the lot. *)
Fixpoint format_news (news : list (res news_item)) : res (list article) :=
  match news with
  | [] => Ok []
  | Raise x :: _ => Raise x
  | Ok entry :: rest =>
      let title := strip (item_title entry) in
      let publisher := strip (item_publisher entry) in
      match format_news rest with
      | Raise x => Raise x
      | Ok formatted_news =>
          if negb (String.eqb title EmptyString)
             && negb (String.eqb publisher EmptyString)
          then Ok ({| title := title |} :: formatted_news)
          else Ok formatted_news
      end
  end.

(** The loops of lines 79-111 and 131-141: every element with a non-blank
    title is appended to [articles]; the flag tells whether the loop ran to
    its end or an exception stopped it, leaving what was appended. *)
Fixpoint collect (elements : list (res (option string)))
    (articles : list article) : list article * bool :=
  match elements with
  | [] => (articles, true)
  | Raise _ :: _ => (articles, false)
  | Ok None :: rest => collect rest articles
  | Ok (Some text) :: rest =>
      if String.eqb (strip text) EmptyString then collect rest articles
      else collect rest (articles ++ [{| title := strip text |}])
  end.

Definition get_stock_news (f : news_feeds) : list article :=
  let try3 (articles : list article) :=
    match yahoo_page f with
    | Ok (Some news_items) =>
        let (articles, finished) := collect (firstn 8 news_items) articles in
        if finished && (2 <=? length articles)%nat
        then firstn 8 articles
        else []
    | _ => []
    end in
  let try2 :=
    match google_rss f with
    | Ok (Some items) =>
        let (articles, finished) := collect (firstn 12 items) [] in
        if finished && (2 <=? length articles)%nat
        then firstn 10 articles
        else try3 articles
    | _ => try3 []
    end in
  match yfinance_news f with
  | Ok news =>
      match format_news (firstn 8 news) with
      | Ok formatted_news =>
          if (2 <=? length formatted_news)%nat then formatted_news else try2
      | Raise _ => try2
      end
  | Raise _ => try2
  end.

Section Analyze.

Variable sqrt : Q -> Q.

(** TextBlob's polarity of a text, or the exception it raised. *)
Variable TextBlob_polarity : string -> res Q.

Definition analyze_text_sentiment (text : string) : Q :=
  match TextBlob_polarity text with
  | Ok p => p
  | Raise _ => 0
  end.

(** Lines 263-295: the statistics of the history, or the defaults. *)
Definition market_stats (info : info_dict) (hist : list bar) : stats :=
  if (20 <? length hist)%nat then
    let close := map Close hist in
    let current_price := last close 0 in
    let week_ago_price := get (iloc_neg 5 close) current_price in
    let month_ago_price := get (iloc_neg 20 close) current_price in
    let three_month_ago_price := hd 0 close in
    let returns := pct_change close in
    let avg_volume := mean (map Volume hist) in
    {| current_price := current_price;
       price_change_1w := percent_change current_price week_ago_price;
       price_change_1m := percent_change current_price month_ago_price;
       price_change_3m := percent_change current_price three_month_ago_price;
       volatility := std sqrt returns * 100;
       recent_returns := mean (tail 10 returns) * 100;
       volume_trend :=
         if Qgtb avg_volume 0
         then mean (tail 5 (map Volume hist)) / avg_volume - 1
         else 0;
       numpy_price := true |}
  else
    {| current_price :=
         get (regularMarketPrice info) (get (currentPrice info) 0);
       price_change_1w := 0;
       price_change_1m := 0;
       price_change_3m := 0;
       volatility := 5;
       recent_returns := 0;
       volume_trend := 0;
       numpy_price := false |}.

(** *** Path B: no articles *)

Definition base_sentiment (weighted_performance : Q) : Q :=
  if Qgtb weighted_performance 15 then 0.7
  else if Qgtb weighted_performance 5 then 0.4
  else if Qgtb weighted_performance 0 then 0.15
  else if Qgtb weighted_performance (- 5) then - 0.15
  else if Qgtb weighted_performance (- 15) then - 0.4
  else - 0.7.

Definition final_sentiment_B (s : stats) : Q :=
  let momentum_adjustment :=
    Qmin (Qmax (recent_returns s * 0.02) (- 0.2)) 0.2 in
  let volatility_penalty := Qmin (volatility s * 0.015) 0.25 in
  let volume_adjustment :=
    if Qgtb (price_change_1w s) 0 && Qgtb (volume_trend s) 0 then 0.1
    else if Qltb (price_change_1w s) 0 && Qgtb (volume_trend s) 0
    then - 0.1
    else 0 in
  Qmax (- 1)
       (Qmin 1 (base_sentiment (weighted_performance_of s)
                + momentum_adjustment - volatility_penalty
                + volume_adjustment)).

(** The two parallel lists Path B builds (lines 343-418). *)
Definition indicators_B (s : stats) (hist : list bar)
  : res (list vote * list Q) :=
  match momentum_10d hist with
  | Raise x => Raise x
  | Ok momentum =>
      Ok ([week_vote s; month_vote s; volatility_vote s;
           momentum_vote momentum; volume_vote s hist],
          [0.25; 0.20; 0.15; 0.20; 0.20])
  end.

Definition confidence_B (s : stats) (hist : list bar) : Q :=
  let data_confidence := Qmin ((len hist / 120) * 100) 100 in
  let volatility_confidence := Qmax 0 (100 - volatility s * 8) in
  let performance_confidence := 100 - Qabs (weighted_performance_of s) in
  Qmax 30 (Qmin 85 (data_confidence * 0.4
                    + volatility_confidence * 0.4
                    + performance_confidence * 0.2)).

Definition path_B (e : env) (symbol : string) (s : stats) (hist : list bar)
  : M world sentiment :=
  let weighted_performance := weighted_performance_of s in
  let final_sentiment := final_sentiment_B s in
  '(sentiment_indicators, indicator_weights) <- lift (indicators_B s hist) ;;
  let '(positive_score, negative_score, neutral_score) :=
    tally sentiment_indicators indicator_weights in
  let sentiment_score := score_of positive_score negative_score in
  let total_impact := total_impact_of sentiment_score weighted_performance in
  let predicted_change_percent := total_impact * 100 in
  predictions <- new_list [] ;;
  _ <- forecast_into predictions (current_price s) total_impact 0.04 ;;
  current_price_inr <- convert_price_to_inr e (current_price s) symbol ;;
  predictions_inr <- convert_prices_array_to_inr e predictions symbol ;;
  let confidence := confidence_B s hist in
  shown <- read_list predictions_inr ;;
  ret {| overall_sentiment :=
           overall_label positive_score negative_score neutral_score;
         sentiment_score := round sentiment_score 0;
         polarity := round final_sentiment 3;
         positive_count := count_votes positive sentiment_indicators;
         negative_count := count_votes negative sentiment_indicators;
         neutral_count := count_votes neutral sentiment_indicators;
         total_indicators := length sentiment_indicators;
         total_articles := None;
         confidence := round confidence 2;
         result_current_price := round current_price_inr 2;
         predicted_change_percent := round predicted_change_percent 2;
         predictions := map (fun p => round p 2) shown;
         performance_1w := round (price_change_1w s) 2;
         performance_1m := round (price_change_1m s) 2;
         performance_3m := round (price_change_3m s) 2;
         result_volatility := round (volatility s) 2;
         sentiment_indicators := sentiment_indicators |}.

(** *** Path A: articles present *)

Definition final_sentiment_A (s : stats) (avg_sentiment : Q) : Q :=
  let performance_adjustment := weighted_performance_of s * 0.015 in
  let adjusted_sentiment :=
    avg_sentiment * 0.6 + performance_adjustment * 0.4 in
  let volatility_penalty := Qmin (volatility s * 0.015) 0.25 in
  let momentum_adjustment :=
    Qmin (Qmax (recent_returns s * 0.02) (- 0.15)) 0.15 in
  Qmax (- 1)
       (Qmin 1 (adjusted_sentiment + momentum_adjustment - volatility_penalty)).

(** The impact of the first forecast loop (lines 553-557). *)
Definition news_total_impact (s : stats) (sentiments : list Q)
    (avg_sentiment : Q) : Q :=
  let news_impact :=
    match sentiments with [] => 0 | _ :: _ => avg_sentiment * 0.05 end in
  let performance_impact :=
    (price_change_1w s + price_change_1m s) / 2 * 0.01 in
  let volatility_impact := - volatility s * 0.02 in
  news_impact + performance_impact + volatility_impact.

(** Lines 566-570: the quotient by [current_price] raises when that is a
    plain Python zero (a numpy zero yields [nan] instead; either way the
    value is overwritten at line 700 and never returned). *)
Definition first_change_percent (s : stats) (predictions : list Q)
    (total_impact : Q) : res Q :=
  match predictions with
  | [] => Ok (total_impact * 100)
  | _ :: _ =>
      let avg_prediction := sum predictions / len predictions in
      if negb (numpy_price s) && Qeq_bool (current_price s) 0
      then Raise ZeroDivisionError
      else Ok ((avg_prediction - current_price s) / current_price s * 100)
  end.

Definition confidence_A (s : stats) (sentiments : list Q) (avg_sentiment : Q)
  : Q :=
  let sentiment_std :=
    match sentiments with
    | [] => 0
    | _ :: _ =>
        sqrt (sum (map (fun x => (x - avg_sentiment) * (x - avg_sentiment))
                       sentiments)
              / len sentiments)
    end in
  let article_confidence := Qmin ((len sentiments / 20) * 100) 100 in
  let consistency_confidence := Qmax 0 ((1 - sentiment_std) * 100) in
  let volatility_confidence := Qmax 0 (100 - volatility s * 8) in
  Qmax 40 (Qmin 95 (article_confidence * 0.4
                    + consistency_confidence * 0.3
                    + volatility_confidence * 0.3)).

(** [min(len(sentiments) / 20, 1.0) * 0.4]. *)
Definition news_weight (sentiments : list Q) : Q :=
  Qmin (len sentiments / 20) 1 * 0.4.

Definition news_vote (avg_sentiment : Q) : vote :=
  if Qgtb avg_sentiment 0.1 then positive
  else if Qltb avg_sentiment (- 0.1) then negative
  else neutral.

(** The two parallel lists Path A builds (lines 589-660). *)
Definition indicators_A (s : stats) (hist : list bar) (sentiments : list Q)
    (avg_sentiment : Q) : res (list vote * list Q) :=
  let news :=
    match sentiments with
    | [] => ([], [])
    | _ :: _ => ([news_vote avg_sentiment], [news_weight sentiments])
    end in
  match momentum_10d hist with
  | Raise x => Raise x
  | Ok momentum =>
      Ok (fst news ++ [week_vote s; month_vote s; volatility_vote s;
                       momentum_vote momentum],
          snd news ++ [0.15; 0.15; 0.10; 0.10])
  end.

Definition path_A (e : env) (symbol : string) (s : stats) (hist : list bar)
    (news_articles : list article) : M world sentiment :=
  let sentiments :=
    map (fun a => analyze_text_sentiment (title a)) (firstn 20 news_articles) in
  let avg_sentiment :=
    match sentiments with
    | [] => 0
    | _ :: _ => sum sentiments / len sentiments
    end in
  let weighted_performance := weighted_performance_of s in
  let final_sentiment := final_sentiment_A s avg_sentiment in
  predictions <- new_list [] ;;
  let total_impact := news_total_impact s sentiments avg_sentiment in
  _ <- forecast_into predictions (current_price s) total_impact 0.03 ;;
  so_far <- read_list predictions ;;
  _ <- lift (first_change_percent s so_far total_impact) ;;
  let confidence := confidence_A s sentiments avg_sentiment in
  current_price_inr <- convert_price_to_inr e (current_price s) symbol ;;
  predictions_inr <- convert_prices_array_to_inr e predictions symbol ;;
  '(sentiment_indicators, indicator_weights) <-
    lift (indicators_A s hist sentiments avg_sentiment) ;;
  let '(positive_score, negative_score, neutral_score) :=
    tally sentiment_indicators indicator_weights in
  let sentiment_score := score_of positive_score negative_score in
  let total_impact := total_impact_of sentiment_score weighted_performance in
  let predicted_change_percent := total_impact * 100 in
  _ <- forecast_into predictions (current_price s) total_impact 0.04 ;;
  shown <- read_list predictions_inr ;;
  ret {| overall_sentiment :=
           overall_label positive_score negative_score neutral_score;
         sentiment_score := round sentiment_score 0;
         polarity := round final_sentiment 3;
         positive_count := count_votes positive sentiment_indicators;
         negative_count := count_votes negative sentiment_indicators;
         neutral_count := count_votes neutral sentiment_indicators;
         total_indicators := length sentiment_indicators;
         total_articles := Some (length sentiments);
         confidence := round confidence 2;
         result_current_price := round current_price_inr 2;
         predicted_change_percent := round predicted_change_percent 2;
         predictions := map (fun p => round p 2) shown;
         performance_1w := round (price_change_1w s) 2;
         performance_1m := round (price_change_1m s) 2;
         performance_3m := round (price_change_3m s) 2;
         result_volatility := round (volatility s) 2;
         sentiment_indicators := sentiment_indicators |}.

(** The body of the [try] in [analyze]. *)
Definition analyze_body (e : env) (symbol : string)
    (news_articles : list article) (info : res info_dict)
    (history : res (list bar)) : M world (outcome sentiment) :=
  info <- lift info ;;
  hist <- lift history ;;
  let s := market_stats info hist in
  result <- match news_articles with
            | [] => path_B e symbol s hist
            | _ :: _ => path_A e symbol s hist news_articles
            end ;;
  ret (Success result).

(** [analyze()]: an exception becomes
    [{'success': False, 'message': str(e)}]. *)
Definition analyze (e : env) (symbol : string) (news_articles : list article)
    (info : res info_dict) (history : res (list bar))
  : world -> outcome sentiment * world :=
  try_except (analyze_body e symbol news_articles info history)
             (fun x => Failure (Str x)).

(** What the loop of lines 503-524 records per article in [articles_data]
    besides the copied keys (title, publisher, link, date, summary). *)
Record article_data : Type := {
  ad_sentiment : string;
  ad_polarity : Q;
  ad_score : Q
}.

Definition article_entry (a : article) : article_data :=
  let polarity := analyze_text_sentiment (title a) in
  {| ad_sentiment := categorize_sentiment polarity;
     ad_polarity := round polarity 3;
     ad_score := get_sentiment_score polarity |}.

End Analyze.

End sentiment_analyzer.

(** ** models/hybrid_predictor.py *)
Module hybrid_predictor.
Import currency_utils.
Local Open Scope py_scope.

(** The keys [combine_predictions] and [calculate_risk_score] read with
    [.get] from the two result dicts; [None] is an absent key. *)
Record historical_dict : Type := {
  h_mae : option Q;
  h_predictions : option (list Q);
  h_current_price : option Q
}.

Record sentiment_dict : Type := {
  s_confidence : option Q;
  s_predictions : option (list Q);
  s_sentiment_score : option Q
}.

(** [1 / x] on Python floats. *)
Definition reciprocal (x : Q) : res Q :=
  if Qeq_bool x 0 then Raise ZeroDivisionError else Ok (1 / x).

Definition combine_predictions (historical_data : historical_dict)
    (sentiment_data : sentiment_dict) : res (list Q * Q * Q) :=
  let historical_mae := get (h_mae historical_data) 1 in
  match reciprocal (1 + historical_mae) with
  | Raise x => Raise x
  | Ok historical_accuracy =>
      let sentiment_confidence := get (s_confidence sentiment_data) 50 / 100 in
      let total_weight := historical_accuracy + sentiment_confidence in
      let (historical_weight, sentiment_weight) :=
        if Qgtb total_weight 0
        then (historical_accuracy / total_weight,
              sentiment_confidence / total_weight)
        else (0.7, 0.3) in
      let historical_predictions := get (h_predictions historical_data) [] in
      let sentiment_predictions := get (s_predictions sentiment_data) [] in
      match historical_predictions, sentiment_predictions with
      | [], [] => Ok ([], historical_weight, sentiment_weight)
      | [], _ :: _ => Ok (sentiment_predictions, 0, 1)
      | _ :: _, [] => Ok (historical_predictions, 1, 0)
      | _ :: _, _ :: _ =>
          Ok (map (fun i =>
                     let combined :=
                       nth i historical_predictions 0 * historical_weight
                       + nth i sentiment_predictions 0 * sentiment_weight in
                     round combined 2)
                  (seq 0 (Nat.min (length historical_predictions)
                                  (length sentiment_predictions))),
              historical_weight, sentiment_weight)
      end
  end.

Record risk_analysis : Type := {
  risk_score : Q;
  risk_level : string;
  recommendation : string;
  risk_color : string;
  risk_factors : list (string * Q)
}.

(** The four factors, unrounded, in the order they are appended. *)
Definition risk_factors_of (historical_result : historical_dict)
    (sentiment_result : sentiment_dict) (price_change_percent : Q)
  : list (string * Q) :=
  let mae := get (h_mae historical_result) 0 in
  let mae_risk := Qmin (mae * 10) 30 in
  let sentiment_score := get (s_sentiment_score sentiment_result) 50 in
  let sentiment_risk := Qabs (50 - sentiment_score) / 2 in
  let volatility := Qabs price_change_percent in
  let volatility_risk := Qmin (volatility * 2) 25 in
  let confidence := get (s_confidence sentiment_result) 50 in
  let confidence_risk := (100 - confidence) / 5 in
  [("Model Accuracy Risk", mae_risk);
   ("Sentiment Volatility", sentiment_risk);
   ("Price Volatility", volatility_risk);
   ("Market Uncertainty", confidence_risk)]%string.

(** [sum([factor[1] for factor in risk_factors])]. *)
Definition total_risk_of (risk_factors : list (string * Q)) : Q :=
  sum (map snd risk_factors).

(** Lines 93-112: level, recommendation and color from the total. *)
Definition risk_band (total_risk : Q) : string * string * string :=
  (if Qltb total_risk 25 then ("Low Risk", "Strong Buy", "#10b981")
   else if Qltb total_risk 40 then ("Low-Medium Risk", "Buy", "#22c55e")
   else if Qltb total_risk 55 then ("Medium Risk", "Hold", "#f59e0b")
   else if Qltb total_risk 70 then ("Medium-High Risk", "Sell", "#f97316")
   else ("High Risk", "Strong Sell", "#ef4444"))%string.

Definition calculate_risk_score (historical_result : historical_dict)
    (sentiment_result : sentiment_dict) (price_change_percent : Q)
  : risk_analysis :=
  let risk_factors :=
    risk_factors_of historical_result sentiment_result price_change_percent in
  let total_risk := total_risk_of risk_factors in
  let '(level, advice, color) := risk_band total_risk in
  {| risk_score := round total_risk 2;
     risk_level := level;
     recommendation := advice;
     risk_color := color;
     risk_factors :=
       map (fun ns : string * Q => (fst ns, round (snd ns) 2)) risk_factors |}.

(** The result dicts as [.get] sees them: every key present. *)
Definition historical_keys (f : historical_predictor.forecast)
  : historical_dict :=
  {| h_mae := Some (historical_predictor.mae f);
     h_predictions := Some (historical_predictor.predictions f);
     h_current_price := Some (historical_predictor.current_price f) |}.

Definition sentiment_keys (r : sentiment_analyzer.sentiment)
  : sentiment_dict :=
  {| s_confidence := Some (sentiment_analyzer.confidence r);
     s_predictions := Some (sentiment_analyzer.predictions r);
     s_sentiment_score := Some (sentiment_analyzer.sentiment_score r) |}.

(** The successful return value of [HybridPredictor.predict] (dates, the
    explanation sentences and the peer list are left out). *)
Record ensemble : Type := {
  current_price : Q;
  predictions : list Q;
  avg_prediction : Q;
  price_change : Q;
  price_change_percent : Q;
  prediction_min : Q;
  prediction_max : Q;
  overall_confidence : Q;
  historical_weight : Q;
  sentiment_weight : Q;
  risk : risk_analysis
}.

(** What the outside hands to one hybrid forecast. *)
Record feeds : Type := {
  history_2y : res (list historical_predictor.bar);
  history_3mo : res (list historical_predictor.bar);
  news : list sentiment_analyzer.article;
  info : res sentiment_analyzer.info_dict;
  sector : res string             (* [stock.info.get('sector', 'Unknown')] *)
}.

Section Predict.

Variable sqrt : Q -> Q.
Variable keras_fit :
  bool -> list historical_predictor.window -> list Q ->
  res (historical_predictor.window -> Q).
Variable TextBlob_polarity : string -> res Q.

(** Lines 296-366, once both sub-forecasts have succeeded. *)
Definition merge (historical_result : historical_predictor.forecast)
    (sentiment_result : sentiment_analyzer.sentiment) (sector : res string)
  : res ensemble :=
  let h := historical_keys historical_result in
  let s := sentiment_keys sentiment_result in
  match combine_predictions h s with
  | Raise x => Raise x
  | Ok (combined_predictions, hist_weight, sent_weight) =>
      let current_price := get (h_current_price h) 0 in
      let avg_prediction :=
        match combined_predictions with
        | [] => current_price
        | _ :: _ => sum combined_predictions / len combined_predictions
        end in
      let price_change := avg_prediction - current_price in
      let price_change_percent :=
        if Qgtb current_price 0 then (price_change / current_price) * 100
        else 0 in
      let prediction_min :=
        match combined_predictions with
        | [] => avg_prediction
        | _ :: _ => historical_predictor.minimum combined_predictions
        end in
      let prediction_max :=
        match combined_predictions with
        | [] => avg_prediction
        | _ :: _ => historical_predictor.maximum combined_predictions
        end in
      match reciprocal (1 + get (h_mae h) 1) with
      | Raise x => Raise x
      | Ok accuracy =>
          let historical_confidence := accuracy * 100 in
          let sentiment_confidence := get (s_confidence s) 50 in
          let overall_confidence :=
            historical_confidence * hist_weight
            + sentiment_confidence * sent_weight in
          let risk_analysis :=
            calculate_risk_score h s price_change_percent in
          match sector with
          | Raise x => Raise x
          | Ok _ =>
              Ok {| current_price := current_price;
                    predictions := combined_predictions;
                    avg_prediction := round avg_prediction 2;
                    price_change := round price_change 2;
                    price_change_percent := round price_change_percent 2;
                    prediction_min := round prediction_min 2;
                    prediction_max := round prediction_max 2;
                    overall_confidence := round overall_confidence 2;
                    historical_weight := round (hist_weight * 100) 2;
                    sentiment_weight := round (sent_weight * 100) 2;
                    risk := risk_analysis |}
          end
      end
  end.

(** [HybridPredictor.predict(days)]. *)
Definition predict (e : env) (symbol : string) (f : feeds) (days : nat)
    (w : world) : outcome ensemble * world :=
  let (historical_result, w1) :=
    historical_predictor.predict sqrt keras_fit e symbol (history_2y f) days
                                 "standard" w in
  let (sentiment_result, w2) :=
    sentiment_analyzer.analyze sqrt TextBlob_polarity e symbol (news f)
                               (info f) (history_3mo f) w1 in
  match historical_result with
  | Success h =>
      match sentiment_result with
      | Success s =>
          match merge h s (sector f) with
          | Ok r => (Success r, w2)
          | Raise x => (Failure (Str x), w2)
          end
      | _ => (Failure (Text "Sentiment analysis failed"), w2)
      end
  | _ => (Failure (Text "Historical prediction failed"), w2)
  end.

End Predict.

(** *** Peer context *)

(** The table of [get_sector_analysis] (lines 128-140), as its items. *)
Definition sector_companies : list (string * list string) :=
  [("Technology", ["TCS.NS"; "INFY.NS"; "WIPRO.NS"; "AAPL"; "MSFT"]);
   ("Financial Services",
    ["HDFCBANK.NS"; "ICICIBANK.NS"; "SBIN.NS"; "JPM"; "BAC"]);
   ("Healthcare", ["SUNPHARMA.NS"; "DRREDDY.NS"; "JNJ"; "PFE"]);
   ("Consumer Cyclical", ["MARUTI.NS"; "TATAMOTORS.NS"; "TSLA"; "AMZN"]);
   ("Energy", ["RELIANCE.NS"; "ONGC.NS"; "XOM"; "CVX"]);
   ("Industrials", ["LT.NS"; "BHARTIARTL.NS"; "BA"; "CAT"]);
   ("Basic Materials", ["TATASTEEL.NS"; "HINDALCO.NS"; "BHP"]);
   ("Consumer Defensive", ["ITC.NS"; "HINDUNILVR.NS"; "PG"; "KO"]);
   ("Communication Services", ["BHARTIARTL.NS"; "T"; "VZ"; "META"]);
   ("Real Estate", ["DLF.NS"; "GODREJPROP.NS"; "AMT"]);
   ("Utilities", ["NTPC.NS"; "POWERGRID.NS"; "NEE"])]%string.

(** [d.get(key)] on a dict written as its items; [None] is an absent key. *)
Fixpoint dict_get {A : Type} (key : string) (items : list (string * A))
  : option A :=
  match items with
  | [] => None
  | (k, v) :: rest => if String.eqb k key then Some v else dict_get key rest
  end.

(** An entry of [sector_predictions] (the ['name'] key is left out). *)
Record peer : Type := {
  peer_symbol : string;
  peer_current_price : Q;
  peer_change_percent : Q;
  peer_predicted_price : Q;
  peer_predicted_change : Q
}.

(** The [try] body of lines 151-190 for one company, in the quick mode
    ([skip_predictions=True]) that [predict] asks for at line 342; the full
    mode of lines 192-218 is called from nowhere.  [hist] is the company's
    three-day history, or the exception [stock.info] or [stock.history]
    raised; [None] is [continue]. *)
Definition quick_peer (e : env) (company_symbol : string)
    (hist : res (list historical_predictor.bar)) : M world (option peer) :=
  hist <- lift hist ;;
  match hist with
  | [] => ret None
  | _ :: _ =>
      let close := map historical_predictor.Close hist in
      let current_price := last close 0 in
      let prev_close := get (iloc_neg 2 close) current_price in
      let change_percent :=
        if Qgtb prev_close 0
        then ((current_price - prev_close) / prev_close) * 100
        else 0 in
      let start_price := hd 0 close in
      let (predicted_price, predicted_change) :=
        if Qgtb start_price 0 then
          let recent_change :=
            ((last close 0 - start_price) / start_price) * 100 in
          (current_price * (1 + (recent_change * 0.1) / 100),
           recent_change * 0.1)
        else (current_price, 0) in
      current_price_inr <-
        convert_price_to_inr e current_price company_symbol ;;
      predicted_price_inr <-
        convert_price_to_inr e predicted_price company_symbol ;;
      ret (Some {| peer_symbol := company_symbol;
                   peer_current_price := round current_price_inr 2;
                   peer_change_percent := round change_percent 2;
                   peer_predicted_price := round predicted_price_inr 2;
                   peer_predicted_change := round predicted_change 2 |})
  end.

(** The loop of lines 146-221: the symbol itself is skipped, and a company
    whose body raised is skipped after the message is printed. *)
Fixpoint sector_loop (e : env) (symbol : string)
    (histories : string -> res (list historical_predictor.bar))
    (companies : list string) (w : world) : list peer * world :=
  match companies with
  | [] => ([], w)
  | company_symbol :: rest =>
      if String.eqb company_symbol symbol
      then sector_loop e symbol histories rest w
      else
        let (found, w1) :=
          try_except
            (quick_peer e company_symbol (histories company_symbol))
            (fun _ => None) w in
        let (sector_predictions, w2) :=
          sector_loop e symbol histories rest w1 in
        (match found with
         | Some p => p :: sector_predictions
         | None => sector_predictions
         end, w2)
  end.

(** [get_sector_analysis(sector, skip_predictions=True)]. *)
Definition get_sector_analysis (e : env) (symbol : string)
    (histories : string -> res (list historical_predictor.bar))
    (sector : string) : world -> list peer * world :=
  let companies := get (dict_get sector sector_companies) [] in
  sector_loop e symbol histories (firstn 2 companies).

End hybrid_predictor.

(** ** app.py: the exchange rate of the web layer and the user store *)
Module app.
Import currency_utils.

(** app.py has a rate cache and a source list of its own (lines 33-200). *)
Record sources : Type := {
  google_finance : reply;      (* scraped [data-last-price] *)
  yahoo_USDINR : reply;        (* Ticker("USDINR=X"), last close *)
  xe_com : reply;              (* rates['INR'] *)
  yahoo_INR : reply;           (* Ticker("INR=X"), last close *)
  exchangerate_api : reply;    (* rates['INR'] *)
  frankfurter : reply          (* rates['INR'] *)
}.

Definition fetch_live_exchange_rate (net : sources) : res Q :=
  let method6 :=
    match frankfurter net with
    | Quote rate =>
        if truthy rate && sanity_check rate then Ok rate else Ok fallback_rate
    | _ => Ok fallback_rate
    end in
  let method5 :=
    match exchangerate_api net with
    | Quote rate =>
        if truthy rate && sanity_check rate then Ok rate else method6
    | _ => method6
    end in
  let method4 :=
    match yahoo_INR net with
    | Quote close =>
        let rate := 1 / close in
        if sanity_check rate then Ok rate else method5
    | _ => method5
    end in
  let method3 :=
    match xe_com net with
    | Quote rate => if sanity_check rate then Ok rate else method4
    | _ => method4
    end in
  let method2 :=
    match yahoo_USDINR net with
    | Quote rate => if sanity_check rate then Ok rate else method3
    | _ => method3
    end in
  match google_finance net with
  | Quote rate => if sanity_check rate then Ok rate else method2
  | _ => method2
  end.

(** [rates] after the two attempts of lines 132-164. *)
Definition collected_rates (net : sources) : list Q :=
  (match google_finance net with
   | Quote rate => if sanity_check rate then [rate] else []
   | _ => []
   end)
  ++ (match yahoo_USDINR net with
      | Quote rate => if sanity_check rate then [rate] else []
      | _ => []
      end).

(** [net] is what the sources answer to the two attempts, [again] what
    they answer when [fetch_live_exchange_rate] asks afresh. *)
Definition get_most_accurate_exchange_rate (net again : sources) : res Q :=
  let rates := collected_rates net in
  if (2 <=? length rates)%nat then Ok (sum rates / len rates)
  else if (length rates =? 1)%nat then Ok (nth 0 rates 0)
  else fetch_live_exchange_rate again.

(** As in [models/currency_utils.py], but good for two hours. *)
Definition should_update (current_time : Q) (c : cache) : bool :=
  match USD_TO_INR_RATE c, LAST_RATE_UPDATE c with
  | None, _ => true
  | _, None => true
  | Some _, Some last => Qgtb (current_time - last) 7200
  end.

Definition get_usd_to_inr_rate (net again : sources) (current_time : Q)
    (c : cache) : option Q * cache :=
  if should_update current_time c then
    match get_most_accurate_exchange_rate net again with
    | Ok rate =>
        let c' := {| USD_TO_INR_RATE := Some rate;
                     LAST_RATE_UPDATE := Some current_time |} in
        (USD_TO_INR_RATE c', c')
    | Raise _ =>
        match USD_TO_INR_RATE c with
        | None =>
            let c' := {| USD_TO_INR_RATE := Some fallback_rate;
                         LAST_RATE_UPDATE := LAST_RATE_UPDATE c |} in
            (USD_TO_INR_RATE c', c')
        | Some _ => (USD_TO_INR_RATE c, c)
        end
    end
  else (USD_TO_INR_RATE c, c).

(** *** The user store *)

(** An entry of a user's ['portfolio'] (the ['date'] key is left out). *)
Record holding : Type := {
  symbol : string;
  quantity : Q;
  buy_price : Q
}.

(** An entry of [users.json] (['created_at'] is left out).  The two lists
    are read with [.get(key, [])]: [None] is an absent key. *)
Record user : Type := {
  email : string;
  password : string;
  name : string;
  watchlist : option (list string);
  portfolio : option (list holding)
}.

(** The two keys of the Flask session. *)
Record session : Type := {
  user_email : option string;
  user_name : option string
}.

(** What a view answers: [jsonify({'success': ..., 'message': ...})] or a
    redirect. *)
Inductive response : Type :=
| Json (success : bool) (message : string)
| Redirect (endpoint : string).

(** [not field] for a key read with [data.get(key)]: absent or empty. *)
Definition missing (field : option string) : bool :=
  match field with
  | None => true
  | Some s => String.eqb s EmptyString
  end.

(** [next((u for u in users if u['email'] == email), None)]. *)
Definition find_user (address : string) (users : list user) : option user :=
  find (fun u => String.eqb (email u) address) users.

(** [save_users(users)] after the dict that [next] found was changed in
    place: the first user with that address is the changed one. *)
Fixpoint save_user (address : string) (changed : user) (users : list user)
  : list user :=
  match users with
  | [] => []
  | u :: rest =>
      if String.eqb (email u) address then changed :: rest
      else u :: save_user address changed rest
  end.

(** [signup()] on POST (lines 283-313). *)
Definition signup (new_email new_password new_name : option string)
    (users : list user) (s : session) : response * list user * session :=
  if missing new_email || missing new_password || missing new_name
  then (Json false "All fields are required", users, s)
  else
    let address := get new_email EmptyString in
    if existsb (fun u => String.eqb (email u) address) users
    then (Json false "User already exists. Please login.", users, s)
    else
      (Json true "Signup successful",
       users ++ [{| email := address;
                    password := get new_password EmptyString;
                    name := get new_name EmptyString;
                    watchlist := Some [];
                    portfolio := Some [] |}],
       {| user_email := new_email; user_name := new_name |}).

(** [login()] on POST (lines 321-343). *)
Definition login (given_email given_password : option string)
    (users : list user) (s : session) : response * session :=
  if missing given_email || missing given_password
  then (Json false "Email and password are required", s)
  else
    match find_user (get given_email EmptyString) users with
    | None => (Json false "User not found. Please signup first.", s)
    | Some u =>
        if negb (String.eqb (password u) (get given_password EmptyString))
        then (Json false "Invalid password", s)
        else (Json true "Login successful",
              {| user_email := given_email; user_name := Some (name u) |})
    end.

(** [user['watchlist'] = ...] and [user['portfolio'] = ...]. *)
Definition with_watchlist (u : user) (entries : list string) : user :=
  {| email := email u;
     password := password u;
     name := name u;
     watchlist := Some entries;
     portfolio := portfolio u |}.

Definition with_portfolio (u : user) (entries : list holding) : user :=
  {| email := email u;
     password := password u;
     name := name u;
     watchlist := watchlist u;
     portfolio := Some entries |}.

(** [list.remove(x)] where [x in list] has been tested. *)
Fixpoint remove_first (x : string) (xs : list string) : list string :=
  match xs with
  | [] => []
  | y :: rest => if String.eqb y x then rest else y :: remove_first x rest
  end.

(** The head shared by [manage_watchlist] and [manage_portfolio]:
    [@login_required], then the lookup of the session's user. *)
Definition as_user (s : session) (users : list user)
    (view : string -> user -> response * list user)
  : response * list user :=
  match user_email s with
  | None => (Redirect "login", users)
  | Some address =>
      match find_user address users with
      | None => (Json false "User not found", users)
      | Some u => view address u
      end
  end.

(** [manage_watchlist()] on POST (lines 693-710); [given] is
    [data.get('symbol')]. *)
Definition watchlist_POST (s : session) (given : option string)
    (users : list user) : response * list user :=
  as_user s users (fun address u =>
    let symbol := upper (get given EmptyString) in
    if String.eqb symbol EmptyString
    then (Json false "Symbol is required", users)
    else
      let entries := get (watchlist u) [] in
      if existsb (String.eqb symbol) entries
      then (Json false "Stock already in watchlist", users)
      else (Json true "Added to watchlist",
            save_user address (with_watchlist u (entries ++ [symbol])) users)).

(** [manage_watchlist()] on DELETE (lines 712-722). *)
Definition watchlist_DELETE (s : session) (given : option string)
    (users : list user) : response * list user :=
  as_user s users (fun address u =>
    let symbol := upper (get given EmptyString) in
    let entries := get (watchlist u) [] in
    if existsb (String.eqb symbol) entries
    then (Json true "Removed from watchlist",
          save_user address (with_watchlist u (remove_first symbol entries))
                    users)
    else (Json false "Stock not in watchlist", users)).

(** [h['symbol'] != symbol]. *)
Definition other_than (wanted : string) (h : holding) : bool :=
  negb (String.eqb (symbol h) wanted).

(** [manage_portfolio()] on DELETE (lines 845-855). *)
Definition portfolio_DELETE (s : session) (given : option string)
    (users : list user) : response * list user :=
  as_user s users (fun address u =>
    let symbol := upper (get given EmptyString) in
    match portfolio u with
    | Some entries =>
        (Json true "Removed from portfolio",
         save_user address
                   (with_portfolio u (filter (other_than symbol) entries))
                   users)
    | None => (Json false "Stock not in portfolio", users)
    end).

End app.

(* ================================================================== *)
(** * Part II: vocabulary of the statements *)
(* ================================================================== *)

Import currency_utils.

(** A rate the module is willing to hand out. *)
Definition plausible (rate : Q) : Prop :=
  (70 < rate /\ rate < 100) \/ rate = fallback_rate.

(** The states the two globals can be in: as at import, or after any number
    of calls of [get_usd_to_inr_rate], whatever the sources answered and
    whatever the clock showed. *)
Inductive reachable : cache -> Prop :=
| reach_import : reachable at_import
| reach_call (net : sources) (current_time : Q) (c : cache) :
    reachable c -> reachable (snd (get_usd_to_inr_rate net current_time c)).

Definition cache_plausible (c : cache) : Prop :=
  forall rate, USD_TO_INR_RATE c = Some rate -> plausible rate.

(** ** Ensemble vocabulary *)

Import hybrid_predictor.

(** The weight pair before the empty-curve branches (lines 25-38). *)
Definition weight_pair (mae confidence : Q) : Q * Q :=
  let historical_accuracy := 1 / (1 + mae) in
  let sentiment_confidence := confidence / 100 in
  let total_weight := historical_accuracy + sentiment_confidence in
  if Qgtb total_weight 0
  then (historical_accuracy / total_weight,
        sentiment_confidence / total_weight)
  else (0.7, 0.3).

(** ** Monadic vocabulary *)

(** A computation that, when it returns at all, does not return the dict
    [{'success': False, ...}]. *)
Definition never_a_failure_dict {S A : Type} (m : M S (outcome A)) : Prop :=
  forall (s s' : S) (a : outcome A),
    m s = (Ok a, s') -> forall msg, a <> Failure msg.

(** A body that ends in an exception whichever way it gets there. *)
Definition certainly_raises {S A : Type} (m : M S A) : Prop :=
  forall s, exists x s', m s = (Raise x, s').

(** ** Feature and sentiment vocabulary *)

Import historical_predictor.
Import sentiment_analyzer.

(** The total weight of the indicators that voted [v]. *)
Definition weight_of (v : vote) (votes : list vote) (weights : list Q) : Q :=
  sum (map snd (filter (fun iw : vote * Q => vote_eqb (fst iw) v)
                       (combine votes weights))).

(** What a caller sees of a price conversion: the price itself for an
    Indian symbol, the price times some rate otherwise. *)
Definition converted (symbol : string) (rate price : Q) : Q :=
  if is_indian_stock symbol then price else price * rate.

(** The curve a caller is shown: the stored prices, converted, and rounded
    once more. *)
Definition shown_curve (symbol : string) (rate : Q) (stored : list Q)
  : list Q :=
  map (fun p => round p 2)
      (if is_indian_stock symbol then stored
       else map (fun p => p * rate) stored).

(** The curve the score drives (decay 0.04 a day). *)
Definition score_curve (current_price total_impact : Q) : list Q :=
  map (predicted_price current_price total_impact 0.04) days.

(** The curve the first loop of Path A writes (decay 0.03 a day). *)
Definition legacy_curve (current_price total_impact : Q) : list Q :=
  map (predicted_price current_price total_impact 0.03) days.

(** [current_price] is a plain Python zero: the quotient of lines 566-568
    raises. *)
Definition plain_zero_price (s : stats) : bool :=
  negb (numpy_price s) && Qeq_bool (current_price s) 0.

Section ArticlePolarities.

Variable TextBlob_polarity : string -> res Q.

(** The article polarities Path A works with, and their mean. *)
Definition polarities (news_articles : list article) : list Q :=
  map (fun a => analyze_text_sentiment TextBlob_polarity (title a))
      (firstn 20 news_articles).

Definition mean_polarity (news_articles : list article) : Q :=
  match polarities news_articles with
  | [] => 0
  | _ :: _ => sum (polarities news_articles) / len (polarities news_articles)
  end.

(** The curve Path A stores: the first loop's fourteen prices, then the
    score-driven fourteen appended to the same list. *)
Definition stored_curve_A (s : stats) (news_articles : list article)
    (p n : Q) : list Q :=
  legacy_curve (current_price s)
               (news_total_impact s (polarities news_articles)
                                  (mean_polarity news_articles))
  ++ score_curve (current_price s)
                 (total_impact_of (score_of p n) (weighted_performance_of s)).

End ArticlePolarities.

(** ** Concrete inputs for the examples *)

(** A square root to six decimals, for evaluating examples. *)
Definition sqrt_micro (q : Q) : Q :=
  inject_Z (Z.sqrt (Qfloor (q * 1000000000000))) / 1000000.

Definition usd_symbol : string := "AAPL".

Definition indian_symbol : string := "TCS.NS".

Definition quiet_sources : sources :=
  {| yahoo_USDINR := Quote 83.50;
     yahoo_INR := NoQuote;
     exchangerate_api := Unreachable;
     frankfurter := Unreachable |}.

Definition at_midnight : env := {| net := quiet_sources; now := 0 |}.

Definition fresh_world : world := {| lists := []; fx := at_import |}.

Definition flat_history (n : nat) (price volume : Q) : list bar :=
  repeat {| Close := price; Volume := volume |} n.

(** A history that sits at 10 and closes at 25. *)
Definition jump_history : list bar :=
  flat_history 24 10 1000 ++ [{| Close := 25; Volume := 1000 |}].

Definition no_network : res (window -> Q) := Raise ValueError.

Definition neutral_reader (text : string) : res Q := Ok 0.

Definition upbeat_reader (text : string) : res Q := Ok 0.5.

Definition quoted_at_100 : info_dict :=
  {| regularMarketPrice := Some 100; currentPrice := None |}.

Definition one_headline : list article := [{| title := "Results" |}].

(** Two articles, the fewest that [get_stock_news] hands over. *)
Definition two_headlines : list article :=
  [{| title := "Results" |}; {| title := "Outlook" |}].

Definition low_mae_history : historical_dict :=
  {| h_mae := Some 0.1234;
     h_predictions := Some [];
     h_current_price := Some 100 |}.

Definition calm_sentiment : sentiment_dict :=
  {| s_confidence := Some 100;
     s_predictions := Some [];
     s_sentiment_score := Some 50 |}.

Definition poor_history : historical_dict :=
  {| h_mae := Some 3;
     h_predictions := Some [];
     h_current_price := Some 100 |}.

Definition doubtful_sentiment : sentiment_dict :=
  {| s_confidence := Some 0;
     s_predictions := Some [];
     s_sentiment_score := Some 50 |}.

Definition two_day_history : historical_dict :=
  {| h_mae := Some 1;
     h_predictions := Some [100; 102; 104];
     h_current_price := Some 100 |}.

Definition two_day_sentiment : sentiment_dict :=
  {| s_confidence := Some 50;
     s_predictions := Some [110; 108];
     s_sentiment_score := Some 60 |}.

(** ** Vocabulary of the further properties *)

(** The rates on offer, in the order the sources are asked: a source that
    fails offers none, nor does one whose rate fails the sanity check. *)
Definition quoted (answer : reply) : list Q :=
  match answer with
  | Quote value => [value]
  | _ => []
  end.

Definition sane (rate : Q) : list Q :=
  if sanity_check rate then [rate] else [].

Definition offers (net : sources) : list Q :=
  flat_map sane
    (quoted (yahoo_USDINR net)
     ++ map (fun close => 1 / close) (quoted (yahoo_INR net))
     ++ quoted (exchangerate_api net)
     ++ quoted (frankfurter net)).

(** A user's watchlist and portfolio as the views read them. *)
Definition watchlist_of (u : app.user) : list string :=
  get (app.watchlist u) [].

Definition portfolio_of (u : app.user) : list app.holding :=
  get (app.portfolio u) [].

(** What the views can tell about a user: an absent list reads as an empty
    one. *)
Definition as_read (u : app.user)
  : string * string * string * list string * list app.holding :=
  (app.email u, app.password u, app.name u, watchlist_of u, portfolio_of u).

Definition titled (a : article) : Prop := title a <> EmptyString.

(** ** Concrete inputs for the further properties *)

Definition hour_old_cache : cache :=
  {| USD_TO_INR_RATE := Some 84.25; LAST_RATE_UPDATE := Some 0 |}.

Definition one_list_world : world :=
  {| lists := [[100; 101]]; fx := at_import |}.


Definition two_rows : list (list Q) := [[100; 5]; [110; 5]; [104; 8]].

Definition unreadable (text : string) : res Q := Raise ValueError.


Definition sample_forecast : forecast :=
  {| historical_prices := [99; 100];
     historical_predictor.predictions := [101; 103];
     mae := 1;
     rmse := 1;
     r2_score := 0.5;
     historical_predictor.confidence := 99;
     historical_predictor.current_price := 100;
     model_type := "standard" |}.

Definition sample_sentiment : sentiment :=
  {| overall_sentiment := "Neutral";
     sentiment_score := 50;
     polarity := 0;
     positive_count := 0;
     negative_count := 0;
     neutral_count := 5;
     total_indicators := 5;
     total_articles := None;
     confidence := 50;
     result_current_price := 100;
     predicted_change_percent := 0;
     predictions := [99; 98; 97];
     performance_1w := 0;
     performance_1m := 0;
     performance_3m := 0;
     result_volatility := 1;
     sentiment_indicators := [neutral; neutral; neutral; neutral; neutral] |}.

Definition three_day_histories (company_symbol : string) : res (list bar) :=
  Ok [{| Close := 100; Volume := 10 |}; {| Close := 102; Volume := 10 |};
      {| Close := 110; Volume := 10 |}].

Definition two_quotes : app.sources :=
  {| app.google_finance := Quote 84;
     app.yahoo_USDINR := Quote 83;
     app.xe_com := Unreachable;
     app.yahoo_INR := Unreachable;
     app.exchangerate_api := Unreachable;
     app.frankfurter := Unreachable |}.

Definition asha : app.user :=
  {| app.email := "asha@example.com";
     app.password := "secret";
     app.name := "Asha";
     app.watchlist := Some ["TCS.NS"%string];
     app.portfolio := None |}.

Definition asha_logged_in : app.session :=
  {| app.user_email := Some "asha@example.com"%string;
     app.user_name := Some "Asha"%string |}.

Definition nobody : app.session :=
  {| app.user_email := None; app.user_name := None |}.

Definition asha_with_holdings : app.user :=
  app.with_portfolio
    asha
    [{| app.symbol := "TCS.NS"; app.quantity := 2; app.buy_price := 3500 |};
     {| app.symbol := "AAPL"; app.quantity := 1; app.buy_price := 15000 |};
     {| app.symbol := "TCS.NS"; app.quantity := 5; app.buy_price := 3600 |}].

Definition one_rss_headline : news_feeds :=
  {| yfinance_news := Raise ConnectionError;
     google_rss := Ok (Some [Ok (Some "  Results beat estimates "%string)]);
     yahoo_page := Ok (Some [Ok (Some "Shares rise"%string); Ok None]) |}.

(* ================================================================== *)
(** * Part III: proofs *)
(* ================================================================== *)

(** ** Comparisons and rounding *)

Lemma Qltb_true (x y : Q) : Qltb x y = true <-> x < y.
Proof.
  unfold Qltb. rewrite negb_true_iff.
  split; intro H.
  - apply Qnot_le_lt. intro L. apply Qle_bool_iff in L. congruence.
  - destruct (Qle_bool y x) eqn:E; [|reflexivity].
    apply Qle_bool_iff in E. exfalso. exact (Qlt_not_le _ _ H E).
Qed.

Lemma Qltb_false (x y : Q) : Qltb x y = false <-> y <= x.
Proof.
  unfold Qltb. rewrite negb_false_iff. apply Qle_bool_iff.
Qed.

Lemma Qgtb_true (x y : Q) : Qgtb x y = true <-> y < x.
Proof. apply Qltb_true. Qed.

Lemma Qgtb_false (x y : Q) : Qgtb x y = false <-> x <= y.
Proof. apply Qltb_false. Qed.

(** Case analysis on a comparison of the source, leaving the order fact. *)
Ltac by_cases_on_test t :=
  let E := fresh "E" in
  destruct t eqn:E;
  [ first [ apply Qltb_true in E | apply Qgtb_true in E ]
  | first [ apply Qltb_false in E | apply Qgtb_false in E ] ].

(** ** currency_utils: the cached rate *)

Lemma sanity_check_band (rate : Q) :
  sanity_check rate = true -> 70 < rate /\ rate < 100.
Proof.
  unfold sanity_check. intro H. apply andb_true_iff in H.
  destruct H as [H1 H2].
  apply Qgtb_true in H1. apply Qltb_true in H2. split; assumption.
Qed.

Lemma fallback_plausible : plausible fallback_rate.
Proof. right. reflexivity. Qed.

Lemma fetch_never_raises_and_is_plausible (net : sources) :
  exists rate, fetch_live_exchange_rate net = Ok rate /\ plausible rate.
Proof.
  unfold fetch_live_exchange_rate.
  repeat match goal with
         | |- context [match ?x with _ => _ end] => destruct x eqn:?
         end;
    eexists; (split; [reflexivity|]);
    match goal with
    | H : _ && sanity_check ?r = true |- plausible ?r =>
        apply andb_true_iff in H; destruct H as [_ H];
        left; apply sanity_check_band, H
    | H : sanity_check ?r = true |- plausible ?r =>
        left; apply sanity_check_band, H
    | |- _ => apply fallback_plausible
    end.
Qed.

Lemma plausible_positive (rate : Q) : plausible rate -> 0 < rate.
Proof.
  intros [[H _] | H].
  - apply Qlt_trans with 70; [reflexivity | exact H].
  - subst. reflexivity.
Qed.

(** One call keeps the cache plausible and answers with the cached rate. *)
Lemma get_rate_step (net : sources) (current_time : Q) (c : cache) :
  cache_plausible c ->
  exists rate,
    fst (get_usd_to_inr_rate net current_time c) = Some rate
    /\ USD_TO_INR_RATE (snd (get_usd_to_inr_rate net current_time c))
       = Some rate
    /\ plausible rate.
Proof.
  intro Hc. unfold get_usd_to_inr_rate.
  destruct (should_update current_time c) eqn:U.
  - destruct (fetch_never_raises_and_is_plausible net) as [rate [F P]].
    rewrite F. exists rate. simpl. auto.
  - unfold should_update in U.
    destruct (USD_TO_INR_RATE c) as [rate|] eqn:R; [|discriminate].
    exists rate. simpl. rewrite R. auto.
Qed.

Lemma reachable_plausible (c : cache) : reachable c -> cache_plausible c.
Proof.
  induction 1 as [|net t c _ IH].
  - intros rate H. discriminate.
  - intros rate H.
    destruct (get_rate_step net t c IH) as [r [_ [S P]]].
    rewrite S in H. injection H as <-. exact P.
Qed.

Lemma times_rate_each_some (prices : list Q) (rate : Q) :
  times_rate_each prices (Some rate) = Ok (map (fun p => p * rate) prices).
Proof.
  induction prices as [|p rest IH]; simpl.
  - reflexivity.
  - rewrite IH. reflexivity.
Qed.

(** The rate a conversion multiplies by, read off one call. *)
Lemma usd_to_inr_step (e : env) (w : world) :
  reachable (fx w) ->
  exists rate,
    usd_to_inr e w
    = (Ok (Some rate),
       {| lists := lists w;
          fx := snd (get_usd_to_inr_rate (net e) (now e) (fx w)) |})
    /\ USD_TO_INR_RATE (snd (get_usd_to_inr_rate (net e) (now e) (fx w)))
       = Some rate
    /\ plausible rate.
Proof.
  intro R.
  destruct (get_rate_step (net e) (now e) (fx w) (reachable_plausible _ R))
    as [rate [F [S P]]].
  exists rate. unfold usd_to_inr.
  destruct (get_usd_to_inr_rate (net e) (now e) (fx w)) as [r c'].
  simpl in *. subst r. auto.
Qed.

(** C10.  In every state the two globals can reach, a cached rate is
    strictly between 70 and 100 or is the fallback 83; and whenever a price
    (or a list of prices) of a symbol without an Indian suffix is converted,
    the conversion does not fail on a missing rate, multiplies by a rate
    that is cached, plausible in that sense and positive, and leaves the
    globals in a reachable state. *)
Theorem applied_exchange_rate_is_plausible :
  forall (w : world) (e : env) (symbol : string),
    reachable (fx w) ->
    is_indian_stock symbol = false ->
    cache_plausible (fx w)
    /\ (forall price : Q,
          exists rate w',
            convert_price_to_inr e price symbol w = (Ok (price * rate), w')
            /\ USD_TO_INR_RATE (fx w') = Some rate
            /\ plausible rate /\ 0 < rate /\ reachable (fx w'))
    /\ (forall prices : ref,
          exists rate r' w',
            convert_prices_array_to_inr e prices symbol w = (Ok r', w')
            /\ deref r' (lists w')
               = map (fun p => p * rate) (deref prices (lists w))
            /\ USD_TO_INR_RATE (fx w') = Some rate
            /\ plausible rate /\ 0 < rate /\ reachable (fx w')).
Proof.
  intros w e symbol R Hsym. split; [apply reachable_plausible, R|].
  destruct (usd_to_inr_step e w R) as [rate [U [S P]]].
  assert (R' : reachable (snd (get_usd_to_inr_rate (net e) (now e) (fx w))))
    by (constructor; exact R).
  split.
  - intro price. exists rate. eexists.
    unfold convert_price_to_inr. rewrite Hsym.
    unfold bind. rewrite U. simpl.
    split; [reflexivity|]. simpl.
    repeat split; auto using plausible_positive.
  - intro prices. exists rate.
    unfold convert_prices_array_to_inr. rewrite Hsym.
    unfold bind. rewrite U. simpl.
    rewrite times_rate_each_some. simpl.
    eexists. eexists. split; [reflexivity|]. simpl.
    split.
    + unfold deref at 1. rewrite app_nth2 by lia.
      rewrite Nat.sub_diag. reflexivity.
    + repeat split; auto using plausible_positive.
Qed.

(** The statement above at the first conversion of an AAPL price after
    import. *)
Lemma applied_exchange_rate_witness :
  cache_plausible (fx fresh_world)
  /\ (forall price : Q,
        exists rate w',
          convert_price_to_inr at_midnight price usd_symbol fresh_world
          = (Ok (price * rate), w')
          /\ USD_TO_INR_RATE (fx w') = Some rate
          /\ plausible rate /\ 0 < rate /\ reachable (fx w'))
  /\ (forall prices : ref,
        exists rate r' w',
          convert_prices_array_to_inr at_midnight prices usd_symbol fresh_world
          = (Ok r', w')
          /\ deref r' (lists w')
             = map (fun p => p * rate) (deref prices (lists fresh_world))
          /\ USD_TO_INR_RATE (fx w') = Some rate
          /\ plausible rate /\ 0 < rate /\ reachable (fx w')).
Proof.
  apply (applied_exchange_rate_is_plausible fresh_world at_midnight usd_symbol).
  - simpl. apply reach_import.
  - reflexivity.
Defined.

Example aapl_is_converted_at_the_live_rate :
  is_indian_stock usd_symbol = false
  /\ fst (convert_price_to_inr at_midnight 200 usd_symbol fresh_world)
     = Ok (200 * 83.50).
Proof. split; reflexivity. Qed.

Example indian_suffixes_are_recognised :
  is_indian_stock "tcs.ns" = true /\ is_indian_stock "RELIANCE.BO" = true
  /\ is_indian_stock "NS" = false /\ is_indian_stock "MSFT" = false.
Proof. repeat split; reflexivity. Qed.

(** ** Rounding stays between integer bounds *)

(** Replaces the inverse of a numeral by its value, so that linear
    arithmetic sees a product. *)
Ltac divide_by_numerals :=
  unfold Qdiv in *;
  repeat match goal with
         | |- context [/ (?n # ?d)] =>
             let v := eval compute in (/ (n # d)) in
             change (/ (n # d)) with v
         | H : context [/ (?n # ?d)] |- _ =>
             let v := eval compute in (/ (n # d)) in
             change (/ (n # d)) with v in H
         end.

Lemma inject_Z_lt_inv (a b : Z) : inject_Z a < inject_Z b -> (a < b)%Z.
Proof. rewrite <- Zlt_Qlt. trivial. Qed.

Lemma round_half_even_ge (x : Q) (a : Z) :
  inject_Z a <= x -> (a <= round_half_even x)%Z.
Proof.
  intro H. apply Qfloor_resp_le in H. rewrite Qfloor_Z in H.
  unfold round_half_even.
  destruct (Qcompare _ _); try destruct (Z.even _); lia.
Qed.

Lemma round_half_even_le (x : Q) (b : Z) :
  x <= inject_Z b -> (round_half_even x <= b)%Z.
Proof.
  intro H.
  assert (F : (Qfloor x <= b)%Z).
  { apply Qfloor_resp_le in H. rewrite Qfloor_Z in H. exact H. }
  assert (Up : inject_Z (Qfloor x) < x -> (Qfloor x + 1 <= b)%Z).
  { intro L. assert (inject_Z (Qfloor x) < inject_Z b) by lra.
    apply inject_Z_lt_inv in H0. lia. }
  unfold round_half_even.
  destruct (Qcompare (x - inject_Z (Qfloor x)) (1 # 2)) eqn:C.
  - apply Qeq_alt in C. destruct (Z.even _); [exact F|].
    apply Up. lra.
  - exact F.
  - apply Qgt_alt in C. apply Up. lra.
Qed.

Lemma pow10_positive (n : nat) : 0 < pow10 n.
Proof.
  unfold pow10. change 0 with (inject_Z 0). rewrite <- Zlt_Qlt.
  apply Z.pow_pos_nonneg; lia.
Qed.

Lemma round_between (q : Q) (ndigits : nat) (lo hi : Z) :
  inject_Z lo <= q -> q <= inject_Z hi ->
  inject_Z lo <= round q ndigits /\ round q ndigits <= inject_Z hi.
Proof.
  intros L H. unfold round.
  pose proof (pow10_positive ndigits) as P.
  assert (L' : inject_Z (lo * 10 ^ Z.of_nat ndigits) <= q * pow10 ndigits).
  { rewrite inject_Z_mult. fold (pow10 ndigits). nra. }
  assert (H' : q * pow10 ndigits <= inject_Z (hi * 10 ^ Z.of_nat ndigits)).
  { rewrite inject_Z_mult. fold (pow10 ndigits). nra. }
  apply round_half_even_ge in L'. apply round_half_even_le in H'.
  rewrite Zle_Qle in L', H'. rewrite inject_Z_mult in L', H'.
  fold (pow10 ndigits) in L', H'.
  split.
  - apply Qle_shift_div_l; assumption.
  - apply Qle_shift_div_r; assumption.
Qed.

Lemma round_half_even_comp (x y : Q) :
  x == y -> round_half_even x = round_half_even y.
Proof.
  intro E. unfold round_half_even.
  rewrite (Qfloor_comp x y E).
  assert (C : Qcompare (x - inject_Z (Qfloor y)) (1 # 2)
              = Qcompare (y - inject_Z (Qfloor y)) (1 # 2))
    by (apply Qcompare_comp; [rewrite E|]; reflexivity).
  rewrite C. reflexivity.
Qed.

(** [round] does not see how a number is written as a fraction. *)
Lemma round_comp (x y : Q) (ndigits : nat) :
  x == y -> round x ndigits = round y ndigits.
Proof.
  intro E. unfold round.
  rewrite (round_half_even_comp (x * pow10 ndigits) (y * pow10 ndigits)).
  - reflexivity.
  - rewrite E. reflexivity.
Qed.

Lemma nth_map_seq {A : Type} (f : nat -> A) (n i : nat) (d : A) :
  (i < n)%nat -> nth i (map f (seq 0 n)) d = f i.
Proof.
  intro H.
  rewrite (nth_indep _ d (f 0%nat))
    by (rewrite length_map, length_seq; exact H).
  rewrite map_nth. rewrite seq_nth by exact H. reflexivity.
Qed.

(** ** hybrid_predictor: risk score and recommendation *)

Import hybrid_predictor.

Lemma risk_band_projections (h : historical_dict) (s : sentiment_dict)
    (pcp : Q) :
  let r := calculate_risk_score h s pcp in
  (risk_level r, recommendation r, risk_color r)
  = risk_band (total_risk_of (risk_factors_of h s pcp)).
Proof.
  unfold calculate_risk_score.
  destruct (risk_band _) as [[level advice] color]. reflexivity.
Qed.

Lemma risk_score_projection (h : historical_dict) (s : sentiment_dict)
    (pcp : Q) :
  risk_score (calculate_risk_score h s pcp)
  = round (total_risk_of (risk_factors_of h s pcp)) 2.
Proof.
  unfold calculate_risk_score.
  destruct (risk_band _) as [[level advice] color]. reflexivity.
Qed.

Lemma Qmin_capped (x cap : Q) :
  0 <= x -> 0 <= cap -> 0 <= Qmin x cap /\ Qmin x cap <= cap.
Proof.
  intros Hx Hc.
  destruct (Q.min_spec x cap) as [[L E] | [L E]]; rewrite E; split; lra.
Qed.

(** C3, as the code has it.  For a historical result with MAE >= 0 and a
    sentiment result with score and confidence in [0, 100],
    [calculate_risk_score] adds up four factors: min(MAE * 10, 30),
    |50 - sentiment_score| / 2 (at most 25), min(|percent_change| * 2, 25)
    and (100 - confidence) / 5 (at most 20).  Each is nonnegative and
    capped, their sum lies in [0, 100], and the returned [risk_score] is
    that sum rounded to two decimals, again within [0, 100]. *)
Theorem risk_score_is_rounded_sum_of_capped_factors :
  forall (h : historical_dict) (s : sentiment_dict) (percent_change : Q),
    let mae := get (h_mae h) 0 in
    let sentiment_score := get (s_sentiment_score s) 50 in
    let confidence := get (s_confidence s) 50 in
    0 <= mae ->
    0 <= sentiment_score <= 100 ->
    0 <= confidence <= 100 ->
    let mae_risk := Qmin (mae * 10) 30 in
    let sentiment_risk := Qabs (50 - sentiment_score) / 2 in
    let volatility_risk := Qmin (Qabs percent_change * 2) 25 in
    let confidence_risk := (100 - confidence) / 5 in
    let total :=
      mae_risk + sentiment_risk + volatility_risk + confidence_risk in
    let r := calculate_risk_score h s percent_change in
    risk_factors_of h s percent_change
    = [("Model Accuracy Risk"%string, mae_risk);
       ("Sentiment Volatility"%string, sentiment_risk);
       ("Price Volatility"%string, volatility_risk);
       ("Market Uncertainty"%string, confidence_risk)]
    /\ risk_score r = round total 2
    /\ 0 <= mae_risk <= 30
    /\ 0 <= sentiment_risk <= 25
    /\ 0 <= volatility_risk <= 25
    /\ 0 <= confidence_risk <= 20
    /\ 0 <= total <= 100
    /\ 0 <= risk_score r <= 100.
Proof.
  intros h s pc mae score conf Hmae [Hs0 Hs1] [Hc0 Hc1]
         mae_risk sentiment_risk volatility_risk confidence_risk total r.
  assert (B1 : 0 <= mae_risk <= 30)
    by (apply Qmin_capped; lra).
  assert (B2 : 0 <= sentiment_risk <= 25).
  { unfold sentiment_risk. pose proof (Qabs_nonneg (50 - score)) as N.
    assert (U : Qabs (50 - score) <= 50) by (apply Qabs_Qle_condition; lra).
    divide_by_numerals. lra. }
  assert (B3 : 0 <= volatility_risk <= 25).
  { apply Qmin_capped; [|lra]. pose proof (Qabs_nonneg pc). lra. }
  assert (B4 : 0 <= confidence_risk <= 20)
    by (unfold confidence_risk; divide_by_numerals; lra).
  assert (T : 0 <= total <= 100) by (unfold total; lra).
  assert (S : risk_score r = round total 2).
  { unfold r. rewrite risk_score_projection. apply round_comp.
    unfold total_risk_of, risk_factors_of, sum.
    cbn [map snd fold_left].
    unfold total, mae_risk, sentiment_risk, volatility_risk, confidence_risk,
      mae, score, conf.
    divide_by_numerals. lra. }
  split; [reflexivity|].
  split; [exact S|].
  repeat (split; [assumption|]).
  rewrite S.
  apply (round_between total 2 0 100); [apply T | apply T].
Qed.

(** Closed order facts between numerals. *)
Ltac numerals :=
  vm_compute;
  repeat match goal with |- _ /\ _ => split end;
  first [ reflexivity | discriminate | intro; discriminate ].

(** The statement above for MAE 0.1234, score 50, confidence 100 and no
    price change. *)
Lemma risk_score_rounded_sum_witness :
  let r := calculate_risk_score low_mae_history calm_sentiment 0 in
  risk_score r
  = round (Qmin (0.1234 * 10) 30 + Qabs (50 - 50) / 2
           + Qmin (Qabs 0 * 2) 25 + (100 - 100) / 5) 2
  /\ 0 <= risk_score r <= 100.
Proof.
  pose proof (risk_score_is_rounded_sum_of_capped_factors
                low_mae_history calm_sentiment 0
                ltac:(numerals) ltac:(numerals) ltac:(numerals)) as H.
  cbv zeta in H.
  destruct H as (_ & S & _ & _ & _ & _ & _ & B).
  split; [exact S | exact B].
Defined.

(** C3 as stated fails: with MAE 0.1234 (score 50, confidence 100, no price
    change) the four factors add up to 1.234, and the returned risk_score
    is 1.23. *)
Lemma risk_score_is_not_the_raw_sum :
  let r := calculate_risk_score low_mae_history calm_sentiment 0 in
  let factors := risk_factors_of low_mae_history calm_sentiment 0 in
  (0 <= get (h_mae low_mae_history) 0
   /\ 0 <= get (s_sentiment_score calm_sentiment) 50 <= 100
   /\ 0 <= get (s_confidence calm_sentiment) 50 <= 100)
  /\ total_risk_of factors == 1.234
  /\ risk_score r == 1.23
  /\ ~ risk_score r == total_risk_of factors.
Proof. numerals. Qed.

(** C4.  Level, recommendation and color are read off the total risk alone
    ([risk_band]), by the bands below 25, 40, 55, 70 and from 70 on; in
    particular totals 10, 30, 50, 65 and 80 give Strong Buy, Buy, Hold, Sell
    and Strong Sell, each with its color. *)
Theorem recommendation_is_a_step_function_of_total_risk :
  forall (h : historical_dict) (s : sentiment_dict) (percent_change : Q),
    let total := total_risk_of (risk_factors_of h s percent_change) in
    let r := calculate_risk_score h s percent_change in
    (risk_level r, recommendation r, risk_color r) = risk_band total
    /\ (total < 25 ->
        risk_band total = ("Low Risk", "Strong Buy", "#10b981")%string)
    /\ (25 <= total -> total < 40 ->
        risk_band total = ("Low-Medium Risk", "Buy", "#22c55e")%string)
    /\ (40 <= total -> total < 55 ->
        risk_band total = ("Medium Risk", "Hold", "#f59e0b")%string)
    /\ (55 <= total -> total < 70 ->
        risk_band total = ("Medium-High Risk", "Sell", "#f97316")%string)
    /\ (70 <= total ->
        risk_band total = ("High Risk", "Strong Sell", "#ef4444")%string)
    /\ risk_band 10 = ("Low Risk", "Strong Buy", "#10b981")%string
    /\ risk_band 30 = ("Low-Medium Risk", "Buy", "#22c55e")%string
    /\ risk_band 50 = ("Medium Risk", "Hold", "#f59e0b")%string
    /\ risk_band 65 = ("Medium-High Risk", "Sell", "#f97316")%string
    /\ risk_band 80 = ("High Risk", "Strong Sell", "#ef4444")%string.
Proof.
  intros h s pc total r.
  split; [apply risk_band_projections|].
  unfold risk_band.
  repeat split; try reflexivity; intros;
    repeat match goal with
           | |- context [Qltb ?a ?b] => by_cases_on_test (Qltb a b)
           end;
    solve [reflexivity | exfalso; lra].
Qed.

(** A result whose factors add up to 30 + 0 + 0 + 20 = 50 is a Hold. *)
Lemma recommendation_step_witness :
  total_risk_of (risk_factors_of poor_history doubtful_sentiment 0) == 50
  /\ recommendation (calculate_risk_score poor_history doubtful_sentiment 0)
     = "Hold"%string.
Proof.
  split; [numerals|].
  pose proof (recommendation_is_a_step_function_of_total_risk
                poor_history doubtful_sentiment 0) as H.
  cbv zeta in H.
  destruct H as (P & _ & _ & Hold & _).
  rewrite Hold in P by numerals.
  exact (f_equal (fun t : string * string * string => snd (fst t)) P).
Defined.

(** ** hybrid_predictor: the combined curve and its weights *)

Lemma reciprocal_defined (x : Q) : ~ x == 0 -> reciprocal x = Ok (1 / x).
Proof.
  intro H. unfold reciprocal.
  destruct (Qeq_bool x 0) eqn:E; [|reflexivity].
  apply Qeq_bool_iff in E. contradiction.
Qed.

Lemma normalized_pair_sums_to_one (a c : Q) :
  0 < a + c -> a / (a + c) + c / (a + c) == 1.
Proof. intro H. field. lra. Qed.

Lemma weight_pair_sums_to_one (mae confidence : Q) :
  fst (weight_pair mae confidence) + snd (weight_pair mae confidence) == 1.
Proof.
  unfold weight_pair.
  by_cases_on_test (Qgtb (1 / (1 + mae) + confidence / 100) 0); simpl.
  - apply normalized_pair_sums_to_one. exact E.
  - reflexivity.
Qed.

(** [combine_predictions], read branch by branch. *)
Lemma combine_predictions_unfolded (h : historical_dict) (s : sentiment_dict) :
  ~ 1 + get (h_mae h) 1 == 0 ->
  let A := get (h_predictions h) [] in
  let B := get (s_predictions s) [] in
  let hw := fst (weight_pair (get (h_mae h) 1) (get (s_confidence s) 50)) in
  let sw := snd (weight_pair (get (h_mae h) 1) (get (s_confidence s) 50)) in
  combine_predictions h s
  = Ok (match A, B with
        | [], [] => ([], hw, sw)
        | [], _ :: _ => (B, 0, 1)
        | _ :: _, [] => (A, 1, 0)
        | _ :: _, _ :: _ =>
            (map (fun i => round (nth i A 0 * hw + nth i B 0 * sw) 2)
                 (seq 0 (Nat.min (length A) (length B))), hw, sw)
        end).
Proof.
  intros H A B hw sw. unfold combine_predictions.
  rewrite (reciprocal_defined _ H).
  fold A B. unfold hw, sw, weight_pair.
  destruct (Qgtb (1 / (1 + get (h_mae h) 1) + get (s_confidence s) 50 / 100) 0);
    destruct A, B; reflexivity.
Qed.

(** C5.  Unless MAE is -1 (where the weight computation divides by zero),
    [combine_predictions] returns a curve: when both input curves are
    non-empty it has the length of the shorter one and its element i is
    round(A[i] * historical_weight + B[i] * sentiment_weight, 2) for the
    returned weights; when one input is empty it is the other input,
    element for element. *)
Theorem combined_curve_is_weighted_average_over_common_length :
  forall (h : historical_dict) (s : sentiment_dict),
    let A := get (h_predictions h) [] in
    let B := get (s_predictions s) [] in
    ~ 1 + get (h_mae h) 1 == 0 ->
    exists (combined : list Q) (historical_weight sentiment_weight : Q),
      combine_predictions h s
      = Ok (combined, historical_weight, sentiment_weight)
      /\ (A <> [] -> B <> [] ->
          length combined = Nat.min (length A) (length B)
          /\ forall i : nat,
               (i < Nat.min (length A) (length B))%nat ->
               nth i combined 0
               = round (nth i A 0 * historical_weight
                        + nth i B 0 * sentiment_weight) 2)
      /\ (A = [] -> combined = B)
      /\ (B = [] -> combined = A).
Proof.
  intros h s A B H.
  rewrite (combine_predictions_unfolded h s H). cbv zeta. fold A B.
  destruct A as [|a A'], B as [|b B'];
    do 3 eexists; (split; [reflexivity|]);
    (split; [intros HA HB; try congruence |]);
    try (split; intro; congruence).
  split.
  - rewrite length_map, length_seq. reflexivity.
  - intros i Hi. rewrite nth_map_seq by exact Hi. reflexivity.
Qed.

(** Curves of three and two days combine into two days; the second day is
    the rounded weighted average of 102 and 108. *)
Lemma combined_curve_witness :
  exists (combined : list Q) (historical_weight sentiment_weight : Q),
    combine_predictions two_day_history two_day_sentiment
    = Ok (combined, historical_weight, sentiment_weight)
    /\ length combined = 2%nat
    /\ nth 1 combined 0
       = round (102 * historical_weight + 108 * sentiment_weight) 2.
Proof.
  destruct (combined_curve_is_weighted_average_over_common_length
              two_day_history two_day_sentiment ltac:(numerals))
    as (c & hw & sw & E & Both & _).
  destruct (Both ltac:(discriminate) ltac:(discriminate)) as [L N].
  exists c, hw, sw.
  split; [exact E|].
  split; [exact L|].
  exact (N 1%nat ltac:(simpl; lia)).
Defined.

Example two_day_combination_evaluates :
  match combine_predictions two_day_history two_day_sentiment with
  | Ok (combined, historical_weight, sentiment_weight) =>
      Forall2 Qeq combined [105; 105]
      /\ historical_weight == 0.5 /\ sentiment_weight == 0.5
  | Raise _ => False
  end.
Proof. vm_compute. repeat constructor. Qed.

Lemma historical_accuracy_positive (mae : Q) : 0 <= mae -> 0 < 1 / (1 + mae).
Proof.
  intro H. unfold Qdiv. rewrite Qmult_1_l. apply Qinv_lt_0_compat. lra.
Qed.

(** Whatever the inputs, a returned weight pair sums to 1: the normalised
    pair, the default (0.7, 0.3) and the two full-weight pairs alike. *)
Lemma returned_weights_sum_to_one (h : historical_dict) (s : sentiment_dict)
    (combined : list Q) (hw sw : Q) :
  combine_predictions h s = Ok (combined, hw, sw) -> hw + sw == 1.
Proof.
  intro E.
  assert (D : ~ 1 + get (h_mae h) 1 == 0).
  { intro Z. unfold combine_predictions, reciprocal in E.
    apply Qeq_bool_iff in Z. rewrite Z in E. discriminate. }
  rewrite (combine_predictions_unfolded h s D) in E. cbv zeta in E.
  pose proof (weight_pair_sums_to_one (get (h_mae h) 1)
                                      (get (s_confidence s) 50)) as W.
  destruct (get (h_predictions h) []), (get (s_predictions s) []);
    injection E as <- <- <-; first [exact W | reflexivity].
Qed.

Lemma within_tolerance (u v : Q) :
  u + v == 1 -> Qabs (u + v - 1) <= 1 # 1000000000.
Proof. intro U. rewrite U. vm_compute. discriminate. Qed.

(** C6.  Every weight pair [combine_predictions] returns sums to 1, hence
    lies within 1e-9 of it: the normalised pair, the default (0.7, 0.3) and
    the two full-weight pairs alike.  For MAE >= 0 and confidence in
    [0, 100] it does return a pair: with a = 1 / (1 + MAE) and
    c = confidence / 100 the basis a + c is positive (so the default is not
    taken), the pair is (a / (a + c), c / (a + c)) when both curves are
    present (or both absent), and (0, 1) or (1, 0) when only the sentiment
    or only the historical curve is present. *)
Theorem ensemble_weights_sum_to_one :
  forall (h : historical_dict) (s : sentiment_dict),
    let mae := get (h_mae h) 1 in
    let confidence := get (s_confidence s) 50 in
    let A := get (h_predictions h) [] in
    let B := get (s_predictions s) [] in
    let a := 1 / (1 + mae) in
    let c := confidence / 100 in
    (forall (combined : list Q) (historical_weight sentiment_weight : Q),
       combine_predictions h s
       = Ok (combined, historical_weight, sentiment_weight) ->
       historical_weight + sentiment_weight == 1
       /\ Qabs (historical_weight + sentiment_weight - 1) <= 1 # 1000000000)
    /\ (0 <= mae ->
        0 <= confidence <= 100 ->
        exists (combined : list Q) (historical_weight sentiment_weight : Q),
          combine_predictions h s
          = Ok (combined, historical_weight, sentiment_weight)
          /\ 0 < a + c
          /\ ((A <> [] /\ B <> []) \/ (A = [] /\ B = []) ->
              historical_weight = a / (a + c)
              /\ sentiment_weight = c / (a + c))
          /\ (A = [] -> B <> [] ->
              historical_weight = 0 /\ sentiment_weight = 1)
          /\ (A <> [] -> B = [] ->
              historical_weight = 1 /\ sentiment_weight = 0)).
Proof.
  intros h s mae confidence A B a c. split.
  - intros combined hw sw E.
    pose proof (returned_weights_sum_to_one h s combined hw sw E) as U.
    split; [exact U | apply within_tolerance, U].
  - intros Hmae [Hc0 Hc1].
    assert (D : ~ 1 + mae == 0) by (intro Z; lra).
    assert (Pa : 0 < a) by (apply historical_accuracy_positive; exact Hmae).
    assert (Pc : 0 <= c) by (unfold c; divide_by_numerals; lra).
    assert (T : 0 < a + c) by lra.
    pose proof (combine_predictions_unfolded h s D) as E. cbv zeta in E.
    fold mae confidence A B in E.
    assert (W : weight_pair mae confidence = (a / (a + c), c / (a + c))).
    { unfold weight_pair. fold a c.
      apply Qgtb_true in T. rewrite T. reflexivity. }
    rewrite W in E. simpl fst in E. simpl snd in E.
    destruct A as [|x A'], B as [|y B'];
      do 3 eexists; (split; [exact E|]); (split; [exact T|]);
      (split;
       [intros [[HA HB] | [HA HB]]; try congruence; split; reflexivity|]);
      (split; intros HA HB; try congruence; split; reflexivity).
Qed.

(** MAE 1 and confidence 50 give a = c = 1/2 and equal weights. *)
Lemma ensemble_weights_witness :
  exists (combined : list Q) (historical_weight sentiment_weight : Q),
    combine_predictions two_day_history two_day_sentiment
    = Ok (combined, historical_weight, sentiment_weight)
    /\ historical_weight + sentiment_weight == 1
    /\ historical_weight = (1 / (1 + 1)) / (1 / (1 + 1) + 50 / 100).
Proof.
  destruct (ensemble_weights_sum_to_one two_day_history two_day_sentiment)
    as [Sum Pair].
  destruct (Pair ltac:(numerals) ltac:(numerals))
    as (cmb & hw & sw & E & _ & Both & _).
  exists cmb, hw, sw.
  split; [exact E|].
  split; [exact (proj1 (Sum cmb hw sw E))|].
  apply Both. left. split; discriminate.
Defined.

(** Outside those hypotheses the default is reachable: MAE -3 and
    confidence 20 give a + c = -1/2 + 1/5. *)
Example default_weights_are_used_on_a_nonpositive_basis :
  combine_predictions
    {| h_mae := Some (- 3); h_predictions := None; h_current_price := None |}
    {| s_confidence := Some 20; s_predictions := None;
       s_sentiment_score := None |}
  = Ok ([], 0.7, 0.3).
Proof. reflexivity. Qed.

(** ** historical_predictor: columns of the feature frame *)

Import historical_predictor.

Lemma nth_map_in_range {A B : Type} (f : A -> B) (xs : list A) (i : nat)
    (d : A) (d' : B) :
  (i < length xs)%nat -> nth i (map f xs) d' = f (nth i xs d).
Proof.
  intro H. rewrite (nth_indep _ d' (f d)) by (rewrite length_map; exact H).
  apply map_nth.
Qed.

Lemma rolling_length (w : nat) (stat : list Q -> Q) (xs : list Q) :
  length (rolling w stat xs) = length xs.
Proof. unfold rolling. rewrite length_map, length_seq. reflexivity. Qed.

Lemma rolling_nth (w : nat) (stat : list Q -> Q) (xs : list Q) (i : nat) :
  (i < length xs)%nat ->
  nth i (rolling w stat xs) None
  = if (w <=? i + 1)%nat
    then Some (stat (firstn w (skipn (i + 1 - w) xs)))
    else None.
Proof.
  intro H. unfold rolling. rewrite nth_map_seq by exact H. reflexivity.
Qed.

Lemma diff_length (xs : list Q) : length (diff xs) = length xs.
Proof. unfold diff. rewrite length_map, length_seq. reflexivity. Qed.

Lemma shift_nth (k : nat) (xs : list Q) (i : nat) :
  (i < length xs)%nat ->
  nth i (shift k xs) None
  = if (k <=? i)%nat then Some (nth (i - k) xs 0) else None.
Proof. intro H. unfold shift. rewrite nth_map_seq by exact H. reflexivity. Qed.

Lemma col_zip_nth (op : Q -> Q -> Q) (a b : column) (i : nat) :
  (i < length a)%nat ->
  nth i (col_zip op a b) None = lift2 op (nth i a None) (nth i b None).
Proof.
  intro H. unfold col_zip. rewrite nth_map_seq by exact H. reflexivity.
Qed.

Lemma col_zip_length (op : Q -> Q -> Q) (a b : column) :
  length (col_zip op a b) = length a.
Proof. unfold col_zip. rewrite length_map, length_seq. reflexivity. Qed.

Lemma ewm_from_length (alpha prev : Q) (xs : list Q) :
  length (ewm_from alpha prev xs) = length xs.
Proof.
  revert prev. induction xs as [|x rest IH]; intro prev; simpl.
  - reflexivity.
  - rewrite IH. reflexivity.
Qed.

Lemma ewm_length (span : Q) (xs : list Q) : length (ewm span xs) = length xs.
Proof.
  destruct xs as [|x rest]; simpl; [reflexivity|].
  rewrite ewm_from_length. reflexivity.
Qed.

Lemma zip_with_length (op : Q -> Q -> Q) (xs ys : list Q) :
  length xs = length ys -> length (zip_with op xs ys) = length xs.
Proof.
  revert ys. induction xs as [|x xs' IH]; intros [|y ys'] H; simpl in *;
    try reflexivity; try discriminate.
  injection H as H. rewrite (IH ys' H). reflexivity.
Qed.

(** A row survives [dropna] exactly when each of its fifteen entries is a
    number. *)
Lemma row_of_some_inv (f : frame) (i : nat) (r : features) :
  row_of f i = Some r ->
  nth i (col_RSI f) None = Some (RSI r)
  /\ nth i (col_MACD f) None = Some (MACD r)
  /\ nth i (col_Momentum f) None = Some (Momentum r).
Proof.
  unfold row_of. intro H.
  repeat match type of H with
         | context [match nth i ?c None with _ => _ end] =>
             destruct (nth i c None); [|discriminate H]
         end.
  injection H as <-. simpl. auto.
Qed.

Lemma row_of_none_before_50 (f : frame) (i : nat) :
  nth i (col_MA_50 f) None = None -> row_of f i = None.
Proof.
  intro H. unfold row_of. rewrite H.
  repeat match goal with
         | |- context [match nth i ?c None with _ => _ end] =>
             destruct (nth i c None)
         end; reflexivity.
Qed.

Lemma row_of_is_some (f : frame) (i : nat) :
  nth i (col_Close f) None <> None -> nth i (col_Volume f) None <> None ->
  nth i (col_MA_7 f) None <> None -> nth i (col_MA_21 f) None <> None ->
  nth i (col_MA_50 f) None <> None -> nth i (col_RSI f) None <> None ->
  nth i (col_MACD f) None <> None -> nth i (col_Signal_Line f) None <> None ->
  nth i (col_BB_Middle f) None <> None -> nth i (col_BB_Upper f) None <> None ->
  nth i (col_BB_Lower f) None <> None -> nth i (col_Volume_MA f) None <> None ->
  nth i (col_Volume_Ratio f) None <> None ->
  nth i (col_Momentum f) None <> None ->
  nth i (col_Volatility f) None <> None ->
  row_of f i <> None.
Proof.
  intros. unfold row_of.
  repeat match goal with
         | |- context [match nth i ?c None with _ => _ end] =>
             destruct (nth i c None); [|congruence]
         end.
  discriminate.
Qed.

Ltac column_lengths :=
  repeat first [ rewrite length_map | rewrite rolling_length
               | rewrite diff_length | rewrite col_zip_length
               | rewrite ewm_length | rewrite length_seq
               | rewrite zip_with_length ];
  try lia.

Ltac windows_are_full :=
  repeat match goal with
         | |- context [(?w <=? ?e)%nat] =>
             replace (w <=? e)%nat with true
               by (symmetry; apply Nat.leb_le; lia)
         end.

Section FeatureRows.

Variable sqrt : Q -> Q.

Lemma macd_length (xs : list Q) :
  length (zip_with Qminus (ewm 12 xs) (ewm 26 xs)) = length xs.
Proof. rewrite zip_with_length; rewrite !ewm_length; reflexivity. Qed.

(** Rows 0 to 48 lack the 50-bar average and are dropped; every later row
    has all its columns and is kept. *)
Lemma row_dropped_iff_before_50 (df : list bar) (i : nat) :
  (i < length df)%nat ->
  (row_of (add_columns sqrt df) i = None <-> (i < 49)%nat).
Proof.
  intro Hi. split.
  - intro H. destruct (Nat.lt_ge_cases i 49) as [L | G]; [exact L|].
    exfalso. revert H.
    apply row_of_is_some; unfold add_columns;
      cbn [col_Close col_Volume col_MA_7 col_MA_21 col_MA_50 col_RSI col_MACD
           col_Signal_Line col_BB_Middle col_BB_Upper col_BB_Lower
           col_Volume_MA col_Volume_Ratio col_Momentum col_Volatility];
      repeat first
        [ rewrite (nth_map_in_range Some _ i 0 None)
            by (rewrite ?macd_length; column_lengths)
        | rewrite (nth_map_in_range (option_map _) _ i None None)
            by column_lengths
        | rewrite (nth_map_in_range (replace _ _) _ i None None)
            by column_lengths
        | rewrite col_zip_nth by column_lengths
        | rewrite rolling_nth by column_lengths
        | rewrite shift_nth by column_lengths ];
      windows_are_full; cbn [lift2 option_map replace]; discriminate.
  - intro L. apply row_of_none_before_50.
    unfold add_columns. cbn [col_MA_50].
    rewrite rolling_nth by column_lengths.
    replace (50 <=? i + 1)%nat with false
      by (symmetry; apply Nat.leb_gt; lia).
    reflexivity.
Qed.

Lemma kept_rows_count {A : Type} (f : nat -> option A) (k n : nat) :
  (forall i, (i < n)%nat -> (f i = None <-> (i < k)%nat)) ->
  length (flat_map (fun i => match f i with Some r => [r] | None => [] end)
                   (seq 0 n))
  = (n - k)%nat.
Proof.
  induction n as [|n IH]; intro H.
  - reflexivity.
  - rewrite seq_S, flat_map_app, length_app. cbn [flat_map Nat.add].
    rewrite IH by (intros i Hi; apply H; lia).
    destruct (f n) as [r|] eqn:E.
    + assert (~ (n < k)%nat) by (intro L; apply H in L; [congruence | lia]).
      cbn [length app]. lia.
    + assert (n < k)%nat by (apply H; [lia | exact E]).
      cbn [length app]. lia.
Qed.

(** [prepare_features] keeps all but the first 49 bars. *)
Lemma prepare_features_length (df : list bar) :
  length (prepare_features sqrt df) = (length df - 49)%nat.
Proof.
  unfold prepare_features, dropna.
  replace (length (col_Close (add_columns sqrt df))) with (length df)
    by (unfold add_columns; cbn [col_Close]; column_lengths).
  apply kept_rows_count. intros i Hi.
  apply row_dropped_iff_before_50. exact Hi.
Qed.

Lemma kept_row_has_index (df : list bar) (r : features) :
  In r (prepare_features sqrt df) ->
  exists i, (i < length df)%nat /\ row_of (add_columns sqrt df) i = Some r.
Proof.
  unfold prepare_features, dropna. intro H.
  apply in_flat_map in H. destruct H as [i [Hi Hr]].
  apply in_seq in Hi.
  replace (length (col_Close (add_columns sqrt df))) with (length df) in Hi
    by (unfold add_columns; cbn [col_Close]; column_lengths).
  exists i. split; [lia|].
  destruct (row_of (add_columns sqrt df) i) as [r'|]; [|contradiction].
  destruct Hr as [-> | []]. reflexivity.
Qed.

End FeatureRows.

(** ** historical_predictor: a history whose close never moves *)

Lemma in_window (w k : nat) (xs : list Q) (x : Q) :
  In x (firstn w (skipn k xs)) -> In x xs.
Proof.
  intro H.
  assert (In x (skipn k xs)).
  { rewrite <- (firstn_skipn w (skipn k xs)). apply in_or_app. left. exact H. }
  rewrite <- (firstn_skipn k xs). apply in_or_app. right. assumption.
Qed.

Lemma fold_plus_zeros (xs : list Q) (acc : Q) :
  (forall x, In x xs -> x == 0) -> fold_left Qplus xs acc == acc.
Proof.
  revert acc. induction xs as [|x rest IH]; intros acc H; simpl.
  - reflexivity.
  - rewrite IH by (intros y Hy; apply H; right; exact Hy).
    rewrite (H x) by (left; reflexivity). lra.
Qed.

Lemma mean_of_zeros (xs : list Q) :
  (forall x, In x xs -> x == 0) -> mean xs == 0.
Proof.
  intro H. unfold mean, sum. rewrite (fold_plus_zeros xs 0 H).
  unfold Qdiv. apply Qmult_0_l.
Qed.

Section FlatSeries.

Variable sqrt : Q -> Q.
Variable df : list bar.
Variable level : Q.
Hypothesis flat : Forall (fun b => Close b == level) df.

Lemma flat_close_nth (i : nat) :
  (i < length df)%nat -> nth i (map Close df) 0 == level.
Proof.
  intro H.
  rewrite (nth_map_in_range Close df i (Build_bar 0 0) 0 H).
  exact (proj1 (Forall_nth _ df) flat i (Build_bar 0 0) H).
Qed.

Lemma flat_close_in (x : Q) : In x (map Close df) -> x == level.
Proof.
  intro H. apply in_map_iff in H. destruct H as [b [<- Hb]].
  exact (proj1 (Forall_forall _ df) flat b Hb).
Qed.

Lemma flat_delta (d : option Q) :
  In d (diff (map Close df)) -> d = None \/ exists v, d = Some v /\ v == 0.
Proof.
  unfold diff. intro H. apply in_map_iff in H.
  destruct H as [i [<- Hi]]. apply in_seq in Hi. rewrite length_map in Hi.
  destruct i as [|j]; [left; reflexivity|].
  right. eexists. split; [reflexivity|].
  rewrite !flat_close_nth by lia. lra.
Qed.

Lemma flat_gains (x : Q) :
  In x (map where_positive (diff (map Close df))) -> x == 0.
Proof.
  intro H. apply in_map_iff in H. destruct H as [d [<- Hd]].
  destruct (flat_delta d Hd) as [-> | [v [-> Hv]]]; simpl.
  - reflexivity.
  - by_cases_on_test (Qgtb v 0); [lra | reflexivity].
Qed.

Lemma flat_losses (x : Q) :
  In x (map minus_where_negative (diff (map Close df))) -> x == 0.
Proof.
  intro H. apply in_map_iff in H. destruct H as [d [<- Hd]].
  destruct (flat_delta d Hd) as [-> | [v [-> Hv]]]; simpl.
  - reflexivity.
  - by_cases_on_test (Qltb v 0); [lra | reflexivity].
Qed.

(** Gain 0 over the loss clamped to 0.001 gives RSI 100 - 100 / (1 + 0). *)
Lemma flat_rsi (i : nat) (v : Q) :
  nth i (col_RSI (add_columns sqrt df)) None = Some v -> v == 0.
Proof.
  intro H.
  destruct (Nat.lt_ge_cases i (length df)) as [Hi | Hi].
  2:{ rewrite nth_overflow in H; [discriminate|].
      unfold add_columns. cbn [col_RSI]. column_lengths. }
  revert H. unfold add_columns. cbn [col_RSI].
  rewrite (nth_map_in_range (option_map _) _ i None None) by column_lengths.
  rewrite col_zip_nth by column_lengths.
  rewrite (nth_map_in_range (replace _ _) _ i None None) by column_lengths.
  rewrite !rolling_nth by column_lengths.
  destruct (14 <=? i + 1)%nat; [|discriminate].
  cbn [lift2 option_map replace].
  set (gain := mean (firstn 14 (skipn (i + 1 - 14)
                 (map where_positive (diff (map Close df)))))).
  set (loss := mean (firstn 14 (skipn (i + 1 - 14)
                 (map minus_where_negative (diff (map Close df)))))).
  assert (G : gain == 0)
    by (apply mean_of_zeros; intros x Hx; eapply flat_gains, in_window, Hx).
  assert (L : loss == 0)
    by (apply mean_of_zeros; intros x Hx; eapply flat_losses, in_window, Hx).
  rewrite (Qeq_eq_bool loss 0 L).
  intro H. injection H as <-. rewrite G. reflexivity.
Qed.

Lemma flat_ewm_from (alpha prev : Q) (xs : list Q) :
  prev == level -> (forall x, In x xs -> x == level) ->
  forall y, In y (ewm_from alpha prev xs) -> y == level.
Proof.
  revert prev. induction xs as [|x rest IH]; intros prev P H y Hy; simpl in Hy.
  - contradiction.
  - assert (S : (1 - alpha) * prev + alpha * x == level).
    { rewrite P, (H x) by (left; reflexivity). ring. }
    destruct Hy as [<- | Hy]; [exact S|].
    apply (IH _ S); [|exact Hy].
    intros z Hz. apply H. right. exact Hz.
Qed.

Lemma flat_ewm (span : Q) (xs : list Q) :
  (forall x, In x xs -> x == level) ->
  forall y, In y (ewm span xs) -> y == level.
Proof.
  intros H y Hy. destruct xs as [|x0 rest]; simpl in Hy; [contradiction|].
  destruct Hy as [<- | Hy]; [apply H; left; reflexivity|].
  apply (flat_ewm_from (2 / (span + 1)) x0 rest);
    [apply H; left; reflexivity | | exact Hy].
  intros z Hz. apply H. right. exact Hz.
Qed.

Lemma zip_minus_of_equals (xs ys : list Q) :
  (forall x, In x xs -> x == level) -> (forall y, In y ys -> y == level) ->
  forall z, In z (zip_with Qminus xs ys) -> z == 0.
Proof.
  revert ys. induction xs as [|x xs' IH]; intros [|y ys'] Hx Hy z Hz;
    simpl in Hz; try contradiction.
  destruct Hz as [<- | Hz].
  - rewrite (Hx x), (Hy y) by (left; reflexivity). ring.
  - apply (IH ys'); [| |exact Hz]; intros u Hu;
      [apply Hx | apply Hy]; right; exact Hu.
Qed.

(** Both moving averages sit at the level, so their difference is 0. *)
Lemma flat_macd (i : nat) (v : Q) :
  nth i (col_MACD (add_columns sqrt df)) None = Some v -> v == 0.
Proof.
  unfold add_columns. cbn [col_MACD]. intro H.
  destruct (Nat.lt_ge_cases i (length df)) as [Hi | Hi].
  2:{ rewrite nth_overflow in H; [discriminate|].
      rewrite length_map, macd_length, length_map. exact Hi. }
  rewrite (nth_map_in_range Some _ i 0 None) in H
    by (rewrite macd_length, length_map; exact Hi).
  injection H as <-.
  apply (zip_minus_of_equals (ewm 12 (map Close df)) (ewm 26 (map Close df))).
  - apply flat_ewm, flat_close_in.
  - apply flat_ewm, flat_close_in.
  - apply nth_In. rewrite macd_length, length_map. exact Hi.
Qed.

(** The close ten bars back is the close of today. *)
Lemma flat_momentum (i : nat) (v : Q) :
  nth i (col_Momentum (add_columns sqrt df)) None = Some v -> v == 0.
Proof.
  unfold add_columns. cbn [col_Momentum]. intro H.
  destruct (Nat.lt_ge_cases i (length df)) as [Hi | Hi].
  2:{ rewrite nth_overflow in H; [discriminate|]. column_lengths. }
  rewrite col_zip_nth in H by column_lengths.
  rewrite (nth_map_in_range Some _ i 0 None) in H by column_lengths.
  rewrite shift_nth in H by column_lengths.
  destruct (10 <=? i)%nat; [|discriminate].
  cbn [lift2] in H. injection H as <-.
  rewrite !flat_close_nth by lia. ring.
Qed.

(** What [prepare_features] reports on each row it keeps. *)
Lemma flat_row_indicators (r : features) :
  In r (prepare_features sqrt df) ->
  RSI r == 0 /\ Momentum r == 0 /\ MACD r == 0.
Proof.
  intro H. destruct (kept_row_has_index sqrt df r H) as [i [_ Hr]].
  apply row_of_some_inv in Hr. destruct Hr as [R [M Mo]].
  split; [exact (flat_rsi i _ R)|].
  split; [exact (flat_momentum i _ Mo) | exact (flat_macd i _ M)].
Qed.

End FlatSeries.

Lemma flat_history_is_flat (n : nat) (price volume : Q) :
  Forall (fun b => Close b == price) (flat_history n price volume).
Proof.
  apply Forall_forall. intros b Hb. apply repeat_spec in Hb. subst b.
  reflexivity.
Qed.

(** C2, as the code has it.  On a history whose close is constant,
    [prepare_features] keeps all rows but the first 49, and on every row it
    keeps RSI = 0 (gain 0 divided by the loss clamped from 0 to 0.001 gives
    rs = 0, and 100 - 100 / (1 + 0) = 0), momentum = 0 and MACD = 0. *)
Theorem flat_history_has_zero_rsi_momentum_macd :
  forall (sqrt : Q -> Q) (df : list bar) (level : Q),
    Forall (fun b => Close b == level) df ->
    length (prepare_features sqrt df) = (length df - 49)%nat
    /\ Forall (fun r => RSI r == 0 /\ Momentum r == 0 /\ MACD r == 0)
              (prepare_features sqrt df).
Proof.
  intros sqrt df level flat. split.
  - apply prepare_features_length.
  - apply Forall_forall. intros r Hr.
    exact (flat_row_indicators sqrt df level flat r Hr).
Qed.

(** The statement above for 365 bars at 100. *)
Lemma flat_history_witness :
  length (prepare_features sqrt_micro (flat_history 365 100 1000)) = 316%nat
  /\ Forall (fun r => RSI r == 0 /\ Momentum r == 0 /\ MACD r == 0)
            (prepare_features sqrt_micro (flat_history 365 100 1000)).
Proof.
  exact (flat_history_has_zero_rsi_momentum_macd
           sqrt_micro (flat_history 365 100 1000) 100
           (flat_history_is_flat 365 100 1000)).
Defined.

(** C2 as stated fails: on the flat 365-bar history rows are kept, and a
    kept row has RSI 0, at distance 50 from the claimed 50. *)
Lemma flat_history_rsi_is_zero_not_fifty :
  exists r : features,
    In r (prepare_features sqrt_micro (flat_history 365 100 1000))
    /\ RSI r == 0
    /\ Qabs (RSI r - 50) == 50.
Proof.
  pose proof (prepare_features_length sqrt_micro (flat_history 365 100 1000))
    as L.
  unfold flat_history in L at 2. rewrite repeat_length in L.
  destruct (prepare_features sqrt_micro (flat_history 365 100 1000))
    as [|r rest] eqn:E; [discriminate L|].
  exists r.
  assert (In r (prepare_features sqrt_micro (flat_history 365 100 1000)))
    by (rewrite E; left; reflexivity).
  destruct (flat_row_indicators sqrt_micro _ 100
              (flat_history_is_flat 365 100 1000) r H) as [R _].
  rewrite <- E. split; [exact H|]. split; [exact R|].
  rewrite R. reflexivity.
Qed.

(** The same by evaluation on 52 bars: three rows are kept. *)
Example flat_52_bars_evaluate :
  map (fun r => (Qred (RSI r), Qred (Momentum r), Qred (MACD r)))
      (prepare_features sqrt_micro (flat_history 52 100 1000))
  = [(0, 0, 0); (0, 0, 0); (0, 0, 0)].
Proof. vm_compute. reflexivity. Qed.

(** ** historical_predictor: what [predict] answers *)

Lemma create_sequences_count (data : list (list Q)) (L : nat) :
  length (fst (create_sequences data L)) = (length data - L)%nat.
Proof.
  unfold create_sequences. cbn [fst]. rewrite length_map, length_seq.
  reflexivity.
Qed.

Lemma fit_transform_rows (data : list (list Q)) :
  match fit_transform data with
  | Ok (_, scaled_data) => data <> [] /\ length scaled_data = length data
  | Raise x => data = [] /\ x = ValueError
  end.
Proof.
  unfold fit_transform, fit. destruct data as [|first rest].
  - split; reflexivity.
  - split; [discriminate | apply length_map].
Qed.

Lemma no_failure_ret_none {S A : Type} :
  never_a_failure_dict (@ret S (outcome A) PyNone).
Proof. intros s s' a H msg. injection H as <- _. discriminate. Qed.

Lemma no_failure_ret_success {S A : Type} (x : A) :
  never_a_failure_dict (@ret S (outcome A) (Success x)).
Proof. intros s s' a H msg. injection H as <- _. discriminate. Qed.

Lemma no_failure_bind {S A B : Type} (m : M S B) (k : B -> M S (outcome A)) :
  (forall b, never_a_failure_dict (k b)) -> never_a_failure_dict (bind m k).
Proof.
  intros H s s' a E. unfold bind in E.
  destruct (m s) as [[b | x] s1]; [|discriminate].
  exact (H b s1 s' a E).
Qed.

Section PredictFacts.

Variable sqrt : Q -> Q.
Variable keras_fit : bool -> list window -> list Q -> res (window -> Q).

Lemma predict_body_never_a_failure_dict (e : env) (symbol : string)
    (history : res (list bar)) (days : nat) (model_type : string) :
  never_a_failure_dict
    (predict_body sqrt keras_fit e symbol history days model_type).
Proof.
  unfold predict_body.
  apply no_failure_bind. intros [|b df]; [apply no_failure_ret_none|].
  apply no_failure_bind. intros [sc scaled_data].
  destruct (create_sequences scaled_data sequence_length) as [X y].
  destruct (length X =? 0)%nat; [apply no_failure_ret_none|].
  repeat (apply no_failure_bind; intro).
  apply no_failure_ret_success.
Qed.

Lemma predict_short_history (e : env) (symbol : string)
    (history : res (list bar)) (days : nat) (model_type : string) (w : world) :
  (forall df,
     history = Ok df -> (length (prepare_features sqrt df) < 31)%nat) ->
  predict sqrt keras_fit e symbol history days model_type w = (PyNone, w).
Proof.
  intro Short. unfold predict, try_except, predict_body.
  destruct history as [[|b df] | x]; try reflexivity.
  specialize (Short (b :: df) eq_refl).
  unfold bind at 1. cbn [lift]. unfold bind at 1. cbn [lift].
  pose proof (fit_transform_rows
                (map values (prepare_features sqrt (b :: df)))) as F.
  destruct (fit_transform (map values (prepare_features sqrt (b :: df))))
    as [[sc scaled_data] | x]; [|reflexivity].
  destruct F as [_ F]. rewrite length_map in F.
  pose proof (create_sequences_count scaled_data sequence_length) as C.
  destruct (create_sequences scaled_data sequence_length) as [X y].
  cbn [fst] in C. unfold sequence_length in C.
  replace (length X =? 0)%nat with true
    by (symmetry; apply Nat.eqb_eq; lia).
  reflexivity.
Qed.

End PredictFacts.

(** C7, as the code has it.  [predict] never lets an exception escape (it
    is a function into [outcome]) and never answers with a
    {success: false, message} dict; when the history cannot be fetched, is
    empty, or yields fewer than 31 feature rows, it answers [None] and
    leaves the globals as they were. *)
Theorem short_history_makes_predict_return_None :
  forall (sqrt : Q -> Q)
         (keras_fit : bool -> list window -> list Q -> res (window -> Q))
         (e : env) (symbol : string) (history : res (list bar)) (days : nat)
         (kind : string) (w : world),
    (forall msg,
       fst (predict sqrt keras_fit e symbol history days kind w)
       <> Failure msg)
    /\ ((forall df, history = Ok df ->
                    (length (prepare_features sqrt df) < 31)%nat) ->
        predict sqrt keras_fit e symbol history days kind w
        = (PyNone, w)).
Proof.
  intros sqrt keras_fit e symbol history days kind w. split.
  - intros msg. unfold predict, try_except.
    pose proof (predict_body_never_a_failure_dict
                  sqrt keras_fit e symbol history days kind w) as N.
    destruct (predict_body sqrt keras_fit e symbol history days kind w)
      as [[a | x] w'].
    + exact (N w' a eq_refl msg).
    + discriminate.
  - apply predict_short_history.
Qed.

(** Seventy-nine flat bars leave thirty feature rows: one short of a
    window. *)
Lemma short_history_witness :
  predict sqrt_micro (fun _ _ _ => no_network) at_midnight indian_symbol
          (Ok (flat_history 79 100 1000)) 14 "standard" fresh_world
  = (PyNone, fresh_world).
Proof.
  apply (short_history_makes_predict_return_None
           sqrt_micro (fun _ _ _ => no_network) at_midnight indian_symbol
           (Ok (flat_history 79 100 1000)) 14 "standard" fresh_world).
  intros df E. injection E as <-.
  rewrite prepare_features_length. unfold flat_history.
  rewrite repeat_length. simpl. lia.
Defined.

(** C7 as stated fails: on an empty history [predict] answers [None], which
    is no {success: false, message} dict. *)
Lemma empty_history_gives_None_not_a_failure_dict :
  fst (predict sqrt_micro (fun _ _ _ => no_network) at_midnight indian_symbol
               (Ok []) 14 "standard" fresh_world)
  = PyNone
  /\ forall msg,
       fst (predict sqrt_micro (fun _ _ _ => no_network) at_midnight
                    indian_symbol (Ok []) 14 "standard" fresh_world)
       <> Failure msg.
Proof. split; [reflexivity | intros msg; discriminate]. Qed.

(** Where the structured failure comes from: [HybridPredictor.predict]
    tests its historical result for [None] and reports it. *)
Lemma hybrid_predict_reports_a_missing_historical_result :
  forall (sqrt : Q -> Q)
         (keras_fit : bool -> list window -> list Q -> res (window -> Q))
         (TextBlob_polarity : string -> res Q) (e : env) (symbol : string)
         (f : feeds) (days : nat) (w : world),
    (forall df,
       history_2y f = Ok df ->
       (length (prepare_features sqrt df) < 31)%nat) ->
    fst (hybrid_predictor.predict sqrt keras_fit TextBlob_polarity e symbol f
                                  days w)
    = Failure (Text "Historical prediction failed").
Proof.
  intros sqrt keras_fit tb e symbol f days w Short.
  unfold hybrid_predictor.predict.
  rewrite (predict_short_history sqrt keras_fit e symbol (history_2y f) days
                                 "standard" w Short).
  destruct (sentiment_analyzer.analyze sqrt tb e symbol (news f) (info f)
                                       (history_3mo f) w) as [result w2].
  reflexivity.
Qed.

(** ** sentiment_analyzer: indicator weights and the score *)

Import sentiment_analyzer.

Lemma fold_plus_acc (xs : list Q) (acc : Q) :
  fold_left Qplus xs acc == acc + fold_left Qplus xs 0.
Proof.
  revert acc. induction xs as [|x rest IH]; intro acc; simpl.
  - lra.
  - rewrite (IH (acc + x)), (IH (0 + x)). lra.
Qed.

Lemma sum_cons (x : Q) (xs : list Q) : sum (x :: xs) == x + sum xs.
Proof. unfold sum. simpl. rewrite fold_plus_acc. lra. Qed.

Lemma tally_from (pairs : list (vote * Q)) (p0 n0 u0 : Q) :
  let weight v :=
    sum (map snd (filter (fun iw : vote * Q => vote_eqb (fst iw) v) pairs)) in
  let '(p, n, u) :=
    fold_left
      (fun (acc : Q * Q * Q) (iw : vote * Q) =>
         let '(pos, neg, neu) := acc in
         let (indicator, weight) := iw in
         match indicator with
         | positive => (pos + weight, neg, neu)
         | negative => (pos, neg + weight, neu)
         | neutral => (pos, neg, neu + weight)
         end)
      pairs (p0, n0, u0) in
  p == p0 + weight positive /\ n == n0 + weight negative
  /\ u == u0 + weight neutral.
Proof.
  revert p0 n0 u0. induction pairs as [|[v w] rest IH]; intros p0 n0 u0.
  - cbn. repeat split; lra.
  - cbn [fold_left].
    destruct v;
      [ specialize (IH (p0 + w) n0 u0)
      | specialize (IH p0 (n0 + w) u0)
      | specialize (IH p0 n0 (u0 + w)) ];
      cbv zeta in IH |- *;
      match goal with
      | |- context [fold_left ?f rest ?a] =>
          destruct (fold_left f rest a) as [[p n] u]
      end;
      cbn [filter fst vote_eqb map snd]; rewrite ?sum_cons;
      destruct IH as (P & N & U); repeat split; lra.
Qed.

(** The loop over the two parallel lists adds up, per vote, the weights of
    the indicators that cast it. *)
Lemma tally_is_weight_of (votes : list vote) (weights : list Q) (p n u : Q) :
  tally votes weights = (p, n, u) ->
  p == weight_of positive votes weights
  /\ n == weight_of negative votes weights
  /\ u == weight_of neutral votes weights.
Proof.
  intro E. pose proof (tally_from (combine votes weights) 0 0 0) as T.
  cbv zeta in T. unfold tally in E. rewrite E in T.
  unfold weight_of. destruct T as (P & N & U). repeat split; lra.
Qed.

Lemma news_weight_bounds (sentiments : list Q) :
  sentiments <> [] ->
  0 < news_weight sentiments /\ news_weight sentiments <= 0.4.
Proof.
  intro H. unfold news_weight.
  assert (L : 0 < len sentiments / 20).
  { unfold len. destruct sentiments as [|x rest]; [congruence|].
    apply Qlt_shift_div_l; [reflexivity|].
    rewrite Qmult_0_l. change 0 with (inject_Z 0). rewrite <- Zlt_Qlt.
    simpl length. lia. }
  destruct (Q.min_spec (len sentiments / 20) 1) as [[A E] | [A E]];
    rewrite E; split; lra.
Qed.

(** The two parallel lists of each path, and the score computed from the
    tally. *)
Lemma indicator_lists_weight_sums :
  forall (s : stats) (hist : list bar) (sentiments : list Q)
         (avg_sentiment : Q),
    (forall votes weights,
       indicators_B s hist = Ok (votes, weights) ->
       length votes = 5%nat /\ length weights = 5%nat /\ sum weights == 1)
    /\ (forall votes weights,
          sentiments <> [] ->
          indicators_A s hist sentiments avg_sentiment = Ok (votes, weights) ->
          length votes = 5%nat /\ length weights = 5%nat
          /\ sum weights
             == Qmin (len sentiments / 20) 1 * 0.4 + (0.15 + 0.15 + 0.10 + 0.10)
          /\ 0.5 < sum weights /\ sum weights <= 0.9)
    /\ (forall votes weights p n u,
          tally votes weights = (p, n, u) ->
          p == weight_of positive votes weights
          /\ n == weight_of negative votes weights
          /\ score_of p n = Qmax 0 (Qmin 100 ((p - n) * 100 + 50))
          /\ 0 <= score_of p n <= 100).
Proof.
  intros s hist sentiments avg. split; [|split].
  - intros votes weights E. unfold indicators_B in E.
    destruct (momentum_10d hist); [|discriminate].
    injection E as <- <-. repeat split; reflexivity.
  - intros votes weights NE E. unfold indicators_A in E.
    destruct (momentum_10d hist); [|discriminate].
    destruct sentiments as [|x rest]; [congruence|].
    cbn [fst snd app] in E. injection E as <- <-.
    pose proof (news_weight_bounds (x :: rest) NE) as [B0 B1].
    assert (S : sum [news_weight (x :: rest); 0.15; 0.15; 0.10; 0.10]
                == news_weight (x :: rest) + (0.15 + 0.15 + 0.10 + 0.10))
      by (unfold sum; cbn [fold_left]; lra).
    split; [reflexivity|]. split; [reflexivity|].
    split; [exact S|]. rewrite S. split; lra.
  - intros votes weights p n u E.
    destruct (tally_is_weight_of votes weights p n u E) as (P & N & _).
    split; [exact P|]. split; [exact N|]. split; [reflexivity|].
    unfold score_of.
    destruct (Q.max_spec 0 (Qmin 100 ((p - n) * 100 + 50))) as [[A M] | [A M]];
      destruct (Q.min_spec 100 ((p - n) * 100 + 50)) as [[B m] | [B m]];
      rewrite M; rewrite ?m in *; split; lra.
Qed.

(** ** The store of lists and the monad, step by step *)

Lemma bind_run {S A B : Type} (m : M S A) (k : A -> M S B) (s s1 : S) (a : A) :
  m s = (Ok a, s1) -> bind m k s = k a s1.
Proof. intro E. unfold bind. rewrite E. reflexivity. Qed.

(** Appending to the list at address [length before]. *)
Lemma append_at (before : heap) (l : list Q) (after : heap) (x : Q) :
  append (length before) x (before ++ l :: after)
  = before ++ (l ++ [x]) :: after.
Proof.
  induction before as [|l0 rest IH]; simpl.
  - reflexivity.
  - rewrite IH. reflexivity.
Qed.

Lemma deref_at (before : heap) (l : list Q) (after : heap) :
  deref (length before) (before ++ l :: after) = l.
Proof.
  unfold deref. rewrite app_nth2 by lia. rewrite Nat.sub_diag. reflexivity.
Qed.

(** A whole forecast loop appends its fourteen prices to the list it was
    given and touches nothing else. *)
Lemma for_each_append_run {A : Type} (f : A -> Q) (xs : list A)
    (before : heap) (l : list Q) (after : heap) (c : cache) :
  for_each xs (fun x => list_append (length before) (f x))
           {| lists := before ++ l :: after; fx := c |}
  = (Ok tt, {| lists := before ++ (l ++ map f xs) :: after; fx := c |}).
Proof.
  revert l. induction xs as [|x rest IH]; intro l; cbn [for_each map].
  - rewrite app_nil_r. reflexivity.
  - unfold bind, list_append at 1. cbn [lists fx].
    rewrite append_at, IH, <- app_assoc. reflexivity.
Qed.

Lemma forecast_into_run (before : heap) (l : list Q) (after : heap)
    (c : cache) (price impact decay : Q) :
  forecast_into (length before) price impact decay
                {| lists := before ++ l :: after; fx := c |}
  = (Ok tt,
     {| lists := before ++ (l ++ map (predicted_price price impact decay) days)
                        :: after;
        fx := c |}).
Proof. unfold forecast_into. apply for_each_append_run. Qed.

(** The rate lookup always answers with a number. *)
Lemma usd_to_inr_run (e : env) (w : world) :
  exists (rate : Q) (c' : cache),
    usd_to_inr e w = (Ok (Some rate), {| lists := lists w; fx := c' |})
    /\ USD_TO_INR_RATE c' = Some rate.
Proof.
  unfold usd_to_inr, get_usd_to_inr_rate.
  destruct (should_update (now e) (fx w)) eqn:U.
  - destruct (fetch_never_raises_and_is_plausible (net e)) as [rate [F _]].
    rewrite F. do 2 eexists. split; reflexivity.
  - unfold should_update in U.
    destruct (USD_TO_INR_RATE (fx w)) as [rate|] eqn:R; [|discriminate].
    do 2 eexists. split; [reflexivity | exact R].
Qed.

Lemma convert_price_run (e : env) (price : Q) (symbol : string) (w : world) :
  exists (rate : Q) (c' : cache),
    convert_price_to_inr e price symbol w
    = (Ok (converted symbol rate price), {| lists := lists w; fx := c' |}).
Proof.
  unfold convert_price_to_inr, converted.
  destruct (is_indian_stock symbol).
  - exists 0, (fx w). destruct w. reflexivity.
  - destruct (usd_to_inr_run e w) as (rate & c' & U & _).
    exists rate, c'. rewrite (bind_run _ _ _ _ _ U). reflexivity.
Qed.

Lemma convert_prices_run_indian (e : env) (prices : ref) (symbol : string)
    (w : world) :
  is_indian_stock symbol = true ->
  convert_prices_array_to_inr e prices symbol w = (Ok prices, w).
Proof. intro I. unfold convert_prices_array_to_inr. rewrite I. reflexivity. Qed.

Lemma convert_prices_run_foreign (e : env) (symbol : string) (before : heap)
    (l : list Q) (after : heap) (c : cache) :
  is_indian_stock symbol = false ->
  exists (rate : Q) (c' : cache),
    convert_prices_array_to_inr
      e (length before) symbol {| lists := before ++ l :: after; fx := c |}
    = (Ok (length (before ++ l :: after)),
       {| lists := (before ++ l :: after) ++ [map (fun p => p * rate) l];
          fx := c' |})
    /\ USD_TO_INR_RATE c' = Some rate.
Proof.
  intro I. unfold convert_prices_array_to_inr. rewrite I.
  destruct (usd_to_inr_run e {| lists := before ++ l :: after; fx := c |})
    as (rate & c' & U & R).
  exists rate, c'. rewrite (bind_run _ _ _ _ _ U).
  unfold bind, read_list, lift, new_list, alloc. cbn [lists fx].
  rewrite deref_at, times_rate_each_some. split; [reflexivity | exact R].
Qed.

Lemma deref_last (h : heap) (l : list Q) : deref (length h) (h ++ [l]) = l.
Proof. apply deref_at. Qed.

Lemma tail_not_empty {A : Type} (k : nat) (xs : list A) :
  xs <> [] -> tail (S k) xs <> [].
Proof.
  intros NE E. unfold tail in E.
  assert (L : length (skipn (length xs - S k) xs) = 0%nat)
    by (rewrite E; reflexivity).
  rewrite length_skipn in L.
  destruct xs as [|x rest]; [congruence|]. simpl length in L. lia.
Qed.

Lemma momentum_10d_defined (hist : list bar) :
  hist <> [] -> exists momentum, momentum_10d hist = Ok momentum.
Proof.
  intro NE. unfold momentum_10d.
  assert (T : tail 10 (map Close hist) <> []).
  { apply tail_not_empty. destruct hist; [congruence | discriminate]. }
  destruct (tail 10 (map Close hist)); [congruence|].
  eexists. reflexivity.
Qed.

(** Path B on a non-empty history, start to finish. *)
Lemma path_B_run (e : env) (symbol : string) (s : stats) (hist : list bar)
    (w : world) :
  hist <> [] ->
  exists votes weights p n u,
    indicators_B s hist = Ok (votes, weights)
    /\ tally votes weights = (p, n, u)
    /\ exists rate r w',
         path_B e symbol s hist w = (Ok r, w')
         /\ sentiment_indicators r = votes
         /\ sentiment_score r = round (score_of p n) 0
         /\ predictions r
            = shown_curve symbol rate
                (score_curve (current_price s)
                   (total_impact_of (score_of p n)
                                    (weighted_performance_of s)))
         /\ (is_indian_stock symbol = false ->
             USD_TO_INR_RATE (fx w') = Some rate).
Proof.
  intro NE. destruct (momentum_10d_defined hist NE) as [momentum Mo].
  assert (I : exists votes weights, indicators_B s hist = Ok (votes, weights))
    by (unfold indicators_B; rewrite Mo; do 2 eexists; reflexivity).
  destruct I as (votes & weights & I).
  destruct (tally votes weights) as [[p n] u] eqn:T.
  exists votes, weights, p, n, u.
  split; [exact I|]. split; [exact T|].
  unfold path_B.
  rewrite (bind_run _ _ w w (votes, weights)) by (rewrite I; reflexivity).
  rewrite T.
  rewrite (bind_run _ _ _ _ _ (eq_refl : new_list [] w = (_, _))).
  cbn [alloc].
  rewrite (bind_run _ _ _ _ _ (forecast_into_run (lists w) [] [] (fx w) _ _ _)).
  cbn [app].
  match goal with
  | |- context [bind (convert_price_to_inr e ?price symbol) _ ?w1] =>
      destruct (convert_price_run e price symbol w1) as (rate1 & c1 & CP)
  end.
  rewrite (bind_run _ _ _ _ _ CP). cbn [lists].
  destruct (is_indian_stock symbol) eqn:Ind.
  - rewrite (bind_run _ _ _ _ _
               (convert_prices_run_indian e _ symbol _ Ind)).
    unfold bind, read_list, ret. cbn [lists]. rewrite deref_last.
    exists 0. do 2 eexists.
    split; [reflexivity|].
    cbn [sentiment_indicators sentiment_score predictions].
    unfold shown_curve, score_curve. rewrite Ind.
    repeat split; discriminate.
  - match goal with
    | |- context [bind (convert_prices_array_to_inr e _ symbol) _
                       {| lists := ?b ++ ?l :: ?a; fx := ?c |}] =>
        destruct (convert_prices_run_foreign e symbol b l a c Ind)
          as (rate & c' & CA & R)
    end.
    rewrite (bind_run _ _ _ _ _ CA).
    unfold bind, read_list, ret. cbn [lists]. rewrite deref_last.
    exists rate. do 2 eexists.
    split; [reflexivity|].
    cbn [sentiment_indicators sentiment_score predictions].
    unfold shown_curve, score_curve. rewrite Ind.
    repeat split. intros _. exact R.
Qed.

Lemma deref_second (before : heap) (l l' m : list Q) :
  deref (length (before ++ [l])) (before ++ l' :: [m]) = m.
Proof.
  replace (before ++ l' :: [m]) with ((before ++ [l']) ++ m :: [])
    by (rewrite <- app_assoc; reflexivity).
  replace (length (before ++ [l])) with (length (before ++ [l']))
    by (rewrite !length_app; reflexivity).
  apply deref_at.
Qed.

Section PathA.

Variable sqrt : Q -> Q.
Variable TextBlob_polarity : string -> res Q.

(** Path A on a non-empty history, start to finish.  [predictions_inr] is
    taken before the second loop runs: for an Indian symbol it is the list
    the second loop appends to, otherwise a converted copy of the first
    fourteen prices. *)
Lemma path_A_run (e : env) (symbol : string) (s : stats) (hist : list bar)
    (news_articles : list article) (w : world) :
  news_articles <> [] ->
  hist <> [] ->
  plain_zero_price s = false ->
  exists votes weights p n u,
    indicators_A s hist (polarities TextBlob_polarity news_articles)
                 (mean_polarity TextBlob_polarity news_articles)
    = Ok (votes, weights)
    /\ tally votes weights = (p, n, u)
    /\ exists rate r w',
         path_A sqrt TextBlob_polarity e symbol s hist news_articles w
         = (Ok r, w')
         /\ sentiment_indicators r = votes
         /\ sentiment_score r = round (score_of p n) 0
         /\ predictions r
            = shown_curve symbol rate
                (if is_indian_stock symbol
                 then stored_curve_A TextBlob_polarity s news_articles p n
                 else legacy_curve (current_price s)
                        (news_total_impact
                           s (polarities TextBlob_polarity news_articles)
                           (mean_polarity TextBlob_polarity news_articles))).
Proof.
  intros NN NE NZ. destruct (momentum_10d_defined hist NE) as [momentum Mo].
  assert (I : exists votes weights,
             indicators_A s hist (polarities TextBlob_polarity news_articles)
                          (mean_polarity TextBlob_polarity news_articles)
             = Ok (votes, weights))
    by (unfold indicators_A; rewrite Mo; do 2 eexists; reflexivity).
  destruct I as (votes & weights & I).
  destruct (tally votes weights) as [[p n] u] eqn:T.
  exists votes, weights, p, n, u.
  split; [exact I|]. split; [exact T|].
  unfold path_A. fold (polarities TextBlob_polarity news_articles).
  fold (mean_polarity TextBlob_polarity news_articles).
  set (legacy := news_total_impact
                   s (polarities TextBlob_polarity news_articles)
                   (mean_polarity TextBlob_polarity news_articles)).
  rewrite (bind_run _ _ _ _ _ (eq_refl : new_list [] w = (_, _))).
  cbn [alloc].
  rewrite (bind_run _ _ _ _ _ (forecast_into_run (lists w) [] [] (fx w) _ _ _)).
  cbn [app].
  rewrite (bind_run _ _ _ _ (map (predicted_price (current_price s) legacy 0.03)
                                 days))
    by (unfold read_list; cbn [lists]; rewrite deref_last; reflexivity).
  assert (F : exists q,
             first_change_percent
               s (map (predicted_price (current_price s) legacy 0.03) days)
               (legacy) = Ok q).
  { unfold first_change_percent, days. cbn [seq map].
    fold (plain_zero_price s). rewrite NZ. eexists. reflexivity. }
  destruct F as [q F].
  rewrite (bind_run _ _ _ _ q) by (rewrite F; reflexivity).
  match goal with
  | |- context [bind (convert_price_to_inr e ?price symbol) _ ?w1] =>
      destruct (convert_price_run e price symbol w1) as (rate1 & c1 & CP)
  end.
  rewrite (bind_run _ _ _ _ _ CP). cbn [lists].
  destruct (is_indian_stock symbol) eqn:Ind.
  - rewrite (bind_run _ _ _ _ _
               (convert_prices_run_indian e _ symbol _ Ind)).
    rewrite (bind_run _ _ _ _ (votes, weights)) by (rewrite I; reflexivity).
    rewrite T.
    rewrite (bind_run _ _ _ _ _ (forecast_into_run (lists w) _ [] c1 _ _ _)).
    unfold bind, read_list, ret. cbn [lists]. rewrite deref_last.
    exists 0. do 2 eexists.
    split; [reflexivity|].
    cbn [sentiment_indicators sentiment_score predictions].
    unfold shown_curve, stored_curve_A, legacy_curve, score_curve.
    rewrite Ind. auto.
  - match goal with
    | |- context [bind (convert_prices_array_to_inr e _ symbol) _
                       {| lists := ?b ++ ?l :: ?a; fx := ?c |}] =>
        destruct (convert_prices_run_foreign e symbol b l a c Ind)
          as (rate & c' & CA & _)
    end.
    rewrite (bind_run _ _ _ _ _ CA).
    rewrite (bind_run _ _ _ _ (votes, weights)) by (rewrite I; reflexivity).
    rewrite T. rewrite <- app_assoc. cbn [app].
    rewrite (bind_run _ _ _ _ _ (forecast_into_run (lists w) _ _ c' _ _ _)).
    unfold bind, read_list, ret. cbn [lists]. rewrite deref_second.
    exists rate. do 2 eexists.
    split; [reflexivity|].
    cbn [sentiment_indicators sentiment_score predictions].
    unfold shown_curve, legacy_curve. rewrite Ind. auto.
Qed.

End PathA.

(** ** sentiment_analyzer: [analyze] as a whole *)

Lemma days_length : length days = 14%nat.
Proof. reflexivity. Qed.

Lemma days_nth (d : nat) : (1 <= d <= 14)%nat -> nth (d - 1) days 0%nat = d.
Proof. intro H. unfold days. rewrite seq_nth by lia. lia. Qed.

Lemma shown_curve_length (symbol : string) (rate : Q) (stored : list Q) :
  length (shown_curve symbol rate stored) = length stored.
Proof.
  unfold shown_curve. destruct (is_indian_stock symbol);
    rewrite ?length_map; reflexivity.
Qed.

Lemma shown_curve_nth (symbol : string) (rate : Q) (stored : list Q)
    (i : nat) :
  (i < length stored)%nat ->
  nth i (shown_curve symbol rate stored) 0
  = round (converted symbol rate (nth i stored 0)) 2.
Proof.
  intro H. unfold shown_curve, converted.
  destruct (is_indian_stock symbol).
  - rewrite (nth_map_in_range _ _ i 0 0) by exact H. reflexivity.
  - rewrite (nth_map_in_range _ _ i 0 0) by (rewrite length_map; exact H).
    rewrite (nth_map_in_range _ _ i 0 0) by exact H. reflexivity.
Qed.

Lemma score_curve_nth (current_price total_impact : Q) (d : nat) :
  (1 <= d <= 14)%nat ->
  nth (d - 1) (score_curve current_price total_impact) 0
  = round (current_price
           * (1 + total_impact * (1 - inject_Z (Z.of_nat d) * 0.04))) 2.
Proof.
  intro H. unfold score_curve.
  rewrite (nth_map_in_range _ _ (d - 1) 0%nat 0) by (rewrite days_length; lia).
  rewrite days_nth by exact H. reflexivity.
Qed.

Lemma score_of_bounds (p n : Q) : 0 <= score_of p n <= 100.
Proof.
  unfold score_of.
  destruct (Q.max_spec 0 (Qmin 100 ((p - n) * 100 + 50))) as [[A M] | [A M]];
    destruct (Q.min_spec 100 ((p - n) * 100 + 50)) as [[B m] | [B m]];
    rewrite M; rewrite ?m in *; split; lra.
Qed.

Section AnalyzeFacts.

Variable sqrt : Q -> Q.
Variable TextBlob_polarity : string -> res Q.

(** [analyze] once [info] and the history have been fetched: the path's
    result wrapped as success, or its exception wrapped as failure. *)
Lemma analyze_of_path (e : env) (symbol : string)
    (news_articles : list article) (i : info_dict) (hist : list bar)
    (w : world) :
  analyze sqrt TextBlob_polarity e symbol news_articles (Ok i) (Ok hist) w
  = match
      match news_articles with
      | [] => path_B e symbol (market_stats sqrt i hist) hist w
      | _ :: _ =>
          path_A sqrt TextBlob_polarity e symbol (market_stats sqrt i hist)
                 hist news_articles w
      end
    with
    | (Ok r, w') => (Success r, w')
    | (Raise x, w') => (Failure (Str x), w')
    end.
Proof.
  unfold analyze, try_except, analyze_body, bind, lift, ret.
  destruct news_articles;
    match goal with
    | |- context [match ?m w with _ => _ end] => destruct (m w) as [[r | x] w']
    end; reflexivity.
Qed.

Lemma raises_later {S A B : Type} (m : M S A) (k : A -> M S B) :
  (forall a, certainly_raises (k a)) -> certainly_raises (bind m k).
Proof.
  intros H s. unfold bind. destruct (m s) as [[a | x] s1].
  - apply H.
  - do 2 eexists. reflexivity.
Qed.

Lemma raises_now {S A B : Type} (x : exn) (k : A -> M S B) :
  certainly_raises (bind (lift (Raise x)) k).
Proof. intro s. do 2 eexists. reflexivity. Qed.

Lemma path_B_empty_history (e : env) (symbol : string) (s : stats) :
  certainly_raises (path_B e symbol s []).
Proof. unfold path_B. apply raises_now. Qed.

Lemma path_A_empty_history (e : env) (symbol : string) (s : stats)
    (news_articles : list article) :
  certainly_raises
    (path_A sqrt TextBlob_polarity e symbol s [] news_articles).
Proof.
  unfold path_A.
  do 6 (apply raises_later; intro).
  apply raises_now.
Qed.

End AnalyzeFacts.

(** C8, where the code parts from it.  Whatever the news, the symbol, the
    quote in [info] and the exchange-rate sources, an empty price history
    makes [analyze] answer {success: False, message}: the defaults of lines
    288-295 are set, but [recent_prices.iloc[0]] (line 386 or 647) then
    indexes the empty frame. *)
Theorem analyze_fails_on_an_empty_history :
  forall (sqrt : Q -> Q) (TextBlob_polarity : string -> res Q) (e : env)
         (symbol : string) (news_articles : list article)
         (info : res info_dict) (w : world),
  exists x : exn,
    fst (analyze sqrt TextBlob_polarity e symbol news_articles info (Ok []) w)
    = Failure (Str x).
Proof.
  intros sqrt tb e symbol news info w.
  destruct info as [i | x]; [|exists x; reflexivity].
  rewrite analyze_of_path.
  destruct news as [|a rest].
  - destruct (path_B_empty_history e symbol (market_stats sqrt i []) w)
      as (x & w' & E).
    rewrite E. exists x. reflexivity.
  - destruct (path_A_empty_history sqrt tb e symbol (market_stats sqrt i [])
                                   (a :: rest) w) as (x & w' & E).
    rewrite E. exists x. reflexivity.
Qed.

(** With at least one bar, [analyze] does degrade gracefully: it succeeds,
    unless there are articles and the only price it has is a plain zero
    from [info]. *)
Lemma analyze_succeeds_on_a_non_empty_history :
  forall (sqrt : Q -> Q) (TextBlob_polarity : string -> res Q) (e : env)
         (symbol : string) (news_articles : list article) (i : info_dict)
         (hist : list bar) (w : world),
    hist <> [] ->
    news_articles = [] \/ plain_zero_price (market_stats sqrt i hist) = false ->
    exists r : sentiment,
      fst (analyze sqrt TextBlob_polarity e symbol news_articles (Ok i)
                   (Ok hist) w)
      = Success r.
Proof.
  intros sqrt tb e symbol news i hist w NE H.
  rewrite analyze_of_path. destruct news as [|a rest].
  - destruct (path_B_run e symbol (market_stats sqrt i hist) hist w NE)
      as (? & ? & ? & ? & ? & _ & _ & rate & r & w' & E & _).
    rewrite E. exists r. reflexivity.
  - destruct H as [H | H]; [discriminate|].
    destruct (path_A_run sqrt tb e symbol (market_stats sqrt i hist) hist
                         (a :: rest) w ltac:(discriminate) NE H)
      as (? & ? & ? & ? & ? & _ & _ & rate & r & w' & E & _).
    rewrite E. exists r. reflexivity.
Qed.

Example empty_history_without_news :
  fst (analyze sqrt_micro neutral_reader at_midnight indian_symbol []
               (Ok quoted_at_100) (Ok []) fresh_world)
  = Failure (Str IndexError).
Proof. reflexivity. Qed.

Example empty_history_with_news :
  fst (analyze sqrt_micro neutral_reader at_midnight indian_symbol
               one_headline (Ok quoted_at_100) (Ok []) fresh_world)
  = Failure (Str IndexError).
Proof. reflexivity. Qed.

(** A short history with news and no quote in [info]: the quotient of line
    568 divides by a plain zero. *)
Example short_history_without_a_quote :
  fst (analyze sqrt_micro neutral_reader at_midnight indian_symbol
               one_headline
               (Ok {| regularMarketPrice := None; currentPrice := None |})
               (Ok (flat_history 3 100 1000)) fresh_world)
  = Failure (Str ZeroDivisionError).
Proof. vm_compute. reflexivity. Qed.

(** C1, as far as the code does it by design.  Without articles (Path B)
    and with at least one bar of history, [analyze] succeeds and its
    forecast curve has exactly 14 entries; the entry for day d is
    current_price * (1 + total_impact * (1 - 0.04 * d)) rounded to two
    decimals, multiplied by the cached USD-to-INR rate for a symbol without
    an Indian suffix (for an Indian one left as it is), and rounded to two
    decimals again.
    total_impact is the sentiment term (score - 50) / 50 * 0.08, which lies
    within 8 percent, plus the performance term weighted_performance / 100
    * 0.02, on which the code puts no cap. *)
Theorem no_article_forecast_has_14_decaying_entries :
  forall (sqrt : Q -> Q) (TextBlob_polarity : string -> res Q) (e : env)
         (symbol : string) (i : info_dict) (hist : list bar) (w : world),
    hist <> [] ->
    let s := market_stats sqrt i hist in
    exists (r : sentiment) (w' : world) (votes : list vote)
           (weights : list Q) (p n u rate : Q),
      analyze sqrt TextBlob_polarity e symbol [] (Ok i) (Ok hist) w
      = (Success r, w')
      /\ indicators_B s hist = Ok (votes, weights)
      /\ tally votes weights = (p, n, u)
      /\ sentiment_score r = round (score_of p n) 0
      /\ (is_indian_stock symbol = false ->
          USD_TO_INR_RATE (fx w') = Some rate)
      /\ let sentiment_impact := (score_of p n - 50) / 50 * 0.08 in
         let momentum_impact := weighted_performance_of s / 100 * 0.02 in
         let total_impact := sentiment_impact + momentum_impact in
         - 0.08 <= sentiment_impact <= 0.08
         /\ length (predictions r) = 14%nat
         /\ forall d : nat,
              (1 <= d <= 14)%nat ->
              nth (d - 1) (predictions r) 0
              = round
                  (converted symbol rate
                     (round (current_price s
                             * (1 + total_impact
                                    * (1 - inject_Z (Z.of_nat d) * 0.04)))
                            2))
                  2.
Proof.
  intros sqrt tb e symbol i hist w NE s.
  destruct (path_B_run e symbol s hist w NE)
    as (votes & weights & p & n & u & I & T & rate & r & w' & E & _ & S & P
        & R).
  exists r, w', votes, weights, p, n, u, rate.
  split; [rewrite analyze_of_path; fold s; rewrite E; reflexivity|].
  split; [exact I|]. split; [exact T|]. split; [exact S|].
  split; [exact R|].
  cbv zeta. split; [|split].
  - pose proof (score_of_bounds p n) as [B0 B1].
    divide_by_numerals. split; lra.
  - rewrite P, shown_curve_length. unfold score_curve.
    rewrite length_map. apply days_length.
  - intros d Hd. rewrite P.
    rewrite shown_curve_nth
      by (unfold score_curve; rewrite length_map, days_length; lia).
    rewrite score_curve_nth by exact Hd. reflexivity.
Qed.

(** Three flat bars at 100 for an Indian symbol, no articles. *)
Lemma no_article_forecast_witness :
  exists (r : sentiment) (w' : world),
    analyze sqrt_micro neutral_reader at_midnight indian_symbol []
            (Ok quoted_at_100) (Ok (flat_history 3 100 1000)) fresh_world
    = (Success r, w')
    /\ length (predictions r) = 14%nat.
Proof.
  destruct (no_article_forecast_has_14_decaying_entries
              sqrt_micro neutral_reader at_midnight indian_symbol
              quoted_at_100 (flat_history 3 100 1000) fresh_world
              ltac:(discriminate))
    as (r & w' & _ & _ & _ & _ & _ & _ & E & _ & _ & _ & _ & _ & L & _).
  exists r, w'. split; [exact E | exact L].
Defined.

(** C1 as stated fails already without articles.  On three flat bars at 100
    (score 35, total impact -0.024) the entry for day 1 is 97.7 where the
    formula gives 97.696; and after a jump from 10 to 25 the performance
    term is 0.03, above the claimed cap of 2 percent. *)
Lemma forecast_entries_are_rounded_and_momentum_uncapped :
  (exists r : sentiment,
     fst (analyze sqrt_micro neutral_reader at_midnight indian_symbol []
                  (Ok quoted_at_100) (Ok (flat_history 3 100 1000))
                  fresh_world)
     = Success r
     /\ sentiment_score r == 35
     /\ nth 0 (predictions r) 0 == 97.7
     /\ 100 * (1 + ((35 - 50) / 50 * 0.08 + 0 / 100 * 0.02) * (1 - 1 * 0.04))
        == 97.696)
  /\ weighted_performance_of
       (market_stats sqrt_micro quoted_at_100 jump_history) / 100 * 0.02
     == 0.03.
Proof.
  split.
  - eexists. split; [vm_compute; reflexivity|]. numerals.
  - numerals.
Qed.

(** Path A for an Indian symbol: the list the first loop filled is the list
    the caller is shown, and the second loop appends to it.  Thirty flat
    bars at 100 and one article of polarity 0.5 give 28 entries; the first
    is the first loop's 102.42, the fifteenth the score-driven 100.31. *)
Example article_path_returns_28_entries_for_an_indian_symbol :
  exists r : sentiment,
    fst (analyze sqrt_micro upbeat_reader at_midnight indian_symbol
                 one_headline (Ok quoted_at_100)
                 (Ok (flat_history 30 100 1000)) fresh_world)
    = Success r
    /\ length (predictions r) = 28%nat
    /\ nth 0 (predictions r) 0 == 102.42
    /\ nth 14 (predictions r) 0 == 100.31.
Proof. eexists. split; [vm_compute; reflexivity|]. numerals. Qed.

(** Path A for a symbol priced in dollars: the caller is shown the
    converted copy taken before the second loop, so all 14 entries are the
    first loop's (102.42 * 83.5 on day 1), none the score-driven ones. *)
Example article_path_returns_the_first_loop_for_a_usd_symbol :
  exists r : sentiment,
    fst (analyze sqrt_micro upbeat_reader at_midnight usd_symbol
                 one_headline (Ok quoted_at_100)
                 (Ok (flat_history 30 100 1000)) fresh_world)
    = Success r
    /\ length (predictions r) = 14%nat
    /\ nth 0 (predictions r) 0 == 102.42 * 83.5.
Proof. eexists. split; [vm_compute; reflexivity|]. numerals. Qed.

(** The same for every input of Path A that reaches the end. *)
Lemma article_path_forecast :
  forall (sqrt : Q -> Q) (TextBlob_polarity : string -> res Q) (e : env)
         (symbol : string) (news_articles : list article) (i : info_dict)
         (hist : list bar) (w : world),
    news_articles <> [] ->
    hist <> [] ->
    plain_zero_price (market_stats sqrt i hist) = false ->
    exists (r : sentiment) (w' : world),
      analyze sqrt TextBlob_polarity e symbol news_articles (Ok i) (Ok hist) w
      = (Success r, w')
      /\ length (predictions r)
         = if is_indian_stock symbol then 28%nat else 14%nat.
Proof.
  intros sqrt tb e symbol news i hist w NN NE NZ.
  destruct (path_A_run sqrt tb e symbol (market_stats sqrt i hist) hist news w
                       NN NE NZ)
    as (votes & weights & p & n & u & _ & _ & rate & r & w' & E & _ & _ & P).
  exists r, w'. split.
  - rewrite analyze_of_path. destruct news; [congruence|].
    rewrite E. reflexivity.
  - rewrite P, shown_curve_length.
    destruct (is_indian_stock symbol);
      unfold stored_curve_A, legacy_curve, score_curve;
      rewrite ?length_app, !length_map, days_length; reflexivity.
Qed.

(** C9, as the code has it.  No normalisation step exists.  Whenever
    [analyze] has a non-empty history (and, with articles, a price that is
    not a plain zero) it succeeds, and its indicator votes and weights are
    the two lists of its path.  Path B's five weights are constants that add
    up to 1.  Path A's weights are the article weight
    min(article_count / 20, 1) * 0.4 and the constants 0.15, 0.15, 0.10,
    0.10: they add up to 0.5 plus the article weight, which is more than 0.5
    and at most 0.9.  On both paths the tally adds, per vote, the weights of
    the indicators that cast it, and the returned sentiment_score is
    max(0, min(100, (positive - negative) * 100 + 50)) rounded to an
    integer. *)
Theorem indicator_weights_sum_and_score :
  forall (sqrt : Q -> Q) (TextBlob_polarity : string -> res Q) (e : env)
         (symbol : string) (news_articles : list article) (i : info_dict)
         (hist : list bar) (w : world),
    hist <> [] ->
    news_articles = [] \/ plain_zero_price (market_stats sqrt i hist) = false ->
    let s := market_stats sqrt i hist in
    let sentiments := polarities TextBlob_polarity news_articles in
    exists (r : sentiment) (w' : world) (votes : list vote)
           (weights : list Q) (p n u : Q),
      analyze sqrt TextBlob_polarity e symbol news_articles (Ok i) (Ok hist) w
      = (Success r, w')
      /\ sentiment_indicators r = votes
      /\ tally votes weights = (p, n, u)
      /\ p == weight_of positive votes weights
      /\ n == weight_of negative votes weights
      /\ sentiment_score r = round (Qmax 0 (Qmin 100 ((p - n) * 100 + 50))) 0
      /\ (news_articles = [] ->
          indicators_B s hist = Ok (votes, weights) /\ sum weights == 1)
      /\ (news_articles <> [] ->
          indicators_A s hist sentiments
                       (mean_polarity TextBlob_polarity news_articles)
          = Ok (votes, weights)
          /\ sum weights
             == Qmin (len sentiments / 20) 1 * 0.4
                + (0.15 + 0.15 + 0.10 + 0.10)
          /\ 0.5 < sum weights /\ sum weights <= 0.9).
Proof.
  intros sqrt tb e symbol news i hist w NE H s sentiments.
  destruct news as [|a rest].
  - destruct (path_B_run e symbol s hist w NE)
      as (votes & weights & p & n & u & I & T & rate & r & w' & E & V & S & _).
    exists r, w', votes, weights, p, n, u.
    destruct (indicator_lists_weight_sums s hist [] 0) as (B & _ & Sc).
    destruct (Sc votes weights p n u T) as (P & N & _).
    split; [rewrite analyze_of_path; fold s; rewrite E; reflexivity|].
    split; [exact V|]. split; [exact T|]. split; [exact P|].
    split; [exact N|]. split; [exact S|].
    split; [intros _; split; [exact I | apply (B votes weights I)]|].
    intro C. congruence.
  - destruct H as [H | H]; [discriminate|].
    assert (NN : a :: rest <> []) by discriminate.
    destruct (path_A_run sqrt tb e symbol s hist (a :: rest) w NN NE H)
      as (votes & weights & p & n & u & I & T & rate & r & w' & E & V & S & _).
    exists r, w', votes, weights, p, n, u.
    destruct (indicator_lists_weight_sums
                s hist sentiments (mean_polarity tb (a :: rest)))
      as (_ & A & Sc).
    destruct (Sc votes weights p n u T) as (P & N & _).
    split; [rewrite analyze_of_path; fold s; rewrite E; reflexivity|].
    split; [exact V|]. split; [exact T|]. split; [exact P|].
    split; [exact N|]. split; [exact S|].
    split; [intro C; discriminate|].
    intros _. split; [exact I|].
    apply (A votes weights); [discriminate | exact I].
Qed.

(** The statement above for thirty flat bars at 100, an Indian symbol and
    two articles of polarity 0.5. *)
Lemma indicator_weights_witness :
  exists (r : sentiment) (w' : world) (weights : list Q),
    analyze sqrt_micro upbeat_reader at_midnight indian_symbol two_headlines
            (Ok quoted_at_100) (Ok (flat_history 30 100 1000)) fresh_world
    = (Success r, w')
    /\ indicators_A (market_stats sqrt_micro quoted_at_100
                                  (flat_history 30 100 1000))
                    (flat_history 30 100 1000)
                    (polarities upbeat_reader two_headlines)
                    (mean_polarity upbeat_reader two_headlines)
       = Ok (sentiment_indicators r, weights)
    /\ 0.5 < sum weights /\ sum weights <= 0.9.
Proof.
  destruct (indicator_weights_sum_and_score
              sqrt_micro upbeat_reader at_midnight indian_symbol two_headlines
              quoted_at_100 (flat_history 30 100 1000) fresh_world
              ltac:(discriminate) ltac:(right; reflexivity))
    as (r & w' & votes & weights & p & n & u & E & V & _ & _ & _ & _ & _ & A).
  destruct (A ltac:(discriminate)) as (I & _ & Lo & Hi).
  exists r, w', weights. rewrite V.
  split; [exact E|]. split; [exact I|]. split; [exact Lo | exact Hi].
Defined.

(** C9 as stated fails: with two articles, the fewest that
    [get_stock_news] hands over, [analyze] succeeds on Path A and the
    weights of its indicators are 0.04, 0.15, 0.15, 0.10 and 0.10, which
    add up to 0.54. *)
Lemma article_path_weights_do_not_sum_to_one :
  exists (r : sentiment) (w' : world) (weights : list Q),
    analyze sqrt_micro upbeat_reader at_midnight indian_symbol two_headlines
            (Ok quoted_at_100) (Ok (flat_history 30 100 1000)) fresh_world
    = (Success r, w')
    /\ indicators_A (market_stats sqrt_micro quoted_at_100
                                  (flat_history 30 100 1000))
                    (flat_history 30 100 1000)
                    (polarities upbeat_reader two_headlines)
                    (mean_polarity upbeat_reader two_headlines)
       = Ok (sentiment_indicators r, weights)
    /\ Forall2 Qeq weights [0.04; 0.15; 0.15; 0.10; 0.10]
    /\ sum weights == 0.54
    /\ ~ sum weights == 1.
Proof.
  eexists. eexists. eexists. split; [vm_compute; reflexivity|].
  split; [vm_compute; reflexivity|].
  split; [vm_compute; repeat constructor|]. numerals.
Qed.


(* ================================================================== *)
(** * Part IV: further properties of the code *)
(* ================================================================== *)

(** ** Rounding is monotone *)

Lemma round_half_even_near (x : Q) :
  x - (1 # 2) <= inject_Z (round_half_even x)
  /\ inject_Z (round_half_even x) <= x + (1 # 2).
Proof.
  pose proof (Qfloor_le x) as Lo. pose proof (Qlt_floor x) as Hi.
  rewrite inject_Z_plus in Hi. change (inject_Z 1) with 1 in Hi.
  unfold round_half_even.
  destruct (Qcompare (x - inject_Z (Qfloor x)) (1 # 2)) eqn:C.
  - apply Qeq_alt in C.
    destruct (Z.even _); rewrite ?inject_Z_plus;
      change (inject_Z 1) with 1; split; lra.
  - apply Qlt_alt in C. split; lra.
  - apply Qgt_alt in C. rewrite inject_Z_plus. change (inject_Z 1) with 1.
    split; lra.
Qed.

Lemma round_half_even_monotone (x y : Q) :
  x <= y -> (round_half_even x <= round_half_even y)%Z.
Proof.
  intro L.
  destruct (Z_le_gt_dec (round_half_even x) (round_half_even y)) as [|G];
    [assumption|exfalso].
  pose proof (round_half_even_near x) as [_ Ux].
  pose proof (round_half_even_near y) as [Ly _].
  assert (S : (round_half_even y + 1 <= round_half_even x)%Z) by lia.
  rewrite Zle_Qle, inject_Z_plus in S. change (inject_Z 1) with 1 in S.
  assert (E : x == y) by lra.
  rewrite (round_half_even_comp x y E) in G. lia.
Qed.

Lemma round_monotone (x y : Q) (ndigits : nat) :
  x <= y -> round x ndigits <= round y ndigits.
Proof.
  intro L. unfold round. pose proof (pow10_positive ndigits) as P.
  apply Qmult_le_compat_r; [|apply Qlt_le_weak, Qinv_lt_0_compat; exact P].
  rewrite <- Zle_Qle. apply round_half_even_monotone. nra.
Qed.

(** A number with at most [ndigits] decimals is its own rounding. *)
Lemma round_half_even_of_integer (k : Z) : round_half_even (inject_Z k) = k.
Proof.
  apply Z.le_antisymm.
  - apply round_half_even_le. lra.
  - apply round_half_even_ge. lra.
Qed.

Lemma round_exact (k : Z) (ndigits : nat) (q : Q) :
  q == inject_Z k / pow10 ndigits -> round q ndigits == q.
Proof.
  intro E. pose proof (pow10_positive ndigits) as P. unfold round.
  rewrite (round_half_even_comp (q * pow10 ndigits) (inject_Z k)).
  - rewrite round_half_even_of_integer, E. reflexivity.
  - rewrite E. field. lra.
Qed.

Lemma sane_is_truthy (rate : Q) :
  sanity_check rate = true -> truthy rate = true.
Proof.
  intro S. apply sanity_check_band in S. unfold truthy.
  destruct (Qeq_bool rate 0) eqn:Z; [|reflexivity].
  apply Qeq_bool_iff in Z. lra.
Qed.

Lemma guarded_sanity (rate : Q) :
  truthy rate && sanity_check rate = sanity_check rate.
Proof.
  destruct (sanity_check rate) eqn:S.
  - rewrite (sane_is_truthy rate S). reflexivity.
  - apply andb_false_r.
Qed.

Lemma fetch_is_first_offer (net : sources) :
  fetch_live_exchange_rate net = Ok (hd fallback_rate (offers net)).
Proof.
  unfold fetch_live_exchange_rate, offers, quoted, sane.
  destruct (yahoo_USDINR net) as [| |r1], (yahoo_INR net) as [| |r2],
    (exchangerate_api net) as [| |r3], (frankfurter net) as [| |r4];
    cbn [app flat_map map]; rewrite ?guarded_sanity;
    repeat match goal with
           | |- context [sanity_check ?r] => destruct (sanity_check r)
           end;
    reflexivity.
Qed.

Lemma offers_are_sane (net : sources) :
  Forall (fun rate => 70 < rate /\ rate < 100) (offers net).
Proof.
  unfold offers. apply Forall_flat_map, Forall_forall. intros rate _.
  unfold sane. destruct (sanity_check rate) eqn:S; constructor.
  - apply sanity_check_band. exact S.
  - constructor.
Qed.

(** X1.  [fetch_live_exchange_rate] answers with the first rate on offer:
    the sources are asked in the order USDINR=X, the inverse of INR=X,
    exchangerate-api, frankfurter, a rate counts only when it lies strictly
    between 70 and 100, and 83 is the answer exactly when nothing is on
    offer. *)
Theorem first_sane_source_wins :
  forall net : sources,
    fetch_live_exchange_rate net = Ok (hd fallback_rate (offers net))
    /\ Forall (fun rate => 70 < rate /\ rate < 100) (offers net)
    /\ (offers net = [] -> fetch_live_exchange_rate net = Ok 83).
Proof.
  intro net. split; [apply fetch_is_first_offer|].
  split; [apply offers_are_sane|].
  intro E. rewrite fetch_is_first_offer, E. reflexivity.
Qed.

(** X2.  A cached rate is served unchanged, without asking any source, as
    long as the clock shows at most 3600 seconds more than the last update;
    later the sources are asked, the first rate on offer replaces the cached
    one and the update time becomes the clock reading. *)
Theorem cached_rate_is_good_for_an_hour :
  forall (net : sources) (current_time : Q) (c : cache) (rate last : Q),
    USD_TO_INR_RATE c = Some rate ->
    LAST_RATE_UPDATE c = Some last ->
    (current_time - last <= 3600 ->
     get_usd_to_inr_rate net current_time c = (Some rate, c))
    /\ (3600 < current_time - last ->
        get_usd_to_inr_rate net current_time c
        = (Some (hd fallback_rate (offers net)),
           {| USD_TO_INR_RATE := Some (hd fallback_rate (offers net));
              LAST_RATE_UPDATE := Some current_time |})).
Proof.
  intros net t c rate last R L.
  unfold get_usd_to_inr_rate, should_update. rewrite R, L.
  split; intro Age.
  - by_cases_on_test (Qgtb (t - last) 3600); [lra | reflexivity].
  - by_cases_on_test (Qgtb (t - last) 3600); [|lra].
    rewrite fetch_is_first_offer. reflexivity.
Qed.

Lemma cached_rate_witness :
  get_usd_to_inr_rate quiet_sources 1800 hour_old_cache
  = (Some 84.25, hour_old_cache)
  /\ get_usd_to_inr_rate quiet_sources 3601 hour_old_cache
     = (Some 83.50,
        {| USD_TO_INR_RATE := Some 83.50; LAST_RATE_UPDATE := Some 3601 |}).
Proof.
  destruct (cached_rate_is_good_for_an_hour
              quiet_sources 1800 hour_old_cache 84.25 0 eq_refl eq_refl)
    as [Fresh _].
  destruct (cached_rate_is_good_for_an_hour
              quiet_sources 3601 hour_old_cache 84.25 0 eq_refl eq_refl)
    as [_ Stale].
  split; [apply Fresh | apply Stale]; vm_compute; congruence.
Defined.

(** ** Symbols with an Indian suffix *)

Lemma upper_app (a b : string) :
  upper (a ++ b) = (upper a ++ upper b)%string.
Proof.
  induction a as [|ch a IH]; simpl.
  - reflexivity.
  - rewrite IH. reflexivity.
Qed.

Lemma length_app_string (a b : string) :
  String.length (a ++ b) = (String.length a + String.length b)%nat.
Proof.
  induction a as [|ch a IH]; simpl.
  - reflexivity.
  - rewrite IH. reflexivity.
Qed.

Lemma substring_whole (b : string) : substring 0 (String.length b) b = b.
Proof.
  induction b as [|ch b IH]; simpl.
  - reflexivity.
  - rewrite IH. reflexivity.
Qed.

Lemma substring_after (a b : string) :
  substring (String.length a) (String.length b) (a ++ b) = b.
Proof.
  induction a as [|ch a IH]; simpl.
  - apply substring_whole.
  - exact IH.
Qed.

Lemma endswith_app (a b : string) : endswith (a ++ b) b = true.
Proof.
  unfold endswith. rewrite length_app_string.
  replace (String.length a + String.length b - String.length b)%nat
    with (String.length a) by lia.
  rewrite substring_after, String.eqb_refl, andb_true_r.
  apply Nat.leb_le. lia.
Qed.

(** X3.  The Indian suffixes are recognised in any letter case and after
    any stem, and for such a symbol neither conversion asks for a rate:
    the price comes back as it is, the list comes back as the same object,
    and the cache and the store of lists stay as they were. *)
Theorem indian_symbols_are_never_converted :
  forall (stem suffix : string) (e : env) (price : Q) (prices : ref)
         (w : world),
    In (upper suffix) indian_suffixes ->
    is_indian_stock (stem ++ suffix) = true
    /\ convert_price_to_inr e price (stem ++ suffix) w = (Ok price, w)
    /\ convert_prices_array_to_inr e prices (stem ++ suffix) w
       = (Ok prices, w).
Proof.
  intros stem suffix e price prices w S.
  assert (I : is_indian_stock (stem ++ suffix) = true).
  { unfold is_indian_stock. apply existsb_exists.
    exists (upper suffix). split; [exact S|].
    rewrite upper_app. apply endswith_app. }
  split; [exact I|]. split.
  - unfold convert_price_to_inr. rewrite I. reflexivity.
  - apply convert_prices_run_indian. exact I.
Qed.

Lemma indian_symbols_witness :
  is_indian_stock "reliance.ns" = true
  /\ convert_price_to_inr at_midnight 2500 "reliance.ns" fresh_world
     = (Ok 2500, fresh_world).
Proof.
  destruct (indian_symbols_are_never_converted
              "reliance" ".ns" at_midnight 2500 0%nat fresh_world
              ltac:(vm_compute; tauto))
    as (I & P & _).
  split; [exact I | exact P].
Defined.

(** ** One list under two names *)

Lemma heap_split (h : heap) (r : ref) :
  (r < length h)%nat ->
  exists before after,
    h = before ++ deref r h :: after /\ length before = r.
Proof.
  intro L. unfold deref.
  destruct (nth_split h [] L) as (before & after & E & Len).
  exists before, after. split; assumption.
Qed.

Lemma append_length (r : ref) (x : Q) (h : heap) :
  length (append r x h) = length h.
Proof.
  revert r. induction h as [|l h IH]; intro r; destruct r;
    cbn [append length]; rewrite ?IH; reflexivity.
Qed.

Lemma append_before_last (r : ref) (x : Q) (h : heap) (m : list Q) :
  (r < length h)%nat -> append r x (h ++ [m]) = append r x h ++ [m].
Proof.
  revert r. induction h as [|l h IH]; intros r L; cbn [length] in L; [lia|].
  destruct r; cbn [append app]; [reflexivity|].
  rewrite IH by lia. reflexivity.
Qed.

Lemma deref_fresh (h : heap) (m : list Q) (r : ref) (x : Q) :
  (r < length h)%nat ->
  deref (length h) (append r x (h ++ [m])) = m.
Proof.
  intro L. rewrite append_before_last by exact L.
  rewrite <- (append_length r x h). apply deref_last.
Qed.

(** X4.  [convert_prices_array_to_inr] hands back the list it was given
    for an Indian symbol, and a new list otherwise.  Either way the list
    passed in is left as it was; but a later [append] to it shows through
    the returned name exactly for an Indian symbol. *)
Theorem converted_list_is_an_alias_for_indian_symbols_only :
  forall (e : env) (prices : ref) (symbol : string) (w : world) (x : Q),
    (prices < length (lists w))%nat ->
    exists (returned : ref) (w' : world),
      convert_prices_array_to_inr e prices symbol w = (Ok returned, w')
      /\ deref prices (lists w') = deref prices (lists w)
      /\ (returned = prices <-> is_indian_stock symbol = true)
      /\ deref returned (append prices x (lists w'))
         = if is_indian_stock symbol
           then deref prices (lists w) ++ [x]
           else deref returned (lists w').
Proof.
  intros e prices symbol w x L.
  destruct (heap_split (lists w) prices L) as (before & after & E & Len).
  destruct (is_indian_stock symbol) eqn:I.
  - exists prices, w.
    split; [apply convert_prices_run_indian; exact I|].
    split; [reflexivity|]. split; [tauto|].
    rewrite E at 1. rewrite <- Len at 1 2. rewrite append_at.
    apply deref_at.
  - destruct w as [h c]. cbn [lists] in *.
    destruct (convert_prices_run_foreign
                e symbol before (deref prices h) after c I)
      as (rate & c' & Run & _).
    rewrite Len, <- E in Run.
    do 2 eexists. split; [exact Run|]. cbn [lists].
    split; [|split].
    + unfold deref. apply app_nth1. exact L.
    + split; [lia | discriminate].
    + rewrite deref_fresh by exact L.
      symmetry. apply deref_last.
Qed.

Lemma converted_list_witness :
  exists (returned : ref) (w' : world),
    convert_prices_array_to_inr at_midnight 0%nat usd_symbol one_list_world
    = (Ok returned, w')
    /\ deref 0%nat (lists w') = [100; 101]
    /\ deref returned (append 0%nat 102 (lists w'))
       = deref returned (lists w').
Proof.
  destruct (converted_list_is_an_alias_for_indian_symbols_only
              at_midnight 0%nat usd_symbol one_list_world 102
              ltac:(vm_compute; lia))
    as (returned & w' & Run & Same & _ & After).
  exists returned, w'. split; [exact Run|]. split; [exact Same|exact After].
Defined.

(** ** historical_predictor: windows and labels *)

Lemma nth_map_seq_from {A : Type} (f : nat -> A) (start n i : nat) (d : A) :
  (i < n)%nat -> nth i (map f (seq start n)) d = f (start + i)%nat.
Proof.
  intro L.
  rewrite (nth_map_in_range f _ i 0%nat d) by (rewrite length_seq; lia).
  rewrite seq_nth by exact L. reflexivity.
Qed.

(** X5.  [create_sequences] makes one window per row from row [L] on:
    window [i] is the [L] rows [i], ..., [i + L - 1] and its label is column
    0 (the close) of row [i + L], the row right after it. *)
Theorem create_sequences_pairs_each_window_with_the_next_close :
  forall (data : list (list Q)) (L : nat),
    let X := fst (create_sequences data L) in
    let y := snd (create_sequences data L) in
    length X = (length data - L)%nat
    /\ length y = length X
    /\ forall i : nat,
         (i < length data - L)%nat ->
         nth i X [] = firstn L (skipn i data)
         /\ length (nth i X []) = L
         /\ nth i y 0 = nth 0 (nth (i + L) data []) 0.
Proof.
  intros data L X y. unfold X, y, create_sequences. cbn [fst snd].
  rewrite !length_map, length_seq.
  split; [reflexivity|]. split; [reflexivity|].
  intros i Hi.
  rewrite !nth_map_seq_from by exact Hi.
  replace (L + i - L)%nat with i by lia.
  replace (L + i)%nat with (i + L)%nat by lia.
  split; [reflexivity|]. split; [|reflexivity].
  rewrite length_firstn, length_skipn. lia.
Qed.

(** ** historical_predictor: the rows [prepare_features] keeps *)

Lemma kept_rows_are {A : Type} (f : nat -> option A) (k n : nat) :
  (forall i, (i < n)%nat -> (f i = None <-> (i < k)%nat)) ->
  map Some
      (flat_map (fun i => match f i with Some r => [r] | None => [] end)
                (seq 0 n))
  = map f (seq k (n - k)).
Proof.
  induction n as [|n IH]; intro H.
  - reflexivity.
  - rewrite seq_S, flat_map_app, map_app. cbn [flat_map Nat.add].
    rewrite IH by (intros i Hi; apply H; lia).
    destruct (f n) as [r|] eqn:E.
    + assert (G : ~ (n < k)%nat)
        by (intro L; apply H in L; [congruence | lia]).
      replace (S n - k)%nat with (S (n - k)) by lia.
      rewrite seq_S, (map_app f).
      replace (k + (n - k))%nat with n by lia.
      cbn [map app]. rewrite E. reflexivity.
    + assert (L : (n < k)%nat) by (apply H; [lia | exact E]).
      replace (S n - k)%nat with 0%nat by lia.
      replace (n - k)%nat with 0%nat by lia. reflexivity.
Qed.

Lemma row_of_some_all (f : frame) (i : nat) (r : features) :
  row_of f i = Some r ->
  nth i (col_Close f) None = Some (row_Close r)
  /\ nth i (col_Volume f) None = Some (row_Volume r)
  /\ nth i (col_MA_7 f) None = Some (MA_7 r)
  /\ nth i (col_MA_21 f) None = Some (MA_21 r)
  /\ nth i (col_MA_50 f) None = Some (MA_50 r)
  /\ nth i (col_BB_Middle f) None = Some (BB_Middle r)
  /\ nth i (col_BB_Upper f) None = Some (BB_Upper r)
  /\ nth i (col_BB_Lower f) None = Some (BB_Lower r)
  /\ nth i (col_Volume_MA f) None = Some (Volume_MA r)
  /\ nth i (col_Volume_Ratio f) None = Some (Volume_Ratio r)
  /\ nth i (col_Momentum f) None = Some (Momentum r).
Proof.
  unfold row_of. intro H.
  repeat match type of H with
         | context [match nth i ?c None with _ => _ end] =>
             destruct (nth i c None); [|discriminate H]
         end.
  injection H as <-. simpl. repeat split.
Qed.

Section KeptRows.

Variable sqrt : Q -> Q.

(** Row [k] of the feature matrix is row [49 + k] of the frame. *)
Lemma kept_row_nth (df : list bar) (k : nat) :
  (k < length df - 49)%nat ->
  exists r : features,
    nth_error (prepare_features sqrt df) k = Some r
    /\ row_of (add_columns sqrt df) (49 + k) = Some r.
Proof.
  intro Hk.
  assert (E : map Some (prepare_features sqrt df)
              = map (row_of (add_columns sqrt df))
                    (seq 49 (length df - 49))).
  { unfold prepare_features, dropna.
    replace (length (col_Close (add_columns sqrt df))) with (length df)
      by (unfold add_columns; cbn [col_Close]; column_lengths).
    apply kept_rows_are. intros i Hi.
    apply row_dropped_iff_before_50. exact Hi. }
  assert (N : nth k (map Some (prepare_features sqrt df)) None
              = row_of (add_columns sqrt df) (49 + k)).
  { rewrite E. apply nth_map_seq_from. exact Hk. }
  destruct (nth_error (prepare_features sqrt df) k) as [r|] eqn:R.
  - exists r. split; [reflexivity|].
    rewrite <- N.
    rewrite (nth_map_in_range Some _ k r None)
      by (apply nth_error_Some; congruence).
    rewrite (nth_error_nth _ _ r R). reflexivity.
  - apply nth_error_None in R.
    rewrite (prepare_features_length sqrt) in R. lia.
Qed.

End KeptRows.

(** X6.  [prepare_features] drops the first 49 bars and nothing else: the
    feature matrix has one row per later bar, in order, and row [k] carries
    the close and the volume of bar [49 + k]. *)
Theorem feature_rows_are_the_bars_from_the_50th_on :
  forall (sqrt : Q -> Q) (df : list bar),
    length (prepare_features sqrt df) = (length df - 49)%nat
    /\ map row_Close (prepare_features sqrt df) = skipn 49 (map Close df)
    /\ map row_Volume (prepare_features sqrt df) = skipn 49 (map Volume df).
Proof.
  intros sqrt df.
  pose proof (prepare_features_length sqrt df) as Len.
  split; [exact Len|].
  split; apply (nth_ext _ _ 0 0);
    rewrite ?length_map, ?length_skipn, ?length_map; try exact Len;
    intros k Hk; rewrite Len in Hk;
    destruct (kept_row_nth sqrt df k Hk) as (r & R & Row);
    apply row_of_some_all in Row;
    destruct Row as (C & V & _);
    unfold add_columns in C, V; cbn [col_Close col_Volume] in C, V;
    rewrite nth_skipn.
  - rewrite (nth_map_in_range row_Close _ k r 0)
      by (apply nth_error_Some; congruence).
    rewrite (nth_error_nth _ _ r R).
    rewrite (nth_map_in_range Some _ _ 0 None) in C
      by (rewrite length_map; lia).
    congruence.
  - rewrite (nth_map_in_range row_Volume _ k r 0)
      by (apply nth_error_Some; congruence).
    rewrite (nth_error_nth _ _ r R).
    rewrite (nth_map_in_range Some _ _ 0 None) in V
      by (rewrite length_map; lia).
    congruence.
Qed.

(** X7.  What row [k] of the feature matrix holds, for bar [i = 49 + k]:
    the moving averages are the means of the 7 and 50 closes ending at bar
    [i]; the momentum is the close minus the close ten bars earlier; the
    Bollinger bands lie two standard deviations (of the 20 closes ending at
    [i]) above and below the middle band, so they are symmetric about it;
    and the volume ratio divides by the 20-bar volume average, or by 1 when
    that average is zero. *)
Theorem feature_row_holds_the_indicators_of_its_bar :
  forall (sqrt : Q -> Q) (df : list bar) (k : nat),
    (k < length df - 49)%nat ->
    exists r : features,
      nth_error (prepare_features sqrt df) k = Some r
      /\ let i := (49 + k)%nat in
         let close := map Close df in
         let spread := std sqrt (firstn 20 (skipn (i + 1 - 20) close)) in
         MA_7 r = mean (firstn 7 (skipn (i + 1 - 7) close))
         /\ MA_50 r = mean (firstn 50 (skipn (i + 1 - 50) close))
         /\ Momentum r = nth i close 0 - nth (i - 10) close 0
         /\ BB_Middle r = mean (firstn 20 (skipn (i + 1 - 20) close))
         /\ BB_Upper r = BB_Middle r + spread * 2
         /\ BB_Lower r = BB_Middle r - spread * 2
         /\ BB_Upper r + BB_Lower r == 2 * BB_Middle r
         /\ Volume_Ratio r
            = nth i (map Volume df) 0
              / (if Qeq_bool (Volume_MA r) 0 then 1 else Volume_MA r).
Proof.
  intros sqrt df k Hk.
  destruct (kept_row_nth sqrt df k Hk) as (r & R & Row).
  exists r. split; [exact R|].
  apply row_of_some_all in Row.
  destruct Row as (_ & _ & M7 & _ & M50 & BM & BU & BL & VM & VR & Mo).
  unfold add_columns in M7, M50, BM, BU, BL, VM, VR, Mo.
  cbn [col_MA_7 col_MA_50 col_BB_Middle col_BB_Upper col_BB_Lower
       col_Volume_MA col_Volume_Ratio col_Momentum] in M7, M50, BM, BU, BL,
    VM, VR, Mo.
  assert (In_range : (49 + k < length df)%nat) by lia.
  rewrite rolling_nth in M7, M50, BM, VM by column_lengths.
  rewrite col_zip_nth in BU, BL, VR, Mo by column_lengths.
  rewrite shift_nth in Mo by column_lengths.
  rewrite (nth_map_in_range Some _ _ 0 None) in VR by column_lengths.
  rewrite (nth_map_in_range Some _ _ 0 None) in Mo by column_lengths.
  rewrite (nth_map_in_range (option_map _) _ _ None None) in BU
    by column_lengths.
  rewrite (nth_map_in_range (option_map _) _ _ None None) in BL
    by column_lengths.
  rewrite (nth_map_in_range (replace _ _) _ _ None None) in VR
    by column_lengths.
  rewrite !rolling_nth in BU by column_lengths.
  rewrite !rolling_nth in BL by column_lengths.
  rewrite !rolling_nth in VR by column_lengths.
  replace (7 <=? 49 + k + 1)%nat with true in M7
    by (symmetry; apply Nat.leb_le; lia).
  replace (50 <=? 49 + k + 1)%nat with true in M50
    by (symmetry; apply Nat.leb_le; lia).
  replace (20 <=? 49 + k + 1)%nat with true in BM, BU, BL, VM, VR
    by (symmetry; apply Nat.leb_le; lia).
  replace (10 <=? 49 + k)%nat with true in Mo
    by (symmetry; apply Nat.leb_le; lia).
  cbv beta iota in M7, M50, BM, VM, BU, BL, VR, Mo.
  cbn [lift2 option_map replace] in BU, BL, VR, Mo.
  apply (f_equal (fun o => get o 0)) in M7, M50, BM, BU, BL, VM, VR, Mo.
  cbn [get] in M7, M50, BM, BU, BL, VM, VR, Mo.
  cbv zeta. rewrite <- M7, <- M50, <- Mo, <- BM, <- BU, <- BL, <- VR, <- VM.
  repeat split; try reflexivity. ring.
Qed.

Lemma feature_row_witness :
  exists r : features,
    nth_error (prepare_features sqrt_micro (flat_history 50 100 1000)) 0
    = Some r
    /\ BB_Upper r + BB_Lower r == 2 * BB_Middle r.
Proof.
  destruct (feature_row_holds_the_indicators_of_its_bar
              sqrt_micro (flat_history 50 100 1000) 0
              ltac:(vm_compute; lia))
    as (r & R & _ & _ & _ & _ & _ & _ & S & _).
  exists r. split; [exact R | exact S].
Defined.

(** ** historical_predictor: the scaler *)

Lemma data_range_positive (lo hi : Q) : lo <= hi -> 0 < data_range lo hi.
Proof.
  intro L. unfold data_range.
  destruct (Qeq_bool (hi - lo) 0) eqn:E; [reflexivity|].
  apply Qeq_bool_neq in E. lra.
Qed.

Lemma data_range_not_zero (lo hi : Q) : ~ data_range lo hi == 0.
Proof.
  unfold data_range.
  destruct (Qeq_bool (hi - lo) 0) eqn:E; [discriminate|].
  apply Qeq_bool_neq in E. exact E.
Qed.

(** X8.  Denormalising undoes the scaling of the close column: for every
    row with at least one column, [inverse_transform] applied to the scaled
    close gives the close back, whatever the fitted minimum and maximum
    are (a zero range counts as 1 in both directions). *)
Theorem denormalising_a_scaled_close_gives_the_close_back :
  forall (sc : scaler) (row : list Q),
    row <> [] ->
    inverse_transform_close sc (nth 0 (transform_row sc row) 0)
    == nth 0 row 0.
Proof.
  intros sc row NE. destruct row as [|close rest]; [congruence|].
  unfold inverse_transform_close, transform_row.
  cbn [length seq map nth].
  pose proof (data_range_not_zero (nth 0 (data_min sc) 0)
                                  (nth 0 (data_max sc) 0)) as NZ.
  field. exact NZ.
Qed.

Lemma denormalising_witness :
  match fit_transform two_rows with
  | Ok (sc, scaled) =>
      inverse_transform_close sc (nth 0 (nth 2 scaled []) 0) == 104
  | Raise _ => False
  end.
Proof.
  cbn [fit_transform fit two_rows].
  cbn [map nth].
  apply (denormalising_a_scaled_close_gives_the_close_back _ [104; 8]).
  discriminate.
Defined.

Lemma minimum_is_a_lower_bound (xs : list Q) (x : Q) :
  In x xs -> minimum xs <= x.
Proof.
  unfold minimum. generalize (hd 0 xs) as d.
  induction xs as [|y rest IH]; intros d H; [contradiction|].
  cbn [fold_right]. destruct H as [-> | H].
  - apply Q.le_min_l.
  - eapply Qle_trans; [apply Q.le_min_r | apply IH; exact H].
Qed.

Lemma maximum_is_an_upper_bound (xs : list Q) (x : Q) :
  In x xs -> x <= maximum xs.
Proof.
  unfold maximum. generalize (hd 0 xs) as d.
  induction xs as [|y rest IH]; intros d H; [contradiction|].
  cbn [fold_right]. destruct H as [-> | H].
  - apply Q.le_max_l.
  - eapply Qle_trans; [apply IH; exact H | apply Q.le_max_r].
Qed.

Lemma scaled_entry_in_unit_interval (lo hi x : Q) :
  lo <= x -> x <= hi ->
  0 <= (x - lo) / data_range lo hi /\ (x - lo) / data_range lo hi <= 1.
Proof.
  intros L H.
  pose proof (data_range_positive lo hi ltac:(lra)) as P.
  split.
  - apply Qle_shift_div_l; [exact P | lra].
  - apply Qle_shift_div_r; [exact P|].
    unfold data_range in *.
    destruct (Qeq_bool (hi - lo) 0) eqn:E; [|lra].
    apply Qeq_bool_iff in E. lra.
Qed.

(** X9.  What the network is fed lies in the unit interval: when every row
    has as many columns as the first, each entry of [fit_transform(data)]
    is between 0 and 1, and the scaled array has the shape of [data]. *)
Theorem scaled_features_lie_between_0_and_1 :
  forall (data : list (list Q)) (sc : scaler) (scaled : list (list Q)),
    fit_transform data = Ok (sc, scaled) ->
    Forall (fun row => length row = length (hd [] data)) data ->
    length scaled = length data
    /\ Forall2 (fun row scaled_row => length scaled_row = length row)
               data scaled
    /\ Forall (Forall (fun v => 0 <= v /\ v <= 1)) scaled.
Proof.
  intros data sc scaled F Rect.
  unfold fit_transform in F.
  destruct (fit data) as [sc'|] eqn:Fit; [|discriminate].
  injection F as <- <-.
  unfold fit in Fit. destruct data as [|first rest] eqn:D; [discriminate|].
  rewrite <- D in *. injection Fit as <-.
  split; [apply length_map|]. split.
  - match goal with
    | |- Forall2 _ _ (map (transform_row ?fitted) _) => generalize fitted
    end.
    clear. intro sc. induction data as [|row data IH]; constructor.
    + unfold transform_row. rewrite length_map, length_seq. reflexivity.
    + exact IH.
  - apply Forall_forall. intros scaled_row In_scaled.
    apply in_map_iff in In_scaled. destruct In_scaled as (row & <- & In_row).
    assert (W : length row = length first).
    { rewrite Forall_forall in Rect. rewrite (Rect row In_row), D.
      reflexivity. }
    apply Forall_forall. intros v In_v.
    unfold transform_row in In_v. apply in_map_iff in In_v.
    destruct In_v as (j & <- & In_j). apply in_seq in In_j.
    cbn [data_min data_max].
    rewrite !nth_map_seq by lia.
    assert (C : In (nth j row 0) (column_of j data))
      by (unfold column_of;
          apply (in_map (fun r : list Q => nth j r 0)); exact In_row).
    apply scaled_entry_in_unit_interval.
    + apply minimum_is_a_lower_bound. exact C.
    + apply maximum_is_an_upper_bound. exact C.
Qed.

Lemma scaled_features_witness :
  exists (sc : scaler) (scaled : list (list Q)),
    fit_transform two_rows = Ok (sc, scaled)
    /\ Forall (Forall (fun v => 0 <= v /\ v <= 1)) scaled.
Proof.
  do 2 eexists. split; [reflexivity|].
  eapply (scaled_features_lie_between_0_and_1 two_rows).
  - reflexivity.
  - repeat constructor.
Defined.

(** ** historical_predictor: a run of [predict] that succeeds *)







Section PredictRuns.

Variable sqrt : Q -> Q.
Variable keras_fit : bool -> list window -> list Q -> res (window -> Q).


End PredictRuns.



(** ** sentiment_analyzer: labels and scores of single articles *)

Lemma score_at_least (bound polarity : Q) (k : Z) :
  (bound + 1) * 50 == inject_Z k / pow10 2 ->
  bound <= polarity ->
  (bound + 1) * 50 <= get_sentiment_score polarity.
Proof.
  intros E L. unfold get_sentiment_score.
  pose proof (round_exact k 2 ((bound + 1) * 50) E) as R.
  pose proof (round_monotone ((bound + 1) * 50) ((polarity + 1) * 50) 2
                             ltac:(lra)) as M.
  rewrite R in M. exact M.
Qed.

Lemma score_at_most (bound polarity : Q) (k : Z) :
  (bound + 1) * 50 == inject_Z k / pow10 2 ->
  polarity <= bound ->
  get_sentiment_score polarity <= (bound + 1) * 50.
Proof.
  intros E L. unfold get_sentiment_score.
  pose proof (round_exact k 2 ((bound + 1) * 50) E) as R.
  pose proof (round_monotone ((polarity + 1) * 50) ((bound + 1) * 50) 2
                             ltac:(lra)) as M.
  rewrite R in M. exact M.
Qed.

(** X11.  The label and the score an article gets agree with the bands of
    the docstring of [categorize_sentiment]: a polarity above 0.4 is Very
    Positive with a score of at least 70, one above 0.15 Positive with a
    score from 57.5 to 70, one above -0.15 Neutral (42.5 to 57.5), one above
    -0.4 Negative (30 to 42.5), anything else Very Negative (at most 30);
    polarities from -1 to 1 give scores from 0 to 100; and a title TextBlob
    fails on counts as polarity 0, Neutral, score 50. *)
Theorem article_label_and_score_follow_the_same_bands :
  forall (TextBlob_polarity : string -> res Q) (a : article),
    let polarity := analyze_text_sentiment TextBlob_polarity (title a) in
    let entry := article_entry TextBlob_polarity a in
    let label := ad_sentiment entry in
    let score := ad_score entry in
    (0.4 < polarity -> label = "Very Positive"%string /\ 70 <= score)
    /\ (0.15 < polarity -> polarity <= 0.4 ->
        label = "Positive"%string /\ 57.5 <= score /\ score <= 70)
    /\ (- 0.15 < polarity -> polarity <= 0.15 ->
        label = "Neutral"%string /\ 42.5 <= score /\ score <= 57.5)
    /\ (- 0.4 < polarity -> polarity <= - 0.15 ->
        label = "Negative"%string /\ 30 <= score /\ score <= 42.5)
    /\ (polarity <= - 0.4 -> label = "Very Negative"%string /\ score <= 30)
    /\ (- 1 <= polarity -> polarity <= 1 -> 0 <= score /\ score <= 100)
    /\ ((forall p, TextBlob_polarity (title a) <> Ok p) ->
        polarity = 0 /\ label = "Neutral"%string /\ score == 50).
Proof.
  intros tb a polarity entry label score.
  unfold label, score, entry, article_entry. cbn [ad_sentiment ad_score].
  fold polarity.
  assert (Lo : forall (bound : Q) (k : Z),
             (bound + 1) * 50 == inject_Z k / pow10 2 ->
             bound <= polarity ->
             (bound + 1) * 50 <= get_sentiment_score polarity)
    by (intros; eapply score_at_least; eassumption).
  assert (Hi : forall (bound : Q) (k : Z),
             (bound + 1) * 50 == inject_Z k / pow10 2 ->
             polarity <= bound ->
             get_sentiment_score polarity <= (bound + 1) * 50)
    by (intros; eapply score_at_most; eassumption).
  pose proof (Lo 0.4 7000%Z ltac:(reflexivity)) as L70.
  pose proof (Lo 0.15 5750%Z ltac:(reflexivity)) as L57.
  pose proof (Lo (- 0.15) 4250%Z ltac:(reflexivity)) as L42.
  pose proof (Lo (- 0.4) 3000%Z ltac:(reflexivity)) as L30.
  pose proof (Lo (- 1) 0%Z ltac:(reflexivity)) as L0.
  pose proof (Hi 0.4 7000%Z ltac:(reflexivity)) as H70.
  pose proof (Hi 0.15 5750%Z ltac:(reflexivity)) as H57.
  pose proof (Hi (- 0.15) 4250%Z ltac:(reflexivity)) as H42.
  pose proof (Hi (- 0.4) 3000%Z ltac:(reflexivity)) as H30.
  pose proof (Hi 1 10000%Z ltac:(reflexivity)) as H100.
  unfold categorize_sentiment.
  repeat split; intros;
    repeat match goal with
           | |- context [Qgtb ?x ?y] => by_cases_on_test (Qgtb x y)
           end;
    try reflexivity; try (exfalso; lra);
    try (first [ specialize (L70 ltac:(lra)) | idtac ];
         first [ specialize (L57 ltac:(lra)) | idtac ];
         first [ specialize (L42 ltac:(lra)) | idtac ];
         first [ specialize (L30 ltac:(lra)) | idtac ];
         first [ specialize (L0 ltac:(lra)) | idtac ];
         first [ specialize (H70 ltac:(lra)) | idtac ];
         first [ specialize (H57 ltac:(lra)) | idtac ];
         first [ specialize (H42 ltac:(lra)) | idtac ];
         first [ specialize (H30 ltac:(lra)) | idtac ];
         first [ specialize (H100 ltac:(lra)) | idtac ];
         lra).
  all: unfold polarity, analyze_text_sentiment in *;
    destruct (tb (title a)) as [p|x] eqn:T;
    try (exfalso; eapply H; reflexivity); try reflexivity;
    exfalso; lra.
Qed.

Lemma article_label_witness :
  ad_sentiment (article_entry upbeat_reader {| title := "Results" |})
  = "Very Positive"%string
  /\ 70 <= ad_score (article_entry upbeat_reader {| title := "Results" |})
  /\ ad_score (article_entry unreadable {| title := "Results" |}) == 50.
Proof.
  pose proof (article_label_and_score_follow_the_same_bands
                upbeat_reader {| title := "Results" |}) as Up.
  pose proof (article_label_and_score_follow_the_same_bands
                unreadable {| title := "Results" |}) as Un.
  cbv zeta in Up, Un.
  destruct Up as (Very & _).
  destruct Un as (_ & _ & _ & _ & _ & _ & Fails).
  destruct (Very ltac:(vm_compute; reflexivity)) as (Label & Score).
  destruct (Fails ltac:(intros p E; discriminate E)) as (_ & _ & Fifty).
  split; [exact Label|]. split; [exact Score | exact Fifty].
Defined.

(** ** sentiment_analyzer: the ranges of a result *)

Ltac run_binds H :=
  unfold bind in H;
  repeat match type of H with
         | context [match ?m ?w with _ => _ end] =>
             let E := fresh "Step" in
             destruct (m w) as [[?|?] ?] eqn:E; [|discriminate H]
         | (let '(_, _) := ?x in _) _ = _ =>
             let E := fresh "Pair" in destruct x eqn:E
         end.

Lemma count_votes_total (votes : list vote) :
  (count_votes positive votes + count_votes negative votes
   + count_votes neutral votes)%nat = length votes.
Proof.
  unfold count_votes. induction votes as [|v rest IH]; [reflexivity|].
  destruct v; cbn [filter vote_eqb length]; lia.
Qed.

Lemma overall_label_is_one_of_three (p n u : Q) :
  In (overall_label p n u) ["Positive"; "Negative"; "Neutral"]%string.
Proof.
  unfold overall_label.
  destruct (_ && _); [left; reflexivity|].
  destruct (_ && _); [right; left | right; right; left]; reflexivity.
Qed.

Lemma clamp_bounds (lo hi x : Q) :
  lo <= hi -> lo <= Qmax lo (Qmin hi x) /\ Qmax lo (Qmin hi x) <= hi.
Proof.
  intro L. split.
  - apply Q.le_max_l.
  - apply Q.max_lub; [exact L | apply Q.le_min_l].
Qed.

Lemma path_B_fields (e : env) (symbol : string) (s : stats) (hist : list bar)
    (w w' : world) (r : sentiment) :
  path_B e symbol s hist w = (Ok r, w') ->
  polarity r = round (final_sentiment_B s) 3
  /\ confidence r = round (confidence_B s hist) 2
  /\ total_articles r = None
  /\ total_indicators r = length (sentiment_indicators r)
  /\ positive_count r = count_votes positive (sentiment_indicators r)
  /\ negative_count r = count_votes negative (sentiment_indicators r)
  /\ neutral_count r = count_votes neutral (sentiment_indicators r)
  /\ In (overall_sentiment r) ["Positive"; "Negative"; "Neutral"]%string.
Proof.
  unfold path_B. intro H. run_binds H.
  unfold ret in H. injection H as <- _.
  cbn [polarity confidence total_articles total_indicators positive_count
       negative_count neutral_count overall_sentiment sentiment_indicators].
  repeat split. apply overall_label_is_one_of_three.
Qed.

Section PathAFields.

Variable sqrt : Q -> Q.
Variable TextBlob_polarity : string -> res Q.

Lemma path_A_fields (e : env) (symbol : string) (s : stats) (hist : list bar)
    (news_articles : list article) (w w' : world) (r : sentiment) :
  path_A sqrt TextBlob_polarity e symbol s hist news_articles w = (Ok r, w') ->
  polarity r
  = round (final_sentiment_A s (mean_polarity TextBlob_polarity news_articles))
          3
  /\ confidence r
     = round (confidence_A sqrt s (polarities TextBlob_polarity news_articles)
                           (mean_polarity TextBlob_polarity news_articles)) 2
  /\ total_articles r
     = Some (length (polarities TextBlob_polarity news_articles))
  /\ total_indicators r = length (sentiment_indicators r)
  /\ positive_count r = count_votes positive (sentiment_indicators r)
  /\ negative_count r = count_votes negative (sentiment_indicators r)
  /\ neutral_count r = count_votes neutral (sentiment_indicators r)
  /\ In (overall_sentiment r) ["Positive"; "Negative"; "Neutral"]%string.
Proof.
  unfold path_A. intro H. run_binds H.
  unfold ret in H. injection H as <- _.
  cbn [polarity confidence total_articles total_indicators positive_count
       negative_count neutral_count overall_sentiment sentiment_indicators].
  repeat split. apply overall_label_is_one_of_three.
Qed.

End PathAFields.

(** X12.  Without articles and with at least one bar of history, [analyze]
    succeeds with a polarity between -1 and 1, a confidence between 30 and
    85, a score between 0 and 100, exactly five indicator votes whose
    positive, negative and neutral counts add up to five, no article count,
    and an overall sentiment that is Positive, Negative or Neutral. *)
Theorem no_article_result_lies_within_its_ranges :
  forall (sqrt : Q -> Q) (TextBlob_polarity : string -> res Q) (e : env)
         (symbol : string) (i : info_dict) (hist : list bar) (w : world),
    hist <> [] ->
    exists (r : sentiment) (w' : world),
      analyze sqrt TextBlob_polarity e symbol [] (Ok i) (Ok hist) w
      = (Success r, w')
      /\ (- 1 <= polarity r /\ polarity r <= 1)
      /\ (30 <= confidence r /\ confidence r <= 85)
      /\ (0 <= sentiment_score r /\ sentiment_score r <= 100)
      /\ total_indicators r = 5%nat
      /\ (positive_count r + negative_count r + neutral_count r)%nat = 5%nat
      /\ total_articles r = None
      /\ In (overall_sentiment r) ["Positive"; "Negative"; "Neutral"]%string.
Proof.
  intros sqrt tb e symbol i hist w NE.
  set (s := market_stats sqrt i hist).
  destruct (path_B_run e symbol s hist w NE)
    as (votes & weights & p & n & u & I & _ & rate & r & w' & Run & V & S & _).
  destruct (path_B_fields e symbol s hist w w' r Run)
    as (Po & Co & Ar & To & Cp & Cn & Cu & La).
  destruct (indicator_lists_weight_sums s hist [] 0) as (Five & _).
  destruct (Five votes weights I) as (Lv & _).
  exists r, w'.
  split; [rewrite analyze_of_path; fold s; rewrite Run; reflexivity|].
  split; [|split; [|split; [|split; [|split; [|split]]]]].
  - rewrite Po. unfold final_sentiment_B.
    apply (round_between _ 3 (-1) 1); apply clamp_bounds; discriminate.
  - rewrite Co. unfold confidence_B.
    apply (round_between _ 2 30 85); apply clamp_bounds; discriminate.
  - rewrite S. apply (round_between _ 0 0 100); apply score_of_bounds.
  - rewrite To, V. exact Lv.
  - rewrite Cp, Cn, Cu, count_votes_total, V. exact Lv.
  - exact Ar.
  - exact La.
Qed.

Lemma no_article_ranges_witness :
  exists (r : sentiment) (w' : world),
    analyze sqrt_micro neutral_reader at_midnight usd_symbol []
            (Ok quoted_at_100) (Ok (flat_history 3 100 1000)) fresh_world
    = (Success r, w')
    /\ (30 <= confidence r /\ confidence r <= 85)
    /\ total_indicators r = 5%nat.
Proof.
  destruct (no_article_result_lies_within_its_ranges
              sqrt_micro neutral_reader at_midnight usd_symbol quoted_at_100
              (flat_history 3 100 1000) fresh_world ltac:(discriminate))
    as (r & w' & Run & _ & C & _ & T & _).
  exists r, w'. split; [exact Run|]. split; [exact C | exact T].
Defined.

Lemma polarities_count (tb : string -> res Q) (news_articles : list article) :
  length (polarities tb news_articles) = Nat.min 20 (length news_articles).
Proof. unfold polarities. rewrite length_map. apply length_firstn. Qed.

(** X13.  With articles, at least one bar of history and a price other
    than a plain zero, [analyze] succeeds with a polarity between -1 and 1,
    a confidence between 40 and 95, a score between 0 and 100, five
    indicator votes (the news vote and four performance votes), and an
    article count that is the number of articles given, but never more than
    20. *)
Theorem article_result_lies_within_its_ranges :
  forall (sqrt : Q -> Q) (TextBlob_polarity : string -> res Q) (e : env)
         (symbol : string) (news_articles : list article) (i : info_dict)
         (hist : list bar) (w : world),
    news_articles <> [] ->
    hist <> [] ->
    plain_zero_price (market_stats sqrt i hist) = false ->
    exists (r : sentiment) (w' : world),
      analyze sqrt TextBlob_polarity e symbol news_articles (Ok i) (Ok hist) w
      = (Success r, w')
      /\ (- 1 <= polarity r /\ polarity r <= 1)
      /\ (40 <= confidence r /\ confidence r <= 95)
      /\ (0 <= sentiment_score r /\ sentiment_score r <= 100)
      /\ total_indicators r = 5%nat
      /\ (positive_count r + negative_count r + neutral_count r)%nat = 5%nat
      /\ total_articles r = Some (Nat.min 20 (length news_articles))
      /\ In (overall_sentiment r) ["Positive"; "Negative"; "Neutral"]%string.
Proof.
  intros sqrt tb e symbol news i hist w NN NE NZ.
  set (s := market_stats sqrt i hist) in *.
  destruct (path_A_run sqrt tb e symbol s hist news w NN NE NZ)
    as (votes & weights & p & n & u & I & _ & rate & r & w' & Run & V & S & _).
  destruct (path_A_fields sqrt tb e symbol s hist news w w' r Run)
    as (Po & Co & Ar & To & Cp & Cn & Cu & La).
  assert (Some_news : polarities tb news <> []).
  { intro E. apply (f_equal (@length Q)) in E.
    rewrite polarities_count in E.
    destruct news; [congruence | cbn [length] in E; lia]. }
  destruct (indicator_lists_weight_sums
              s hist (polarities tb news) (mean_polarity tb news))
    as (_ & Five & _).
  destruct (Five votes weights Some_news I) as (Lv & _).
  exists r, w'.
  split; [rewrite analyze_of_path; fold s; destruct news; [congruence|];
          rewrite Run; reflexivity|].
  split; [|split; [|split; [|split; [|split; [|split]]]]].
  - rewrite Po. unfold final_sentiment_A.
    apply (round_between _ 3 (-1) 1); apply clamp_bounds; discriminate.
  - rewrite Co. unfold confidence_A.
    apply (round_between _ 2 40 95); apply clamp_bounds; discriminate.
  - rewrite S. apply (round_between _ 0 0 100); apply score_of_bounds.
  - rewrite To, V. exact Lv.
  - rewrite Cp, Cn, Cu, count_votes_total, V. exact Lv.
  - rewrite Ar, polarities_count. reflexivity.
  - exact La.
Qed.

Lemma article_ranges_witness :
  exists (r : sentiment) (w' : world),
    analyze sqrt_micro upbeat_reader at_midnight indian_symbol one_headline
            (Ok quoted_at_100) (Ok (flat_history 30 100 1000)) fresh_world
    = (Success r, w')
    /\ (40 <= confidence r /\ confidence r <= 95)
    /\ total_articles r = Some 1%nat.
Proof.
  destruct (article_result_lies_within_its_ranges
              sqrt_micro upbeat_reader at_midnight indian_symbol one_headline
              quoted_at_100 (flat_history 30 100 1000) fresh_world
              ltac:(discriminate) ltac:(discriminate) ltac:(reflexivity))
    as (r & w' & Run & _ & C & _ & _ & _ & A & _).
  exists r, w'. split; [exact Run|]. split; [exact C | exact A].
Defined.

(** ** sentiment_analyzer: the curve of the article path *)

Lemma curve_nth (current_price total_impact decay : Q) (d : nat) :
  (1 <= d <= 14)%nat ->
  nth (d - 1) (map (predicted_price current_price total_impact decay) days) 0
  = predicted_price current_price total_impact decay d.
Proof.
  intro Hd.
  rewrite (nth_map_in_range _ _ _ 0%nat 0) by (rewrite days_length; lia).
  rewrite days_nth by exact Hd. reflexivity.
Qed.

(** X14.  With articles, the list the first loop filled (news-based impact,
    3 percent decay a day) is never cleared.  For an Indian symbol the
    caller is shown that very list after the second loop appended to it: 28
    entries, days 1 to 14 of the first loop and then days 1 to 14 of the
    score-driven loop.  For any other symbol the caller is shown the copy
    converted before the second loop ran: the first loop's 14 entries and
    none of the score-driven ones. *)
Theorem article_forecast_keeps_the_first_loop :
  forall (sqrt : Q -> Q) (TextBlob_polarity : string -> res Q) (e : env)
         (symbol : string) (news_articles : list article) (i : info_dict)
         (hist : list bar) (w : world),
    news_articles <> [] ->
    hist <> [] ->
    plain_zero_price (market_stats sqrt i hist) = false ->
    let s := market_stats sqrt i hist in
    let first_impact :=
      news_total_impact s (polarities TextBlob_polarity news_articles)
                        (mean_polarity TextBlob_polarity news_articles) in
    exists (r : sentiment) (w' : world) (rate p n : Q),
      analyze sqrt TextBlob_polarity e symbol news_articles (Ok i) (Ok hist) w
      = (Success r, w')
      /\ sentiment_score r = round (score_of p n) 0
      /\ length (predictions r)
         = (if is_indian_stock symbol then 28%nat else 14%nat)
      /\ (forall d : nat,
            (1 <= d <= 14)%nat ->
            nth (d - 1) (predictions r) 0
            = round (converted symbol rate
                       (predicted_price (current_price s) first_impact 0.03 d))
                    2)
      /\ (is_indian_stock symbol = true ->
          forall d : nat,
            (1 <= d <= 14)%nat ->
            nth (13 + d) (predictions r) 0
            = round (predicted_price
                       (current_price s)
                       (total_impact_of (score_of p n)
                                        (weighted_performance_of s))
                       0.04 d)
                    2).
Proof.
  intros sqrt tb e symbol news i hist w NN NE NZ s first_impact.
  destruct (path_A_run sqrt tb e symbol s hist news w NN NE NZ)
    as (votes & weights & p & n & u & _ & _ & rate & r & w' & Run & _ & S & P).
  exists r, w', rate, p, n.
  split; [rewrite analyze_of_path; fold s; destruct news; [congruence|];
          rewrite Run; reflexivity|].
  split; [exact S|].
  rewrite P. unfold stored_curve_A, legacy_curve, score_curve.
  fold first_impact.
  destruct (is_indian_stock symbol) eqn:Ind.
  - split; [|split].
    + rewrite shown_curve_length, length_app, !length_map, days_length.
      reflexivity.
    + intros d Hd.
      rewrite shown_curve_nth
        by (rewrite length_app, !length_map, days_length; lia).
      rewrite app_nth1 by (rewrite length_map, days_length; lia).
      rewrite curve_nth by exact Hd. reflexivity.
    + intros _ d Hd.
      rewrite shown_curve_nth
        by (rewrite length_app, !length_map, days_length; lia).
      rewrite app_nth2 by (rewrite length_map, days_length; lia).
      rewrite length_map, days_length.
      replace (13 + d - 14)%nat with (d - 1)%nat by lia.
      rewrite curve_nth by exact Hd.
      unfold converted. rewrite Ind. reflexivity.
  - split; [|split].
    + rewrite shown_curve_length, length_map, days_length. reflexivity.
    + intros d Hd.
      rewrite shown_curve_nth by (rewrite length_map, days_length; lia).
      rewrite curve_nth by exact Hd. reflexivity.
    + discriminate.
Qed.

Lemma article_forecast_witness :
  exists (r : sentiment) (w' : world),
    analyze sqrt_micro upbeat_reader at_midnight indian_symbol one_headline
            (Ok quoted_at_100) (Ok (flat_history 30 100 1000)) fresh_world
    = (Success r, w')
    /\ length (predictions r) = 28%nat.
Proof.
  destruct (article_forecast_keeps_the_first_loop
              sqrt_micro upbeat_reader at_midnight indian_symbol one_headline
              quoted_at_100 (flat_history 30 100 1000) fresh_world
              ltac:(discriminate) ltac:(discriminate) ltac:(reflexivity))
    as (r & w' & rate & p & n & Run & _ & L & _).
  exists r, w'. split; [exact Run | exact L].
Defined.

(** ** sentiment_analyzer: the shape of a forecast curve *)

Lemma day_number_next (d : nat) : day_number (S d) == day_number d + 1.
Proof.
  unfold day_number. rewrite Nat2Z.inj_succ, <- Z.add_1_r, inject_Z_plus.
  reflexivity.
Qed.

Lemma day_number_bound (d : nat) :
  (d <= 14)%nat -> 0 <= day_number d /\ day_number d <= 14.
Proof.
  intro L. unfold day_number. split.
  - change 0 with (inject_Z 0). rewrite <- Zle_Qle. lia.
  - change 14 with (inject_Z 14). rewrite <- Zle_Qle. lia.
Qed.

(** X15.  Both forecast loops let the impact fade and never overshoot: for
    a price that is not negative, a decay between 0 and 1/14 a day and a
    day from 1 to 14, a non-negative impact gives prices that do not rise
    from one day to the next and stay at or above the rounded current
    price; a non-positive impact gives prices that do not fall and stay at
    or below it. *)
Theorem forecast_fades_toward_the_current_price :
  forall (current_price total_impact decay : Q) (d : nat),
    0 <= current_price ->
    0 <= decay ->
    decay * 14 <= 1 ->
    (1 <= d <= 14)%nat ->
    let today := predicted_price current_price total_impact decay d in
    let tomorrow := predicted_price current_price total_impact decay (S d) in
    (0 <= total_impact ->
     round current_price 2 <= today /\ ((d < 14)%nat -> tomorrow <= today))
    /\ (total_impact <= 0 ->
        today <= round current_price 2 /\ ((d < 14)%nat -> today <= tomorrow)).
Proof.
  intros cp impact decay d Price Decay Slow Hd today tomorrow.
  unfold today, tomorrow, predicted_price.
  pose proof (day_number_bound d ltac:(lia)) as [D0 D14].
  pose proof (day_number_next d) as Next.
  assert (Factor : 0 <= 1 - day_number d * decay) by nra.
  assert (Step : 1 - day_number (S d) * decay
                 == 1 - day_number d * decay - decay)
    by (rewrite Next; ring).
  set (today_factor := 1 - day_number d * decay) in *.
  set (tomorrow_factor := 1 - day_number (S d) * decay) in *.
  split; intro Sign; (split; [|intros _]); apply round_monotone.
  - assert (0 <= impact * today_factor) by nra. nra.
  - assert (impact * tomorrow_factor <= impact * today_factor) by nra. nra.
  - assert (impact * today_factor <= 0) by nra. nra.
  - assert (impact * today_factor <= impact * tomorrow_factor) by nra. nra.
Qed.

Lemma forecast_fades_witness :
  round 100 2 <= predicted_price 100 0.05 0.04 3
  /\ predicted_price 100 0.05 0.04 4 <= predicted_price 100 0.05 0.04 3.
Proof.
  destruct (forecast_fades_toward_the_current_price
              100 0.05 0.04 3 ltac:(discriminate) ltac:(discriminate)
              ltac:(discriminate) ltac:(lia))
    as [Up _].
  destruct (Up ltac:(discriminate)) as [Above Falls].
  split; [exact Above | apply Falls; lia].
Defined.

(** ** hybrid_predictor: which forecast failed *)




(** ** hybrid_predictor: the summary figures of a merged forecast *)

Lemma len_cons {A : Type} (x : A) (xs : list A) : len (x :: xs) == len xs + 1.
Proof.
  unfold len. cbn [length].
  rewrite Nat2Z.inj_succ, <- Z.add_1_r, inject_Z_plus. reflexivity.
Qed.

Lemma len_nonnegative {A : Type} (xs : list A) : 0 <= len xs.
Proof.
  unfold len. change 0 with (inject_Z 0). rewrite <- Zle_Qle. lia.
Qed.

Lemma sum_between (xs : list Q) (lo hi : Q) :
  (forall x, In x xs -> lo <= x /\ x <= hi) ->
  len xs * lo <= sum xs /\ sum xs <= len xs * hi.
Proof.
  induction xs as [|x rest IH]; intro B.
  - change (len (@nil Q)) with 0. change (sum []) with 0. split; lra.
  - destruct (IH (fun y Hy => B y (or_intror Hy))) as [L H].
    destruct (B x (or_introl eq_refl)) as [Lx Hx].
    rewrite sum_cons, len_cons. split; nra.
Qed.

Lemma mean_between (xs : list Q) :
  xs <> [] -> minimum xs <= sum xs / len xs /\ sum xs / len xs <= maximum xs.
Proof.
  intro NE.
  destruct (sum_between xs (minimum xs) (maximum xs)) as [L H].
  { intros x Hx. split;
      [apply minimum_is_a_lower_bound | apply maximum_is_an_upper_bound];
      exact Hx. }
  assert (P : 0 < len xs).
  { destruct xs as [|x rest]; [congruence|].
    rewrite len_cons. pose proof (len_nonnegative rest). lra. }
  split.
  - apply Qle_shift_div_l; [exact P | lra].
  - apply Qle_shift_div_r; [exact P | lra].
Qed.

(** X17.  In the merged result the rounded average of the combined curve
    lies between the rounded minimum and the rounded maximum; with an empty
    combined curve all three are the rounded current price and the price
    change is zero; and a current price that is not positive gives a
    percentage change of zero instead of a division. *)
Theorem merged_average_lies_between_minimum_and_maximum :
  forall (h : forecast) (s : sentiment) (sector : res string) (r : ensemble),
    merge h s sector = Ok r ->
    (prediction_min r <= avg_prediction r
     /\ avg_prediction r <= prediction_max r)
    /\ (hybrid_predictor.predictions r = [] ->
        avg_prediction r = round (hybrid_predictor.current_price r) 2
        /\ prediction_min r = avg_prediction r
        /\ prediction_max r = avg_prediction r
        /\ price_change r == 0)
    /\ (hybrid_predictor.current_price r <= 0 ->
        price_change_percent r == 0).
Proof.
  intros h s sector r. unfold merge.
  destruct (combine_predictions _ _) as [[[combined hw] sw]|x];
    [|discriminate].
  destruct (reciprocal _) as [accuracy|x]; [|discriminate].
  destruct sector as [name|x]; [|discriminate].
  intro E. injection E as <-.
  cbn [prediction_min avg_prediction prediction_max price_change
       price_change_percent hybrid_predictor.predictions
       hybrid_predictor.current_price].
  cbn [historical_keys h_current_price get].
  split; [|split].
  - destruct combined as [|first rest].
    + split; apply Qle_refl.
    + destruct (mean_between (first :: rest) ltac:(discriminate)) as [L H].
      split; apply round_monotone; assumption.
  - intros ->. repeat split.
    rewrite (round_comp _ 0 2) by ring. reflexivity.
  - intro NP.
    replace (Qgtb (historical_predictor.current_price h) 0) with false
      by (symmetry; apply Qgtb_false; exact NP).
    reflexivity.
Qed.

Lemma merged_average_witness :
  exists r : ensemble,
    merge sample_forecast sample_sentiment (Ok "Technology"%string) = Ok r
    /\ prediction_min r <= avg_prediction r
    /\ avg_prediction r <= prediction_max r.
Proof.
  eexists. split; [vm_compute; reflexivity|].
  eapply (merged_average_lies_between_minimum_and_maximum
            sample_forecast sample_sentiment (Ok "Technology"%string)).
  vm_compute. reflexivity.
Defined.

(** ** hybrid_predictor: the peers of the quick sector analysis *)

Lemma dict_get_in {A : Type} (key : string) (items : list (string * A))
    (v : A) :
  dict_get key items = Some v -> In (key, v) items.
Proof.
  induction items as [|[k v'] rest IH]; cbn [dict_get]; [discriminate|].
  destruct (String.eqb k key) eqn:E.
  - apply String.eqb_eq in E. intro H. injection H as <-. subst k.
    left. reflexivity.
  - intro H. right. apply IH. exact H.
Qed.

Lemma quick_peer_symbol (e : env) (company_symbol : string)
    (hist : res (list bar)) (w w' : world) (p : peer) :
  quick_peer e company_symbol hist w = (Ok (Some p), w') ->
  peer_symbol p = company_symbol.
Proof.
  unfold quick_peer. intro H. run_binds H.
  destruct a as [|b rest]; [discriminate H|].
  destruct (if Qgtb _ 0 then _ else _) as [predicted_price predicted_change].
  run_binds H. unfold ret in H. injection H as <- _. reflexivity.
Qed.

Lemma quick_peer_of_an_indian_company (e : env) (company_symbol : string)
    (hist : res (list bar)) (w : world) :
  is_indian_stock company_symbol = true ->
  snd (quick_peer e company_symbol hist w) = w.
Proof.
  intro I. unfold quick_peer, convert_price_to_inr. rewrite I.
  destruct hist as [[|b rest]|x]; try reflexivity.
  unfold bind, lift, ret.
  destruct (if Qgtb _ 0 then _ else _) as [predicted_price predicted_change].
  reflexivity.
Qed.

Lemma sector_loop_peers (e : env) (symbol : string)
    (histories : string -> res (list bar)) (companies : list string)
    (w : world) :
  (length (fst (sector_loop e symbol histories companies w))
   <= length companies)%nat
  /\ (forall p,
        In p (fst (sector_loop e symbol histories companies w)) ->
        In (peer_symbol p) companies /\ peer_symbol p <> symbol)
  /\ (forallb is_indian_stock companies = true ->
      snd (sector_loop e symbol histories companies w) = w).
Proof.
  revert w. induction companies as [|c rest IH]; intro w.
  - cbn [sector_loop fst snd length]. repeat split; try lia; contradiction.
  - cbn [sector_loop]. destruct (String.eqb c symbol) eqn:Own.
    + destruct (IH w) as (L & P & U). split; [|split].
      * cbn [length]. lia.
      * intros p Hp. destruct (P p Hp). split; [right|]; assumption.
      * cbn [forallb]. intro All. apply andb_prop in All. apply U, All.
    + apply String.eqb_neq in Own. unfold try_except.
      pose proof (quick_peer_symbol e c (histories c) w) as Sym.
      pose proof (quick_peer_of_an_indian_company e c (histories c) w) as Ind.
      destruct (quick_peer e c (histories c) w) as [[found|x] w1].
      * destruct (IH w1) as (L & P & U).
        destruct (sector_loop e symbol histories rest w1) as [ps w2].
        cbn [fst snd] in *. split; [|split].
        -- destruct found; cbn [length]; lia.
        -- intros p Hp.
           assert (Cases : (found = Some p) \/ In p ps)
             by (destruct found; [destruct Hp as [-> | Hp]|]; auto).
           destruct Cases as [-> | Hp'].
           ++ rewrite (Sym w1 p eq_refl).
              split; [left; reflexivity | exact Own].
           ++ destruct (P p Hp'). split; [right|]; assumption.
        -- cbn [forallb]. intro All. apply andb_prop in All.
           destruct All as [Ic Irest].
           rewrite (U Irest). apply Ind. exact Ic.
      * destruct (IH w1) as (L & P & U).
        destruct (sector_loop e symbol histories rest w1) as [ps w2].
        cbn [fst snd] in *. split; [|split].
        -- cbn [length]. lia.
        -- intros p Hp. destruct (P p Hp). split; [right|]; assumption.
        -- cbn [forallb]. intro All. apply andb_prop in All.
           destruct All as [Ic Irest].
           rewrite (U Irest). apply Ind. exact Ic.
Qed.

Lemma two_indian_peers_per_sector :
  Forall (fun entry : string * list string =>
            fst entry = "Communication Services"%string
            \/ forallb is_indian_stock (firstn 2 (snd entry)) = true)
         sector_companies.
Proof.
  unfold sector_companies.
  repeat constructor; cbn [fst snd];
    first [right; reflexivity | left; reflexivity].
Qed.

(** X18.  The quick sector analysis looks at no more than the first two
    companies that the table lists for the sector, and never at the symbol
    itself: at most two peers come back, each named in the first two table
    entries; a sector the table does not know gives none.  Except for
    Communication Services (whose second entry is T) those two companies
    are Indian, so the analysis asks for no exchange rate: the world is
    left as it was, and the international companies of the table are never
    reached. *)
Theorem sector_peers_are_the_first_two_of_the_table :
  forall (e : env) (symbol : string) (histories : string -> res (list bar))
         (sector : string) (w : world),
    let peers := fst (get_sector_analysis e symbol histories sector w) in
    let companies := get (dict_get sector sector_companies) [] in
    (length peers <= 2)%nat
    /\ (forall p,
          In p peers ->
          In (peer_symbol p) (firstn 2 companies) /\ peer_symbol p <> symbol)
    /\ (dict_get sector sector_companies = None -> peers = [])
    /\ (sector <> "Communication Services"%string ->
        (forall p, In p peers -> is_indian_stock (peer_symbol p) = true)
        /\ snd (get_sector_analysis e symbol histories sector w) = w).
Proof.
  intros e symbol histories sector w peers companies.
  unfold peers, get_sector_analysis. fold companies.
  destruct (sector_loop_peers e symbol histories (firstn 2 companies) w)
    as (L & P & U).
  split; [|split; [exact P|split]].
  - rewrite length_firstn in L. lia.
  - intro Unknown. unfold companies. rewrite Unknown. reflexivity.
  - intro Other.
    assert (All : forallb is_indian_stock (firstn 2 companies) = true).
    { unfold companies.
      destruct (dict_get sector sector_companies) as [cs|] eqn:G;
        [|reflexivity].
      apply dict_get_in in G.
      pose proof two_indian_peers_per_sector as T.
      rewrite Forall_forall in T.
      destruct (T _ G) as [Name | Indian]; [contradiction | exact Indian]. }
    split; [|apply U; exact All].
    intros p Hp. destruct (P p Hp) as [Listed _].
    rewrite forallb_forall in All. apply All. exact Listed.
Qed.

Lemma sector_peers_witness :
  map peer_symbol
      (fst (get_sector_analysis at_midnight indian_symbol three_day_histories
                                "Technology" fresh_world))
  = ["INFY.NS"%string]
  /\ snd (get_sector_analysis at_midnight indian_symbol three_day_histories
                              "Technology" fresh_world)
     = fresh_world.
Proof.
  pose proof (sector_peers_are_the_first_two_of_the_table
                at_midnight indian_symbol three_day_histories "Technology"
                fresh_world) as H.
  cbv zeta in H. destruct H as (_ & _ & _ & Other).
  destruct (Other ltac:(discriminate)) as [_ Untouched].
  split; [vm_compute; reflexivity | exact Untouched].
Defined.

(** ** app.py: the exchange rate of the web layer *)

Lemma app_fetch_is_plausible (net : app.sources) :
  exists rate, app.fetch_live_exchange_rate net = Ok rate /\ plausible rate.
Proof.
  unfold app.fetch_live_exchange_rate.
  repeat match goal with
         | |- context [match ?x with _ => _ end] => destruct x eqn:?
         end;
    eexists; (split; [reflexivity|]);
    first [ apply fallback_plausible
          | left; apply sanity_check_band;
            repeat match goal with
                   | H : _ && _ = true |- _ => apply andb_prop in H; destruct H
                   end;
            assumption ].
Qed.

Lemma collected_rates_cases (net : app.sources) :
  Forall (fun rate => 70 < rate /\ rate < 100) (app.collected_rates net)
  /\ (length (app.collected_rates net) <= 2)%nat.
Proof.
  unfold app.collected_rates.
  destruct (app.google_finance net) as [| |g];
    destruct (app.yahoo_USDINR net) as [| |y]; cbn [app length];
    repeat match goal with
           | |- context [sanity_check ?r] =>
               let S := fresh "S" in
               destruct (sanity_check r) eqn:S;
               [apply sanity_check_band in S|]
           end;
    cbn [app length]; split; try lia; repeat constructor; tauto.
Qed.

Lemma app_rate_is_plausible (net again : app.sources) :
  exists rate,
    app.get_most_accurate_exchange_rate net again = Ok rate /\ plausible rate.
Proof.
  unfold app.get_most_accurate_exchange_rate.
  destruct (collected_rates_cases net) as [Sane Count].
  destruct (app.collected_rates net) as [|g [|y [|z rest]]].
  - apply app_fetch_is_plausible.
  - exists g. split; [reflexivity|]. left.
    apply (Forall_inv Sane).
  - eexists. split; [reflexivity|]. left.
    pose proof (Forall_inv Sane) as G.
    pose proof (Forall_inv (Forall_inv_tail Sane)) as Y.
    cbv beta in G, Y.
    change (sum [g; y] / len [g; y]) with ((0 + g + y) / 2).
    divide_by_numerals. lra.
  - cbn [length] in Count. lia.
Qed.

(** X19.  The web layer's own rate: when Google Finance and Yahoo both
    quote a rate strictly between 70 and 100 the answer is their mean, when
    one of them does it is that quote, and otherwise the six sources of
    [fetch_live_exchange_rate] are asked.  In every case the answer lies
    strictly between 70 and 100 or is the fallback 83, and so does every
    rate that [get_usd_to_inr_rate] serves from a cache that held such a
    rate or none. *)
Theorem web_layer_rate_is_plausible :
  forall (net again : app.sources) (current_time : Q) (c : cache),
    (forall g y,
       app.collected_rates net = [g; y] ->
       app.get_most_accurate_exchange_rate net again = Ok (sum [g; y] / 2)
       /\ sum [g; y] == g + y)
    /\ (forall g,
          app.collected_rates net = [g] ->
          app.get_most_accurate_exchange_rate net again = Ok g)
    /\ (app.collected_rates net = [] ->
        app.get_most_accurate_exchange_rate net again
        = app.fetch_live_exchange_rate again)
    /\ (exists rate,
          app.get_most_accurate_exchange_rate net again = Ok rate
          /\ plausible rate)
    /\ (cache_plausible c ->
        exists rate,
          fst (app.get_usd_to_inr_rate net again current_time c) = Some rate
          /\ plausible rate
          /\ cache_plausible
               (snd (app.get_usd_to_inr_rate net again current_time c))).
Proof.
  intros net again t c.
  split; [|split; [|split; [|split]]].
  - intros g y E. unfold app.get_most_accurate_exchange_rate. rewrite E.
    split; [reflexivity|]. unfold sum. cbn [fold_left]. ring.
  - intros g E. unfold app.get_most_accurate_exchange_rate. rewrite E.
    reflexivity.
  - intro E. unfold app.get_most_accurate_exchange_rate. rewrite E.
    reflexivity.
  - apply app_rate_is_plausible.
  - intro P. unfold app.get_usd_to_inr_rate.
    destruct (app.should_update t c) eqn:U.
    + destruct (app_rate_is_plausible net again) as (rate & R & Pl).
      rewrite R. exists rate. cbn [fst snd USD_TO_INR_RATE].
      split; [reflexivity|]. split; [exact Pl|].
      intros r E. cbn [USD_TO_INR_RATE] in E. injection E as <-. exact Pl.
    + unfold app.should_update in U.
      destruct (USD_TO_INR_RATE c) as [rate|] eqn:R; [|discriminate].
      exists rate. cbn [fst snd].
      split; [reflexivity|]. split; [apply P; exact R | exact P].
Qed.

Lemma web_layer_rate_witness :
  exists rate,
    fst (app.get_usd_to_inr_rate two_quotes two_quotes 0 at_import)
    = Some rate
    /\ plausible rate.
Proof.
  destruct (web_layer_rate_is_plausible two_quotes two_quotes 0 at_import)
    as (_ & _ & _ & _ & Served).
  destruct (Served ltac:(intros r E; discriminate E)) as (rate & R & P & _).
  exists rate. split; [exact R | exact P].
Defined.

(** X20.  The web layer keeps its rate for two hours, the forecasting
    modules keep theirs for one.  From two caches in the same state, more
    than 3600 but at most 7200 seconds after the last update, the web layer
    still serves the cached rate while [models/currency_utils.py] asks its
    sources and replaces it. *)
Theorem the_two_rate_caches_age_differently :
  forall (net_app again : app.sources) (net_models : sources)
         (current_time : Q) (c : cache) (rate last : Q),
    USD_TO_INR_RATE c = Some rate ->
    LAST_RATE_UPDATE c = Some last ->
    3600 < current_time - last ->
    current_time - last <= 7200 ->
    app.get_usd_to_inr_rate net_app again current_time c = (Some rate, c)
    /\ get_usd_to_inr_rate net_models current_time c
       = (Some (hd fallback_rate (offers net_models)),
          {| USD_TO_INR_RATE := Some (hd fallback_rate (offers net_models));
             LAST_RATE_UPDATE := Some current_time |}).
Proof.
  intros net_app again net_models t c rate last R L Old Young. split.
  - unfold app.get_usd_to_inr_rate, app.should_update. rewrite R, L.
    by_cases_on_test (Qgtb (t - last) 7200); [lra | reflexivity].
  - unfold get_usd_to_inr_rate, should_update. rewrite R, L.
    by_cases_on_test (Qgtb (t - last) 3600); [|lra].
    rewrite fetch_is_first_offer. reflexivity.
Qed.

Lemma two_rate_caches_witness :
  app.get_usd_to_inr_rate two_quotes two_quotes 5000 hour_old_cache
  = (Some 84.25, hour_old_cache)
  /\ fst (get_usd_to_inr_rate quiet_sources 5000 hour_old_cache)
     = Some 83.50.
Proof.
  destruct (the_two_rate_caches_age_differently
              two_quotes two_quotes quiet_sources 5000 hour_old_cache 84.25 0
              eq_refl eq_refl ltac:(reflexivity) ltac:(discriminate))
    as [Web Models].
  split; [exact Web | rewrite Models; reflexivity].
Defined.

(** ** app.py: the user store *)

Lemma find_user_email (address : string) (users : list app.user)
    (u : app.user) :
  app.find_user address users = Some u -> app.email u = address.
Proof.
  unfold app.find_user. intro F. apply find_some in F.
  destruct F as [_ E]. apply String.eqb_eq. exact E.
Qed.

Lemma find_user_in (address : string) (users : list app.user)
    (u : app.user) :
  app.find_user address users = Some u -> In u users.
Proof. unfold app.find_user. intro F. apply find_some in F. tauto. Qed.

Lemma save_user_emails (address : string) (changed : app.user)
    (users : list app.user) :
  app.email changed = address ->
  map app.email (app.save_user address changed users) = map app.email users.
Proof.
  intro E. induction users as [|u rest IH]; [reflexivity|].
  cbn [app.save_user]. destruct (String.eqb (app.email u) address) eqn:T.
  - apply String.eqb_eq in T. cbn [map]. congruence.
  - cbn [map]. rewrite IH. reflexivity.
Qed.

Lemma find_saved_user (address : string) (changed u : app.user)
    (users : list app.user) :
  app.email changed = address ->
  app.find_user address users = Some u ->
  app.find_user address (app.save_user address changed users) = Some changed.
Proof.
  intros E. unfold app.find_user.
  induction users as [|v rest IH]; [discriminate|].
  cbn [app.save_user find].
  destruct (String.eqb (app.email v) address) eqn:T.
  - intros _. cbn [find]. rewrite E, String.eqb_refl. reflexivity.
  - intro F. cbn [find]. rewrite T. apply IH. exact F.
Qed.

Lemma save_user_twice (address : string) (first second : app.user)
    (users : list app.user) :
  app.email first = address ->
  app.save_user address second (app.save_user address first users)
  = app.save_user address second users.
Proof.
  intro E. induction users as [|v rest IH]; [reflexivity|].
  cbn [app.save_user].
  destruct (String.eqb (app.email v) address) eqn:T; cbn [app.save_user].
  - rewrite E, String.eqb_refl. reflexivity.
  - rewrite T, IH. reflexivity.
Qed.

Lemma save_user_keeps (P : app.user -> Prop) (address : string)
    (changed : app.user) (users : list app.user) :
  P changed -> Forall P users ->
  Forall P (app.save_user address changed users).
Proof.
  intros C. induction 1 as [|v rest Pv Prest IH]; cbn [app.save_user].
  - constructor.
  - destruct (String.eqb (app.email v) address); constructor; assumption.
Qed.

Lemma save_user_as_read (address : string) (changed u : app.user)
    (users : list app.user) :
  app.find_user address users = Some u ->
  as_read changed = as_read u ->
  map as_read (app.save_user address changed users) = map as_read users.
Proof.
  unfold app.find_user. intros F Same.
  induction users as [|v rest IH]; [reflexivity|].
  cbn [find] in F. cbn [app.save_user].
  destruct (String.eqb (app.email v) address) eqn:T.
  - injection F as ->. cbn [map]. rewrite Same. reflexivity.
  - cbn [map]. rewrite (IH F). reflexivity.
Qed.

Lemma existsb_eqb_in (x : string) (xs : list string) :
  existsb (String.eqb x) xs = true <-> In x xs.
Proof.
  rewrite existsb_exists. split.
  - intros (y & Hy & E). apply String.eqb_eq in E. subst y. exact Hy.
  - intro H. exists x. split; [exact H | apply String.eqb_refl].
Qed.

Lemma remove_first_of_the_last (x : string) (xs : list string) :
  ~ In x xs -> app.remove_first x (xs ++ [x]) = xs.
Proof.
  induction xs as [|y rest IH]; intro N; cbn [app app.remove_first].
  - rewrite String.eqb_refl. reflexivity.
  - destruct (String.eqb y x) eqn:E.
    + apply String.eqb_eq in E. subst y. exfalso. apply N. left. reflexivity.
    + rewrite IH; [reflexivity|]. intro H. apply N. right. exact H.
Qed.

Lemma upper_ascii_idempotent (ch : ascii) :
  upper_ascii (upper_ascii ch) = upper_ascii ch.
Proof.
  unfold upper_ascii.
  destruct ((97 <=? nat_of_ascii ch)%nat && (nat_of_ascii ch <=? 122)%nat)
    eqn:Lower.
  - apply andb_prop in Lower. destruct Lower as [Lo Hi].
    apply Nat.leb_le in Lo, Hi.
    rewrite nat_ascii_embedding by lia.
    replace (97 <=? nat_of_ascii ch - 32)%nat with false
      by (symmetry; apply Nat.leb_gt; lia).
    reflexivity.
  - rewrite Lower. reflexivity.
Qed.

Lemma upper_idempotent (s : string) : upper (upper s) = upper s.
Proof.
  induction s as [|ch s IH]; simpl; [reflexivity|].
  rewrite upper_ascii_idempotent, IH. reflexivity.
Qed.

Lemma NoDup_snoc (x : string) (xs : list string) :
  NoDup xs -> ~ In x xs -> NoDup (xs ++ [x]).
Proof.
  intros N H. apply NoDup_app.
  - exact N.
  - repeat constructor. intros [].
  - intros y Hy [-> | []]. exact (H Hy).
Qed.

(** X21.  A successful signup appends one user with the given address,
    empty watchlist and portfolio, and logs them in; addresses that were
    unique stay unique; and afterwards a login with the same address
    succeeds with the same password and fails with 'Invalid password' with
    any other. *)
Theorem signup_then_login :
  forall (given_email given_password given_name : option string)
         (users users' : list app.user) (s s' : app.session) (text : string),
    app.signup given_email given_password given_name users s
    = (app.Json true text, users', s') ->
    exists address secret called : string,
      given_email = Some address /\ given_password = Some secret
      /\ given_name = Some called
      /\ users' = users ++ [{| app.email := address;
                               app.password := secret;
                               app.name := called;
                               app.watchlist := Some [];
                               app.portfolio := Some [] |}]
      /\ s' = {| app.user_email := Some address;
                 app.user_name := Some called |}
      /\ (NoDup (map app.email users) -> NoDup (map app.email users'))
      /\ (forall s0,
            app.login given_email given_password users' s0
            = (app.Json true "Login successful", s'))
      /\ (forall other s0,
            other <> secret -> other <> EmptyString ->
            app.login given_email (Some other) users' s0
            = (app.Json false "Invalid password", s0)).
Proof.
  intros ge gp gn users users' s s' text. unfold app.signup.
  destruct (app.missing ge) eqn:Me; [discriminate|].
  destruct (app.missing gp) eqn:Mp; [discriminate|].
  destruct (app.missing gn) eqn:Mn; [discriminate|].
  cbn [orb].
  destruct ge as [address|]; [|discriminate].
  destruct gp as [secret|]; [|discriminate].
  destruct gn as [called|]; [|discriminate].
  cbn [get app.missing] in *.
  destruct (existsb _ users) eqn:Known; [discriminate|].
  intro E. injection E as _ <- <-.
  exists address, secret, called.
  assert (Fresh : ~ In address (map app.email users)).
  { intro H. apply in_map_iff in H. destruct H as (u & Eu & Hu).
    assert (T : existsb (fun u => String.eqb (app.email u) address) users
                = true).
    { apply existsb_exists. exists u. split; [exact Hu|].
      apply String.eqb_eq. exact Eu. }
    congruence. }
  assert (Found : app.find_user
                    address
                    (users ++ [{| app.email := address;
                                  app.password := secret;
                                  app.name := called;
                                  app.watchlist := Some [];
                                  app.portfolio := Some [] |}])
                  = Some {| app.email := address;
                            app.password := secret;
                            app.name := called;
                            app.watchlist := Some [];
                            app.portfolio := Some [] |}).
  { unfold app.find_user. clear Known.
    induction users as [|u rest IH]; cbn [app find app.email].
    - rewrite String.eqb_refl. reflexivity.
    - destruct (String.eqb (app.email u) address) eqn:T.
      + apply String.eqb_eq in T. exfalso. apply Fresh. left. exact T.
      + apply IH. intro H. apply Fresh. right. exact H. }
  repeat split.
  - intro N. rewrite map_app. cbn [map app.email].
    apply NoDup_snoc; assumption.
  - intro s0. unfold app.login. cbn [app.missing get]. rewrite Me, Mp.
    cbn [orb]. rewrite Found. cbn [app.password app.name].
    rewrite String.eqb_refl. reflexivity.
  - intros other s0 Wrong Given. unfold app.login. cbn [app.missing get].
    rewrite Me. apply String.eqb_neq in Given. rewrite Given.
    cbn [orb]. rewrite Found. cbn [app.password].
    replace (String.eqb secret other) with false
      by (symmetry; apply String.eqb_neq; congruence).
    reflexivity.
Qed.

Lemma signup_then_login_witness :
  app.login (Some "asha@example.com"%string) (Some "secret"%string)
            (snd (fst (app.signup (Some "asha@example.com"%string)
                                  (Some "secret"%string)
                                  (Some "Asha"%string) [] nobody)))
            nobody
  = (app.Json true "Login successful", asha_logged_in).
Proof.
  destruct (signup_then_login
              (Some "asha@example.com"%string) (Some "secret"%string)
              (Some "Asha"%string) [] _ nobody _ _ eq_refl)
    as (address & secret & called & _ & _ & _ & _ & _ & _ & Login & _).
  apply Login.
Defined.

(** ** app.py: the watchlist *)

Lemma as_user_cases (s : app.session) (users : list app.user)
    (view : string -> app.user -> app.response * list app.user) :
  (exists address u,
     app.user_email s = Some address
     /\ app.find_user address users = Some u
     /\ app.email u = address
     /\ app.as_user s users view = view address u)
  \/ (snd (app.as_user s users view) = users
      /\ forall text, fst (app.as_user s users view) <> app.Json true text).
Proof.
  unfold app.as_user.
  destruct (app.user_email s) as [address|];
    [|right; split; [reflexivity | discriminate]].
  destruct (app.find_user address users) as [u|] eqn:F;
    [|right; split; [reflexivity | discriminate]].
  left. exists address, u.
  split; [reflexivity|]. split; [exact F|].
  split; [apply (find_user_email address users u F) | reflexivity].
Qed.

(** X22.  Adding to the watchlist never creates a duplicate, in whatever
    letter case the symbol is given: a POST leaves every address in place,
    keeps every watchlist free of duplicates, on success puts the upper-case
    symbol at the end of the session user's list, and a second POST of the
    same symbol in any letter case is refused with 'Stock already in
    watchlist' and changes nothing. *)
Theorem watchlist_stays_free_of_duplicates :
  forall (s : app.session) (given : option string) (users : list app.user),
    let answer := fst (app.watchlist_POST s given users) in
    let users' := snd (app.watchlist_POST s given users) in
    map app.email users' = map app.email users
    /\ (Forall (fun u => NoDup (watchlist_of u)) users ->
        Forall (fun u => NoDup (watchlist_of u)) users')
    /\ (forall text,
          answer = app.Json true text ->
          exists address u u',
            app.user_email s = Some address
            /\ app.find_user address users = Some u
            /\ app.find_user address users' = Some u'
            /\ watchlist_of u'
               = watchlist_of u ++ [upper (get given EmptyString)]
            /\ forall again,
                 upper (get again EmptyString)
                 = upper (get given EmptyString) ->
                 app.watchlist_POST s again users'
                 = (app.Json false "Stock already in watchlist", users')).
Proof.
  intros s given users answer users'. unfold answer, users'.
  unfold app.watchlist_POST.
  match goal with
  | |- context [app.as_user s users ?view] =>
      destruct (as_user_cases s users view)
        as [(address & u & Se & F & Eu & Run) | (Same & Never)]
  end.
  2:{ rewrite Same. split; [reflexivity|]. split; [tauto|].
      intros text E. exfalso. exact (Never text E). }
  rewrite Run. cbv zeta.
  set (symbol := upper (get given EmptyString)).
  destruct (String.eqb symbol EmptyString) eqn:Empty;
    [cbn [fst snd]; split; [reflexivity|]; split; [tauto | discriminate]|].
  fold (watchlist_of u).
  destruct (existsb (String.eqb symbol) (watchlist_of u)) eqn:Held;
    [cbn [fst snd]; split; [reflexivity|]; split; [tauto | discriminate]|].
  cbn [fst snd].
  assert (New : ~ In symbol (watchlist_of u)).
  { intro H. apply existsb_eqb_in in H. congruence. }
  split; [apply save_user_emails; exact Eu|].
  split.
  - intro N. apply save_user_keeps; [|exact N].
    unfold watchlist_of at 1. cbn [app.with_watchlist app.watchlist get].
    apply NoDup_snoc; [|exact New].
    rewrite Forall_forall in N. apply N.
    apply (find_user_in address users u F).
  - intros text _.
    exists address, u, (app.with_watchlist u (watchlist_of u ++ [symbol])).
    split; [exact Se|]. split; [exact F|].
    assert (F' : app.find_user
                   address
                   (app.save_user
                      address
                      (app.with_watchlist u (watchlist_of u ++ [symbol]))
                      users)
                 = Some (app.with_watchlist u (watchlist_of u ++ [symbol])))
      by (apply (find_saved_user address _ u); [exact Eu | exact F]).
    split; [exact F'|]. split; [reflexivity|].
    intros again Again. unfold app.as_user. rewrite Se, F'. cbv zeta.
    rewrite Again. fold symbol. rewrite Empty.
    cbn [app.with_watchlist app.watchlist get].
    replace (existsb (String.eqb symbol) (watchlist_of u ++ [symbol]))
      with true
      by (symmetry; apply existsb_eqb_in, in_or_app; right; left;
          reflexivity).
    reflexivity.
Qed.

Lemma watchlist_witness :
  app.watchlist_POST asha_logged_in (Some "infy.ns"%string) [asha]
  = (app.Json true "Added to watchlist",
     [app.with_watchlist asha ["TCS.NS"; "INFY.NS"]%string])
  /\ fst (app.watchlist_POST
            asha_logged_in (Some "Infy.NS"%string)
            [app.with_watchlist asha ["TCS.NS"; "INFY.NS"]%string])
     = app.Json false "Stock already in watchlist".
Proof.
  split; [reflexivity|].
  pose proof (watchlist_stays_free_of_duplicates
                asha_logged_in (Some "infy.ns"%string) [asha]) as H.
  cbv zeta in H. destruct H as (_ & _ & Added).
  destruct (Added "Added to watchlist"%string eq_refl)
    as (address & u & u' & _ & _ & _ & _ & Refused).
  exact (f_equal fst (Refused (Some "Infy.NS"%string) eq_refl)).
Defined.

(** X23.  Removing what was just added restores the store: after a
    successful POST of a symbol, a DELETE of the same symbol succeeds and
    every user reads as before the POST (a watchlist key that was absent is
    now an empty list). *)
Theorem watchlist_delete_undoes_post :
  forall (s : app.session) (given : option string)
         (users users' : list app.user) (text : string),
    app.watchlist_POST s given users = (app.Json true text, users') ->
    exists users'' : list app.user,
      app.watchlist_DELETE s given users'
      = (app.Json true "Removed from watchlist", users'')
      /\ map as_read users'' = map as_read users.
Proof.
  intros s given users users' text. unfold app.watchlist_POST.
  match goal with
  | |- context [app.as_user s users ?view] =>
      destruct (as_user_cases s users view)
        as [(address & u & Se & F & Eu & Run) | (_ & Never)]
  end.
  2:{ intro E. exfalso. apply (Never text). rewrite E. reflexivity. }
  rewrite Run. cbv zeta.
  set (symbol := upper (get given EmptyString)).
  destruct (String.eqb symbol EmptyString); [discriminate|].
  fold (watchlist_of u).
  destruct (existsb (String.eqb symbol) (watchlist_of u)) eqn:Held;
    [discriminate|].
  intro E. injection E as _ <-.
  assert (New : ~ In symbol (watchlist_of u)).
  { intro H. apply existsb_eqb_in in H. congruence. }
  assert (F' : app.find_user
                 address
                 (app.save_user
                    address
                    (app.with_watchlist u (watchlist_of u ++ [symbol]))
                    users)
               = Some (app.with_watchlist u (watchlist_of u ++ [symbol])))
    by (apply (find_saved_user address _ u); [exact Eu | exact F]).
  unfold app.watchlist_DELETE, app.as_user. rewrite Se, F'. cbv zeta.
  fold symbol. cbn [app.with_watchlist app.watchlist get].
  replace (existsb (String.eqb symbol) (watchlist_of u ++ [symbol]))
    with true
    by (symmetry; apply existsb_eqb_in, in_or_app; right; left; reflexivity).
  eexists. split; [reflexivity|].
  rewrite save_user_twice by exact Eu.
  rewrite remove_first_of_the_last by exact New.
  apply (save_user_as_read address _ u users F). reflexivity.
Qed.

Lemma watchlist_round_trip_witness :
  exists users'' : list app.user,
    app.watchlist_DELETE
      asha_logged_in (Some "infy.ns"%string)
      (snd (app.watchlist_POST asha_logged_in (Some "infy.ns"%string) [asha]))
    = (app.Json true "Removed from watchlist", users'')
    /\ map as_read users'' = map as_read [asha].
Proof.
  apply (watchlist_delete_undoes_post
           asha_logged_in (Some "infy.ns"%string) [asha] _
           "Added to watchlist").
  reflexivity.
Defined.

(** ** app.py: the portfolio *)

(** X25.  A DELETE on the portfolio removes every holding of the symbol
    (upper-cased), however many there are, and keeps the others in order.
    It answers 'Removed from portfolio' whenever the session user has a
    portfolio key, also when no holding of that symbol existed and nothing
    changed; 'Stock not in portfolio' is only the answer for a user without
    the key. *)
Theorem portfolio_delete_removes_every_holding_of_the_symbol :
  forall (s : app.session) (given : option string) (users : list app.user)
         (address : string) (u : app.user),
    app.user_email s = Some address ->
    app.find_user address users = Some u ->
    let symbol := upper (get given EmptyString) in
    let answer := fst (app.portfolio_DELETE s given users) in
    let users' := snd (app.portfolio_DELETE s given users) in
    map app.email users' = map app.email users
    /\ (app.portfolio u = None ->
        answer = app.Json false "Stock not in portfolio" /\ users' = users)
    /\ (app.portfolio u <> None ->
        answer = app.Json true "Removed from portfolio"
        /\ exists u',
             app.find_user address users' = Some u'
             /\ portfolio_of u'
                = filter (app.other_than symbol) (portfolio_of u)
             /\ Forall (fun h => app.symbol h <> symbol) (portfolio_of u')
             /\ (Forall (fun h => app.symbol h <> symbol) (portfolio_of u) ->
                 portfolio_of u' = portfolio_of u)).
Proof.
  intros s given users address u Se F symbol answer users'.
  pose proof (find_user_email address users u F) as Eu.
  unfold answer, users', app.portfolio_DELETE, app.as_user.
  rewrite Se, F. cbv zeta. fold symbol.
  destruct (app.portfolio u) as [entries|] eqn:P; cbn [fst snd get].
  - split; [apply save_user_emails; exact Eu|].
    split; [discriminate|]. intros _. split; [reflexivity|].
    exists (app.with_portfolio u (filter (app.other_than symbol) entries)).
    split; [apply (find_saved_user address _ u); [exact Eu | exact F]|].
    unfold portfolio_of. rewrite P.
    cbn [app.with_portfolio app.portfolio get].
    split; [reflexivity|]. split.
    + apply Forall_forall. intros h Hh. apply filter_In in Hh.
      destruct Hh as [_ Other]. unfold app.other_than in Other.
      apply negb_true_iff in Other. apply String.eqb_neq. exact Other.
    + intro None_held. apply forallb_filter_id.
      apply forallb_forall. intros h Hh.
      rewrite Forall_forall in None_held. unfold app.other_than.
      apply negb_true_iff, String.eqb_neq, None_held. exact Hh.
  - split; [reflexivity|]. split; [|congruence].
    intros _. split; reflexivity.
Qed.

Lemma portfolio_delete_witness :
  map app.symbol
      (portfolio_of
         (hd asha (snd (app.portfolio_DELETE
                          asha_logged_in (Some "tcs.ns"%string)
                          [asha_with_holdings]))))
  = ["AAPL"%string]
  /\ fst (app.portfolio_DELETE asha_logged_in (Some "msft"%string)
                               [asha_with_holdings])
     = app.Json true "Removed from portfolio".
Proof.
  split; [reflexivity|].
  pose proof (portfolio_delete_removes_every_holding_of_the_symbol
                asha_logged_in (Some "msft"%string) [asha_with_holdings]
                "asha@example.com" asha_with_holdings eq_refl eq_refl) as H.
  cbv zeta in H. destruct H as (_ & _ & Has_key).
  destruct (Has_key ltac:(discriminate)) as [Answer _].
  exact Answer.
Defined.

(** ** sentiment_analyzer: what [get_stock_news] hands to [analyze] *)

Lemma format_news_titled (news : list (res news_item))
    (formatted_news : list article) :
  format_news news = Ok formatted_news ->
  (length formatted_news <= length news)%nat /\ Forall titled formatted_news.
Proof.
  revert formatted_news.
  induction news as [|[entry|x] rest IH]; intros formatted F;
    cbn [format_news] in F.
  - injection F as <-. split; [cbn [length]; lia | constructor].
  - destruct (format_news rest) as [kept|x]; [|discriminate].
    destruct (IH kept eq_refl) as [L T].
    destruct (String.eqb (strip (item_title entry)) EmptyString) eqn:E;
      cbn [negb andb] in F.
    + injection F as <-. split; [cbn [length]; lia | exact T].
    + destruct (negb _) in F; injection F as <-.
      * split; [cbn [length]; lia|]. constructor; [|exact T].
        unfold titled. cbn [title]. apply String.eqb_neq. exact E.
      * split; [cbn [length]; lia | exact T].
  - discriminate.
Qed.

Lemma collect_titled (elements : list (res (option string)))
    (articles : list article) :
  Forall titled articles ->
  Forall titled (fst (collect elements articles))
  /\ (length (fst (collect elements articles))
      <= length articles + length elements)%nat.
Proof.
  revert articles.
  induction elements as [|[[text|]|x] rest IH]; intros articles T;
    cbn [collect].
  - cbn [fst length]. split; [exact T | lia].
  - destruct (String.eqb (strip text) EmptyString) eqn:E.
    + destruct (IH articles T) as [T' L]. split; [exact T'|].
      cbn [length]. lia.
    + assert (T1 : Forall titled (articles ++ [{| title := strip text |}])).
      { apply Forall_app. split; [exact T|]. constructor; [|constructor].
        unfold titled. cbn [title]. apply String.eqb_neq. exact E. }
      destruct (IH _ T1) as [T' L]. split; [exact T'|].
      rewrite length_app in L. cbn [length] in *. lia.
  - destruct (IH articles T) as [T' L]. split; [exact T'|].
    cbn [length]. lia.
  - cbn [fst length]. split; [exact T | lia].
Qed.

Lemma Forall_firstn {A : Type} (P : A -> Prop) (n : nat) (xs : list A) :
  Forall P xs -> Forall P (firstn n xs).
Proof.
  intro H. revert n.
  induction H as [|x rest Px _ IH]; intro n; destruct n; cbn [firstn];
    constructor; [exact Px | apply IH].
Qed.

Lemma some_or_at_least_two {A : Type} (cap : nat) (xs : list A) :
  (2 <= cap)%nat -> (2 <= length xs)%nat ->
  (2 <= length (firstn cap xs))%nat /\ (length (firstn cap xs) <= cap)%nat.
Proof. intros C L. rewrite length_firstn. lia. Qed.

Lemma get_stock_news_shape (f : news_feeds) :
  (get_stock_news f = []
   \/ (2 <= length (get_stock_news f))%nat
      /\ (length (get_stock_news f) <= 10)%nat)
  /\ Forall titled (get_stock_news f).
Proof.
  unfold get_stock_news.
  assert (Try3 : forall articles,
             Forall titled articles ->
             let answer :=
               match yahoo_page f with
               | Ok (Some news_items) =>
                   let (articles, finished) :=
                     collect (firstn 8 news_items) articles in
                   if finished && (2 <=? length articles)%nat
                   then firstn 8 articles
                   else []
               | _ => []
               end in
             (answer = []
              \/ (2 <= length answer)%nat /\ (length answer <= 10)%nat)
             /\ Forall titled answer).
  { intros articles T. cbv zeta.
    destruct (yahoo_page f) as [[news_items|]|x];
      try (split; [left; reflexivity | constructor]).
    destruct (collect_titled (firstn 8 news_items) articles T) as [T' _].
    destruct (collect (firstn 8 news_items) articles) as [found finished].
    cbn [fst] in T'.
    destruct (finished && (2 <=? length found)%nat) eqn:Enough;
      [|split; [left; reflexivity | constructor]].
    apply andb_prop in Enough. destruct Enough as [_ Two].
    apply Nat.leb_le in Two.
    split; [right; rewrite length_firstn; lia | apply Forall_firstn, T']. }
  assert (Try2 :
            let answer :=
              match google_rss f with
              | Ok (Some items) =>
                  let (articles, finished) := collect (firstn 12 items) [] in
                  if finished && (2 <=? length articles)%nat
                  then firstn 10 articles
                  else
                    match yahoo_page f with
                    | Ok (Some news_items) =>
                        let (articles, finished) :=
                          collect (firstn 8 news_items) articles in
                        if finished && (2 <=? length articles)%nat
                        then firstn 8 articles
                        else []
                    | _ => []
                    end
              | _ =>
                  match yahoo_page f with
                  | Ok (Some news_items) =>
                      let (articles, finished) :=
                        collect (firstn 8 news_items) [] in
                      if finished && (2 <=? length articles)%nat
                      then firstn 8 articles
                      else []
                  | _ => []
                  end
              end in
            (answer = []
             \/ (2 <= length answer)%nat /\ (length answer <= 10)%nat)
            /\ Forall titled answer).
  { cbv zeta.
    destruct (google_rss f) as [[items|]|x];
      try (apply (Try3 []); constructor).
    destruct (collect_titled (firstn 12 items) [] ltac:(constructor))
      as [T' _].
    destruct (collect (firstn 12 items) []) as [found finished].
    cbn [fst] in T'.
    destruct (finished && (2 <=? length found)%nat) eqn:Enough;
      [|apply (Try3 found); exact T'].
    apply andb_prop in Enough. destruct Enough as [_ Two].
    apply Nat.leb_le in Two.
    split; [right; rewrite length_firstn; lia | apply Forall_firstn, T']. }
  cbv zeta in Try2.
  destruct (yfinance_news f) as [news|x]; [|exact Try2].
  pose proof (format_news_titled (firstn 8 news)) as Formatted.
  destruct (format_news (firstn 8 news)) as [formatted_news|x];
    [|exact Try2].
  destruct (Formatted formatted_news eq_refl) as [L T].
  destruct (2 <=? length formatted_news)%nat eqn:Two; [|exact Try2].
  apply Nat.leb_le in Two. rewrite length_firstn in L.
  split; [right; lia | exact T].
Qed.

(** X26.  [get_stock_news] hands over no article or between 2 and 10 of
    them, never a single one, and each has a title that is not blank.  The
    entries of [stock.news] come first: when at least two of its first
    eight have a title and a publisher, they are the answer and no page is
    scraped. *)
Theorem news_is_empty_or_two_to_ten_titled_articles :
  forall f : news_feeds,
    length (get_stock_news f) <> 1%nat
    /\ (length (get_stock_news f) <= 10)%nat
    /\ Forall titled (get_stock_news f)
    /\ (forall news formatted_news,
          yfinance_news f = Ok news ->
          format_news (firstn 8 news) = Ok formatted_news ->
          (2 <= length formatted_news)%nat ->
          get_stock_news f = formatted_news).
Proof.
  intro f. destruct (get_stock_news_shape f) as [Count Titles].
  split; [|split; [|split; [exact Titles|]]].
  - destruct Count as [-> | [Two _]]; [discriminate | lia].
  - destruct Count as [-> | [_ Ten]]; [cbn [length]; lia | exact Ten].
  - intros news formatted_news Y F Two. unfold get_stock_news.
    rewrite Y, F.
    replace (2 <=? length formatted_news)%nat with true
      by (symmetry; apply Nat.leb_le; exact Two).
    reflexivity.
Qed.

Lemma sqrt_micro_is_not_negative (q : Q) : 0 <= sqrt_micro q.
Proof.
  unfold sqrt_micro. apply Qle_shift_div_l; [reflexivity|].
  rewrite Qmult_0_l. change 0 with (inject_Z 0). rewrite <- Zle_Qle.
  apply Z.sqrt_nonneg.
Qed.

Lemma len_at_most {A : Type} (xs : list A) (n : nat) :
  (length xs <= n)%nat -> len xs <= inject_Z (Z.of_nat n).
Proof. intro L. unfold len. rewrite <- Zle_Qle. lia. Qed.

Section FewArticles.

Variable sqrt : Q -> Q.
Hypothesis sqrt_is_not_negative : forall q, 0 <= sqrt q.

Lemma volatility_is_not_negative (i : info_dict) (hist : list bar) :
  0 <= volatility (market_stats sqrt i hist).
Proof.
  unfold market_stats. destruct (20 <? length hist)%nat; cbn [volatility].
  - unfold std.
    match goal with
    | |- 0 <= sqrt ?q * 100 => pose proof (sqrt_is_not_negative q)
    end.
    lra.
  - discriminate.
Qed.

Lemma confidence_A_with_few_articles (s : stats) (sentiments : list Q)
    (avg_sentiment : Q) :
  0 <= volatility s ->
  (length sentiments <= 10)%nat ->
  40 <= confidence_A sqrt s sentiments avg_sentiment
  /\ confidence_A sqrt s sentiments avg_sentiment <= 80.
Proof.
  intros V Few. unfold confidence_A.
  set (sentiment_std := match sentiments with [] => 0 | _ :: _ => _ end).
  assert (Std : 0 <= sentiment_std).
  { unfold sentiment_std. destruct sentiments; [discriminate|].
    apply sqrt_is_not_negative. }
  pose proof (len_at_most sentiments 10 Few) as Count.
  change (inject_Z (Z.of_nat 10)) with 10 in Count.
  split; [apply Q.le_max_l|].
  apply Q.max_lub; [discriminate|].
  eapply Qle_trans; [apply Q.le_min_r|].
  assert (A : Qmin (len sentiments / 20 * 100) 100 <= 50).
  { eapply Qle_trans; [apply Q.le_min_l|]. divide_by_numerals. lra. }
  assert (C : Qmax 0 ((1 - sentiment_std) * 100) <= 100)
    by (apply Q.max_lub; lra).
  assert (Vc : Qmax 0 (100 - volatility s * 8) <= 100)
    by (apply Q.max_lub; lra).
  lra.
Qed.

End FewArticles.

(** X27.  Because [get_stock_news] never hands over more than ten
    articles, the confidence of the article path cannot reach its cap of
    95: whenever the news it gathered is not empty (and the history is not
    empty, the price not a plain zero, and square roots are not negative),
    [analyze] on that news succeeds with a confidence between 40 and 80 and
    counts between 2 and 10 articles. *)
Theorem gathered_news_caps_the_confidence_at_80 :
  forall (sqrt : Q -> Q) (TextBlob_polarity : string -> res Q) (e : env)
         (symbol : string) (f : news_feeds) (i : info_dict) (hist : list bar)
         (w : world),
    (forall q, 0 <= sqrt q) ->
    get_stock_news f <> [] ->
    hist <> [] ->
    plain_zero_price (market_stats sqrt i hist) = false ->
    exists (r : sentiment) (w' : world) (count : nat),
      analyze sqrt TextBlob_polarity e symbol (get_stock_news f) (Ok i)
              (Ok hist) w
      = (Success r, w')
      /\ (40 <= confidence r /\ confidence r <= 80)
      /\ total_articles r = Some count
      /\ (2 <= count)%nat /\ (count <= 10)%nat.
Proof.
  intros sqrt tb e symbol f i hist w Root NN NE NZ.
  set (s := market_stats sqrt i hist) in *.
  set (news := get_stock_news f) in *.
  destruct (get_stock_news_shape f) as [[Empty | [Two Ten]] _];
    [contradiction|].
  fold news in Two, Ten.
  destruct (path_A_run sqrt tb e symbol s hist news w NN NE NZ)
    as (votes & weights & p & n & u & _ & _ & rate & r & w' & Run & _).
  destruct (path_A_fields sqrt tb e symbol s hist news w w' r Run)
    as (_ & Co & Ar & _).
  exists r, w', (Nat.min 20 (length news)).
  split; [rewrite analyze_of_path; fold s; destruct news; [congruence|];
          rewrite Run; reflexivity|].
  split; [|split; [rewrite Ar, polarities_count; reflexivity | lia]].
  rewrite Co. apply (round_between _ 2 40 80).
  - apply confidence_A_with_few_articles; [exact Root| |].
    + apply volatility_is_not_negative. exact Root.
    + rewrite polarities_count. lia.
  - apply confidence_A_with_few_articles; [exact Root| |].
    + apply volatility_is_not_negative. exact Root.
    + rewrite polarities_count. lia.
Qed.

Lemma gathered_news_witness :
  exists (r : sentiment) (w' : world),
    analyze sqrt_micro neutral_reader at_midnight indian_symbol
            (get_stock_news one_rss_headline) (Ok quoted_at_100)
            (Ok (flat_history 30 100 1000)) fresh_world
    = (Success r, w')
    /\ (40 <= confidence r /\ confidence r <= 80).
Proof.
  destruct (gathered_news_caps_the_confidence_at_80
              sqrt_micro neutral_reader at_midnight indian_symbol
              one_rss_headline quoted_at_100 (flat_history 30 100 1000)
              fresh_world sqrt_micro_is_not_negative ltac:(discriminate)
              ltac:(discriminate) ltac:(reflexivity))
    as (r & w' & count & Run & C & _).
  exists r, w'. split; [exact Run | exact C].
Defined.
